(** * GpuScatterGrid: normalisation, grid layout, tiled rendering and hit-testing

    A shallow embedding of [src/GpuScatterGrid.tsx] (the second document of
    [src/src/App.tsx]).  React state is made explicit: [handleMouseMove]
    returns the value it passes to [setTooltip], [render] returns the draw
    calls it issues and [canvasSize] the size it gives the drawing buffer.
    The column count is an integer.  Typed arrays are lists.

    JavaScript numbers are idealised as exact rationals ([Q]); the two
    infinities only occur as the initial values of the range scan and are
    kept as separate constructors.  The code computes in IEEE doubles (and
    stores [pos], [size] and [color] as 32-bit floats), so an equation
    between computed numbers below is one that the code satisfies up to
    rounding.  Two places need care, and the statements are written
    accordingly:
    - the bounds stored on a [Prepared] are the padded bounds with the
      padding taken off again.  In exact arithmetic this gives back the
      scanned bounds; in doubles it gives them back only up to rounding
      (a one-point panel may even store an upper bound below the lower
      one).  No statement asserts that the stored bounds equal, contain or
      are ordered like the scanned ones; where the stored bounds are
      related to the points of a panel, the panel has two distinct values
      on the axis and the statement leaves a margin far wider than the
      rounding;
    - a division by zero gives 0 in [Q] and [NaN] or an infinity in
      JavaScript.  A statement about the value of a quotient carries
      hypotheses that make its divisor non-zero (at least one column, a
      non-empty panel, trades of positive size). *)

From Stdlib Require Import Bool String QArith Qround Qabs Qminmax ZArith List Sorted Permutation Lia Lqa.
Import ListNotations.
Local Open Scope Q_scope.

(** ** Numbers *)

(** A [number] held by one of the scan accumulators. *)
Inductive num : Type :=
| NegInfinity
| Fin (q : Q)
| Infinity.

(** [a < b] and [a > b] for a finite [a] against an accumulator. *)
Definition Qltb (a b : Q) : bool := negb (Qle_bool b a).

Definition lt_num (a : Q) (b : num) : bool :=
  match b with
  | NegInfinity => false
  | Fin q => Qltb a q
  | Infinity => true
  end.

Definition gt_num (a : Q) (b : num) : bool :=
  match b with
  | NegInfinity => true
  | Fin q => Qltb q a
  | Infinity => false
  end.

(** The value of an accumulator once the scan has visited a point.  It is
    only applied after a scan of a non-empty list, where every accumulator
    is finite (lemma [findRanges_finite]). *)
Definition valueOf (n : num) : Q :=
  match n with
  | Fin q => q
  | _ => 0
  end.

(** [d || 1] on numbers: zero is falsy. *)
Definition orOne (d : Q) : Q := if Qeq_bool d 0 then 1 else d.

(** [Math.max(0, Math.min(1, u))]. *)
Definition clamp01 (u : Q) : Q := Qmax 0 (Qmin 1 u).

(** ** Data model *)

Definition RGB : Type := (Q * Q * Q)%type.

Inductive Side : Type := Up | Down.

Module Point.
Record t : Type := mk {
  x : Q;
  y : Q;
  size : option Q;
  color : option RGB
}.
End Point.

Module ChartData.
Record t : Type := mk {
  id : string;
  title : string;
  side : Side;
  points : list Point.t;
  color : option RGB
}.
End ChartData.

Module Prepared.
Record t : Type := mk {
  id : string;
  pos : list Q;
  size : list Q;
  color : list Q;
  count : nat;
  xmin : Q;
  xmax : Q;
  ymin : Q;
  ymax : Q
}.
End Prepared.

(** ** Range scan (the [for (const p of c.points)] loop) *)

Record Ranges : Type := mkRanges {
  r_xmin : num; r_xmax : num;
  r_ymin : num; r_ymax : num;
  r_smin : num; r_smax : num
}.

Definition scanInit : Ranges :=
  mkRanges Infinity NegInfinity Infinity NegInfinity Infinity NegInfinity.

(** [p.size ?? 1] *)
Definition sizeOrDefault (p : Point.t) : Q :=
  match Point.size p with
  | Some s => s
  | None => 1
  end.

Definition scanStep (r : Ranges) (p : Point.t) : Ranges :=
  let s := sizeOrDefault p in
  mkRanges
    (if lt_num (Point.x p) (r_xmin r) then Fin (Point.x p) else r_xmin r)
    (if gt_num (Point.x p) (r_xmax r) then Fin (Point.x p) else r_xmax r)
    (if lt_num (Point.y p) (r_ymin r) then Fin (Point.y p) else r_ymin r)
    (if gt_num (Point.y p) (r_ymax r) then Fin (Point.y p) else r_ymax r)
    (if lt_num s (r_smin r) then Fin s else r_smin r)
    (if gt_num s (r_smax r) then Fin s else r_smax r).

Definition findRanges (pts : list Point.t) : Ranges :=
  fold_left scanStep pts scanInit.

(** ** Padding of the ranges *)

Definition padding : Q := 0.05.

(** The locals of [prepared] after the lines that add the padding: the
    padded [xmin], [xmax], [ymin], [ymax], the spans [dx], [dy], [ds] and
    [smin]. *)
Record Norm : Type := mkNorm {
  n_xmin : Q; n_xmax : Q;
  n_ymin : Q; n_ymax : Q;
  n_smin : Q;
  n_dx : Q; n_dy : Q; n_ds : Q
}.

Definition padRanges (r : Ranges) : Norm :=
  let xmin := valueOf (r_xmin r) in
  let xmax := valueOf (r_xmax r) in
  let ymin := valueOf (r_ymin r) in
  let ymax := valueOf (r_ymax r) in
  let smin := valueOf (r_smin r) in
  let smax := valueOf (r_smax r) in
  let dx := orOne (xmax - xmin) in
  let dy := orOne (ymax - ymin) in
  let ds := orOne (smax - smin) in
  mkNorm (xmin - dx * padding) (xmax + dx * padding)
         (ymin - dy * padding) (ymax + dy * padding)
         smin dx dy ds.

(** The padded bounds a panel's points are placed with. *)
Definition normOf (c : ChartData.t) : Norm :=
  padRanges (findRanges (ChartData.points c)).

(** ** Per-point placement (the body of the [for (let i = 0; ...)] loop) *)

(** [ux], [uy] after the clamp. *)
Definition ux (nm : Norm) (p : Point.t) : Q :=
  clamp01 ((Point.x p - n_xmin nm) / (n_xmax nm - n_xmin nm)).

Definition uy (nm : Norm) (p : Point.t) : Q :=
  clamp01 ((Point.y p - n_ymin nm) / (n_ymax nm - n_ymin nm)).

(** Render space. *)
Definition paddedUx (nm : Norm) (p : Point.t) : Q := 0.15 + ux nm p * 0.7.
Definition paddedUy (nm : Norm) (p : Point.t) : Q := 0.15 + uy nm p * 0.7.

(** Clip space: [pos[2 * i]] and [pos[2 * i + 1]]. *)
Definition posX (nm : Norm) (p : Point.t) : Q := paddedUx nm p * 2 - 1.
Definition posY (nm : Norm) (p : Point.t) : Q := (1 - paddedUy nm p) * 2 - 1.

Definition sizeOf (pointSizeRange : Q * Q) (nm : Norm) (p : Point.t) : Q :=
  let us := (sizeOrDefault p - n_smin nm) / n_ds nm in
  fst pointSizeRange + us * (snd pointSizeRange - fst pointSizeRange).

(** [p.color ?? c.color ?? defaultColor] *)
Definition colorOf (defaultColor : RGB) (c : ChartData.t) (p : Point.t) : RGB :=
  match Point.color p with
  | Some k => k
  | None =>
      match ChartData.color c with
      | Some k => k
      | None => defaultColor
      end
  end.

Definition rgbList (k : RGB) : list Q :=
  let '(r, g, b) := k in [r; g; b].

(** ** [prepared]: one [Prepared] per chart

    The four bounds of the result are written as the code computes them,
    [xmin + dx * padding] and so on, from the padded locals. *)

Definition prepare (pointSizeRange : Q * Q) (defaultColor : RGB)
    (c : ChartData.t) : Prepared.t :=
  let pts := ChartData.points c in
  if (length pts =? 0)%nat then
    Prepared.mk (ChartData.id c) [] [] [] 0%nat 0 1 0 1
  else
    let nm := padRanges (findRanges pts) in
    Prepared.mk (ChartData.id c)
      (flat_map (fun p => [posX nm p; posY nm p]) pts)
      (map (sizeOf pointSizeRange nm) pts)
      (flat_map (fun p => rgbList (colorOf defaultColor c p)) pts)
      (length pts)
      (n_xmin nm + n_dx nm * padding)
      (n_xmax nm - n_dx nm * padding)
      (n_ymin nm + n_dy nm * padding)
      (n_ymax nm - n_dy nm * padding).

Definition prepared (pointSizeRange : Q * Q) (defaultColor : RGB)
    (charts : list ChartData.t) : list Prepared.t :=
  map (prepare pointSizeRange defaultColor) charts.

(** ** Grid layout *)

(** [Math.ceil(prepared.length / columns)] *)
Definition rows (columns : Z) (prep : list Prepared.t) : Z :=
  Qceiling (inject_Z (Z.of_nat (length prep)) / inject_Z columns).

(** The height as a function of the row count. *)
Definition heightOfRows (cellHeight cellGap : Q) (r : Z) : Q :=
  inject_Z r * cellHeight + inject_Z (Z.max 0 (r - 1)) * cellGap + 40.

Definition heightPx (columns : Z) (cellHeight cellGap : Q)
    (prep : list Prepared.t) : Q :=
  heightOfRows cellHeight cellGap (rows columns prep).

(** [(width - (cols - 1) * gap) / cols] *)
Definition cellWidth (columns : Z) (cellGap : Q) (width : Q) : Q :=
  (width - (inject_Z columns - 1) * cellGap) / inject_Z columns.

(** A list with the index of each element, as a [for (let i = 0; ...)] loop
    or a [map((c, index) => ...)] sees it. *)
Definition indexed {A : Type} (l : list A) : list (nat * A) :=
  combine (seq 0 (length l)) l.

Module Box.
Record t : Type := mk { x : Q; y : Q; width : Q; height : Q }.
End Box.

(** One call of [drawPoints]: the panel drawn, its point count, and the
    viewport and scissor rectangles (scissor always enabled). *)
Module DrawCall.
Record t : Type := mk {
  index : nat;
  count : nat;
  viewport : Box.t;
  scissor : Box.t
}.
End DrawCall.

Module DOMRect.
Record t : Type := mk { left : Q; top : Q; width : Q }.
End DOMRect.

Module MouseEvent.
Record t : Type := mk { clientX : Q; clientY : Q }.
End MouseEvent.

Module TooltipPoint.
Record t : Type := mk { price : Q; time : Q; size : Q; side : string }.
End TooltipPoint.

Module Tooltip.
Record t : Type := mk {
  visible : bool;
  x : Q;
  y : Q;
  data : list TooltipPoint.t
}.
End Tooltip.

Section Component.

(** The props of the component. *)
Variable columns : Z.
Variable cellHeight : Q.
Variable cellGap : Q.
Variable pointSizeRange : Q * Q.
Variable defaultColor : RGB.

(** ** Tiled renderer *)

(** [Math.max(canvas.clientHeight || 1, requiredHeight)] *)
Definition cssHeightOf (clientHeight : Q) (prep : list Prepared.t) : Q :=
  let requiredHeight := heightPx columns cellHeight cellGap prep in
  Qmax (orOne clientHeight) requiredHeight.

(** The body of the loop over [buffers] in [render]: the draw call issued
    for panel [i], if any. *)
Definition renderCell (cssWidth cssHeight : Q) (i : nat) (b : Prepared.t)
    : list DrawCall.t :=
  let cols := columns in
  let gap := cellGap in
  let cellW := cellWidth cols gap cssWidth in
  let cellH := cellHeight in
  let col := Z.rem (Z.of_nat i) cols in
  let row := Qfloor (inject_Z (Z.of_nat i) / inject_Z cols) in
  let x := inject_Z (Qfloor (inject_Z col * (cellW + gap))) in
  let y := inject_Z (Qfloor (inject_Z row * (cellH + gap))) in
  let w := inject_Z (Qfloor cellW) in
  let h := inject_Z (Qfloor cellH) in
  let viewportY := inject_Z (Qfloor (cssHeight - (y + h))) in
  let safeViewportY := Qmax 0 (Qmin viewportY (cssHeight - h)) in
  let safeY := Qmax 0 (Qmin y (cssHeight - h)) in
  if Qle_bool 0 safeViewportY && Qltb safeY cssHeight
     && (0 <? Prepared.count b)%nat
  then [DrawCall.mk i (Prepared.count b)
          (Box.mk x safeViewportY w h) (Box.mk x safeViewportY w h)]
  else [].

Definition render (clientWidth clientHeight : Q) (prep : list Prepared.t)
    : list DrawCall.t :=
  let cssWidth := orOne clientWidth in
  let cssHeight := cssHeightOf clientHeight prep in
  flat_map (fun ib => renderCell cssWidth cssHeight (fst ib) (snd ib))
           (indexed prep).

(** [canvas.width] and [canvas.height] as [render] sets them before it
    draws: the size of the drawing buffer, in whose pixels the viewport and
    scissor boxes of the draw calls are measured.  The boxes themselves are
    computed from the CSS size alone, so the draw calls do not depend on
    [window.devicePixelRatio]. *)
Definition canvasSize (devicePixelRatio clientWidth clientHeight : Q)
    (prep : list Prepared.t) : Z * Z :=
  let dpr := orOne devicePixelRatio in
  let cssWidth := orOne clientWidth in
  let cssHeight := cssHeightOf clientHeight prep in
  (Z.max 1 (Qfloor (cssWidth * dpr)), Z.max 1 (Qfloor (cssHeight * dpr))).

(** ** Hit-tester *)

(** [p.color && p.color[0] > p.color[1]] *)
Definition isUpTrade (p : Point.t) : bool :=
  match Point.color p with
  | Some (r, g, _) => Qltb g r
  | None => false
  end.

(** The callback of [nearbyPoints.map]. *)
Definition pointData (p : Point.t) : TooltipPoint.t :=
  TooltipPoint.mk
    (Point.y p)
    (Point.x p)
    (match Point.size p with Some s => orOne s | None => 1 end)
    (if isUpTrade p then "Up"%string else "Down"%string).

(** [Math.max(0, Math.min(1, (norm - 0.15) / 0.7))] *)
Definition unpad (norm : Q) : Q := clamp01 ((norm - 0.15) / 0.7).

(** The cursor in data coordinates and the tolerances, from the bounds
    stored on the panel's [Prepared]. *)
Definition cursorTime (prep : Prepared.t) (cellW localX : Q) : Q :=
  let normX := localX / cellW in
  let unpaddedX := unpad normX in
  Prepared.xmin prep + unpaddedX * (Prepared.xmax prep - Prepared.xmin prep).

Definition cursorPrice (prep : Prepared.t) (cellH localY : Q) : Q :=
  let normY := localY / cellH in
  let unpaddedY := unpad normY in
  Prepared.ymax prep - unpaddedY * (Prepared.ymax prep - Prepared.ymin prep).

Definition timeThreshold (prep : Prepared.t) : Q :=
  (Prepared.xmax prep - Prepared.xmin prep) * 0.02.

Definition priceThreshold (prep : Prepared.t) : Q :=
  (Prepared.ymax prep - Prepared.ymin prep) * 0.02.

(** The filter over [chart.points] for a pointer at [localX], [localY]
    inside a cell of [cellW] by [cellH]. *)
Definition nearbyPoints (chart : ChartData.t) (prep : Prepared.t)
    (cellW cellH localX localY : Q) : list Point.t :=
  filter (fun point =>
            Qltb (Qabs (Point.x point - cursorTime prep cellW localX))
                 (timeThreshold prep)
            && Qltb (Qabs (Point.y point - cursorPrice prep cellH localY))
                    (priceThreshold prep))
         (ChartData.points chart).

(** The cell under the pointer: [col], [row] and [chartIndex]. *)
Definition cellCol (cellW mouseX : Q) : Z := Qfloor (mouseX / (cellW + cellGap)).
Definition cellRow (mouseY : Q) : Z := Qfloor (mouseY / (cellHeight + cellGap)).
Definition chartIndexOf (col row : Z) : Z := (row * columns + col)%Z.

(** [handleMouseMove], with the canvas mounted: the result is the argument
    of the one [setTooltip] call it makes ([None] for [null]). *)
Definition handleMouseMove (charts : list ChartData.t) (rect : DOMRect.t)
    (event : MouseEvent.t) : option Tooltip.t :=
  let mouseX := MouseEvent.clientX event - DOMRect.left rect in
  let mouseY := MouseEvent.clientY event - DOMRect.top rect in
  let cols := columns in
  let gap := cellGap in
  let cellW := cellWidth cols gap (DOMRect.width rect) in
  let cellH := cellHeight in
  let col := cellCol cellW mouseX in
  let row := cellRow mouseY in
  let chartIndex := chartIndexOf col row in
  if (0 <=? chartIndex)%Z && (chartIndex <? Z.of_nat (length charts))%Z then
    match nth_error charts (Z.to_nat chartIndex),
          nth_error (prepared pointSizeRange defaultColor charts)
                    (Z.to_nat chartIndex) with
    | Some chart, Some prep =>
        let localX := mouseX - inject_Z col * (cellW + gap) in
        let localY := mouseY - inject_Z row * (cellH + gap) in
        if Qle_bool 0 localX && Qle_bool localX cellW
           && Qle_bool 0 localY && Qle_bool localY cellH
        then
          let nearby := nearbyPoints chart prep cellW cellH localX localY in
          if (0 <? length nearby)%nat then
            Some (Tooltip.mk true
                    (MouseEvent.clientX event) (MouseEvent.clientY event)
                    (map pointData nearby))
          else None
        else None
    | _, _ => None
    end
  else None.

(** The locals of [handleMouseMove] as functions of the event, for the
    statements below. *)
Definition mouseX (rect : DOMRect.t) (event : MouseEvent.t) : Q :=
  MouseEvent.clientX event - DOMRect.left rect.
Definition mouseY (rect : DOMRect.t) (event : MouseEvent.t) : Q :=
  MouseEvent.clientY event - DOMRect.top rect.
Definition cellW (rect : DOMRect.t) : Q :=
  cellWidth columns cellGap (DOMRect.width rect).
Definition col (rect : DOMRect.t) (event : MouseEvent.t) : Z :=
  cellCol (cellW rect) (mouseX rect event).
Definition row (rect : DOMRect.t) (event : MouseEvent.t) : Z :=
  cellRow (mouseY rect event).
Definition chartIndex (rect : DOMRect.t) (event : MouseEvent.t) : Z :=
  chartIndexOf (col rect event) (row rect event).
Definition localX (rect : DOMRect.t) (event : MouseEvent.t) : Q :=
  mouseX rect event - inject_Z (col rect event) * (cellW rect + cellGap).
Definition localY (rect : DOMRect.t) (event : MouseEvent.t) : Q :=
  mouseY rect event - inject_Z (row rect event) * (cellHeight + cellGap).

(** ** Where a drawn point lands

    The graphics pipeline (not code of this repository) maps a clip-space
    position through the viewport of its draw call to window coordinates
    with the origin at the bottom left; the canvas element has its origin
    at the top left.  With a device pixel ratio of 1 the point with
    clip-space position [(cx, cy)] is drawn at this element-local pixel. *)
Definition pixelOf (cssHeight : Q) (d : DrawCall.t) (cx cy : Q) : Q * Q :=
  let v := DrawCall.viewport d in
  (Box.x v + (cx + 1) / 2 * Box.width v,
   cssHeight - (Box.y v + (cy + 1) / 2 * Box.height v)).

End Component.

(** ** Example panels *)

Definition pointSizeRange0 : Q * Q := (2, 12).
Definition defaultColor0 : RGB := (0.35, 0.52, 0.92).
Definition upColor : RGB := (0.9, 0.2, 0.2).
Definition downColor : RGB := (0.2, 0.8, 0.2).

(** Panel A of the scenario: the points (t=0, p=0.10) and (t=10, p=0.20). *)
Definition pA0 : Point.t := Point.mk 0 0.10 None None.
Definition pA1 : Point.t := Point.mk 10 0.20 None None.
Definition chartA : ChartData.t := ChartData.mk "A" "Panel A" Up [pA0; pA1] None.

(** A panel with an up trade in the middle of its ranges. *)
Definition pM : Point.t := Point.mk 5 0.15 (Some 3) (Some upColor).
Definition chartM : ChartData.t :=
  ChartData.mk "M" "Panel M" Up
    [Point.mk 0 0.10 (Some 1) (Some downColor); pM;
     Point.mk 10 0.20 (Some 2) (Some downColor)] None.

(** A degenerate panel: one point. *)
Definition pD : Point.t := Point.mk 5 0.5 (Some 3) (Some upColor).
Definition chartD : ChartData.t := ChartData.mk "D" "Panel D" Up [pD] None.

(** A panel without points. *)
Definition chartE : ChartData.t := ChartData.mk "E" "Panel E" Down [] None.

(** Nine panels, the last of them panel M: in a grid of 6 columns it is
    the panel of cell col=2, row=1. *)
Definition charts9 : list ChartData.t :=
  [chartA; chartA; chartA; chartA; chartA; chartA; chartA; chartA; chartM].

(** The grid of [App]: 6 columns, cells 280 high, gap 20; a canvas 1300 wide
    has cells 200 wide. *)
Definition rect0 : DOMRect.t := DOMRect.mk 0 0 1300.

(** ** Labels overlay of [GpuScatterGrid] *)

(** [Math.min(...l)] and [Math.max(...l)]; with no argument they are
    [Infinity] and [-Infinity]. *)
Definition Math_min (l : list Q) : num :=
  fold_left (fun a v => if lt_num v a then Fin v else a) l Infinity.

Definition Math_max (l : list Q) : num :=
  fold_left (fun a v => if gt_num v a then Fin v else a) l NegInfinity.

(** The six numbers the overlay of a panel prints. *)
Module Labels.
Record t : Type := mk {
  minTime : Q; maxTime : Q; midTime : Q;
  minPrice : Q; maxPrice : Q; midPrice : Q
}.
End Labels.

(** Computed only for a panel with points (the overlay returns an empty
    cell when [prep.count === 0]), where the minima and maxima are finite. *)
Definition labelsOf (c : ChartData.t) : Labels.t :=
  let timeStamps := map Point.x (ChartData.points c) in
  let prices := map Point.y (ChartData.points c) in
  let minTime := valueOf (Math_min timeStamps) in
  let maxTime := valueOf (Math_max timeStamps) in
  let midTime := (minTime + maxTime) / 2 in
  let minPrice := valueOf (Math_min prices) in
  let maxPrice := valueOf (Math_max prices) in
  let midPrice := (minPrice + maxPrice) / 2 in
  Labels.mk minTime maxTime midTime minPrice maxPrice midPrice.

Module MyTrade.
Record t : Type := mk { timestamp : Q; price : Q; outcome : string }.
End MyTrade.

Module MyTradeData.
Record t : Type := mk { chartIndex : nat; trades : list MyTrade.t }.
End MyTradeData.

(** The callback of [myTradesForChart.trades.map]: the position of the
    crosshair of a trade in percent of the cell ([left], [top]), or [None]
    for [null] when the trade is outside the ranges of the chart. *)
Definition crosshair (lb : Labels.t) (trade : MyTrade.t) : option (Q * Q) :=
  if Qltb (MyTrade.timestamp trade) (Labels.minTime lb)
     || Qltb (Labels.maxTime lb) (MyTrade.timestamp trade)
     || Qltb (MyTrade.price trade) (Labels.minPrice lb)
     || Qltb (Labels.maxPrice lb) (MyTrade.price trade)
  then None
  else
    let timeRange := orOne (Labels.maxTime lb - Labels.minTime lb) in
    let priceRange := orOne (Labels.maxPrice lb - Labels.minPrice lb) in
    let normalizedX :=
      clamp01 ((MyTrade.timestamp trade - Labels.minTime lb) / timeRange) in
    let normalizedY :=
      clamp01 ((Labels.maxPrice lb - MyTrade.price trade) / priceRange) in
    let paddedX := 15 + normalizedX * 70 in
    let paddedY := 15 + normalizedY * 70 in
    Some (paddedX, paddedY).

(** The crosshairs of the panel at [index]: nothing when there is no entry
    for it or the entry has no trades. *)
Definition crosshairs (myTradesData : list MyTradeData.t) (index : nat)
    (lb : Labels.t) : list (option (Q * Q)) :=
  if (0 <? length myTradesData)%nat then
    match find (fun mt => (MyTradeData.chartIndex mt =? index)%nat) myTradesData with
    | None => []
    | Some myTradesForChart =>
        if (length (MyTradeData.trades myTradesForChart) =? 0)%nat then []
        else map (crosshair lb) (MyTradeData.trades myTradesForChart)
    end
  else [].

(** The overlay cell of panel [index]: [None] for the empty cell. *)
Definition overlayCell (myTradesData : list MyTradeData.t) (index : nat)
    (c : ChartData.t) (prep : option Prepared.t)
    : option (Labels.t * list (option (Q * Q))) :=
  match prep with
  | None => None
  | Some pr =>
      if (Prepared.count pr =? 0)%nat then None
      else Some (labelsOf c, crosshairs myTradesData index (labelsOf c))
  end.

(** ** [toCharts] of [App]

    The declarations of [Market] (./markets) and of the entries of
    [myTrades] (./trades_output) are not among the sources: the records
    below have the fields [toCharts] reads, with [Market.id] standing for
    [String(m.id)].  The table [myTrades] and [parseInt] are parameters. *)

Module Trade.
Record t : Type := mk { timestamp : Q; price : Q; size : Q }.
End Trade.

Module Asset.
Record t : Type := mk { assetId : string; trades : list Trade.t }.
End Asset.

Module Market.
Record t : Type := mk { id : string; title : string; up : Asset.t; down : Asset.t }.
End Market.

Module ExtendedChartData.
Record t : Type := mk { chart : ChartData.t; upAssetId : string; downAssetId : string }.
End ExtendedChartData.

Module MyTradeRow.
Record t : Type := mk {
  assetId : string; timeStamp : string; price : Q; outcome : string
}.
End MyTradeRow.

Definition upPoints (m : Market.t) : list Point.t :=
  map (fun t => Point.mk (Trade.timestamp t) (Trade.price t) (Some (Trade.size t))
                  (Some (0.9, 0.2, 0.2)))
      (Asset.trades (Market.up m)).

Definition downPoints (m : Market.t) : list Point.t :=
  map (fun t => Point.mk (Trade.timestamp t) (Trade.price t) (Some (Trade.size t))
                  (Some (0.2, 0.8, 0.2)))
      (Asset.trades (Market.down m)).

Definition extendedChart (m : Market.t) : ExtendedChartData.t :=
  let allPoints := upPoints m ++ downPoints m in
  ExtendedChartData.mk
    (ChartData.mk (Market.id m) (Market.title m) Up allPoints
       (Some (0.35, 0.52, 0.92)))
    (Asset.assetId (Market.up m))
    (Asset.assetId (Market.down m)).

Section ToCharts.

Variable myTrades : list MyTradeRow.t.
Variable parseInt : string -> Q.

Definition myTradesForMarket (chart : ExtendedChartData.t) : list MyTradeRow.t :=
  filter (fun trade =>
            String.eqb (MyTradeRow.assetId trade) (ExtendedChartData.upAssetId chart)
            || String.eqb (MyTradeRow.assetId trade)
                          (ExtendedChartData.downAssetId chart))
         myTrades.

Definition myTradesDataOf (extendedCharts : list ExtendedChartData.t)
    : list MyTradeData.t :=
  filter (fun item => (0 <? length (MyTradeData.trades item))%nat)
    (map (fun ic =>
            MyTradeData.mk (fst ic)
              (map (fun trade =>
                      MyTrade.mk (parseInt (MyTradeRow.timeStamp trade))
                        (MyTradeRow.price trade) (MyTradeRow.outcome trade))
                   (myTradesForMarket (snd ic))))
         (indexed extendedCharts)).

(** The three fields of the result: [charts], [myTradesData],
    [extendedCharts]. *)
Definition toCharts (ms : list Market.t)
    : list ChartData.t * list MyTradeData.t * list ExtendedChartData.t :=
  let extendedCharts := map extendedChart ms in
  (map ExtendedChartData.chart extendedCharts,
   myTradesDataOf extendedCharts,
   extendedCharts).

End ToCharts.

(** ** [SizeHeatmap]: the size buckets

    The label [sizeRange] of a bucket, the text of its two bounds, is left
    out. *)

Module SizeBucket.
Record t : Type := mk { count : nat; minSize : Q; maxSize : Q }.
End SizeBucket.

(** The sizes pushed to [allSizes]: [point.size && point.size > 0]. *)
Definition allSizes (charts : list ChartData.t) : list Q :=
  flat_map (fun chart =>
              flat_map (fun point =>
                          match Point.size point with
                          | Some s => if negb (Qeq_bool s 0) && Qltb 0 s then [s] else []
                          | None => []
                          end)
                       (ChartData.points chart))
           charts.

Definition bucketSize : Q := 5.

Definition inBucket (i : nat) (size : Q) : bool :=
  let bucketMinSize := inject_Z (Z.of_nat i) * bucketSize in
  let bucketMaxSize := (inject_Z (Z.of_nat i) + 1) * bucketSize in
  Qle_bool bucketMinSize size && Qltb size bucketMaxSize.

(** The body of the loop over the buckets. *)
Definition bucketAt (sizes : list Q) (i : nat) : list SizeBucket.t :=
  let bucketMinSize := inject_Z (Z.of_nat i) * bucketSize in
  let bucketMaxSize := (inject_Z (Z.of_nat i) + 1) * bucketSize in
  let count := length (filter (inBucket i) sizes) in
  if (0 <? count)%nat then [SizeBucket.mk count bucketMinSize bucketMaxSize] else [].

Definition numBucketsOf (sizes : list Q) : Z :=
  let maxSize := valueOf (Math_max sizes) in
  Qceiling (maxSize / bucketSize).

Definition sizeBuckets (charts : list ChartData.t) : list SizeBucket.t :=
  let sizes := allSizes charts in
  if (length sizes =? 0)%nat then []
  else flat_map (bucketAt sizes) (seq 0 (Z.to_nat (numBucketsOf sizes))).

(** [sizeBuckets.reduce((sum, b) => sum + b.count, 0)] *)
Definition totalTrades (buckets : list SizeBucket.t) : nat :=
  fold_left (fun sum b => (sum + SizeBucket.count b)%nat) buckets 0%nat.

(** ** [TradeAnalysis]

    The table [myTrades] and [parseInt] are parameters, as for [toCharts]. *)

Module AnalysisChart.
Record t : Type := mk {
  id : string;
  title : string;
  upAssetId : option string;
  downAssetId : option string;
  points : list Point.t
}.
End AnalysisChart.

Module TradeAnalysisData.
Record t : Type := mk {
  assetId : string;
  tradePrice : Q;
  tradeTimestamp : Q;
  outcome : string;
  lowestPriceAfterTrade : Q;
  lowestPriceTimestamp : Q;
  percentageSavings : Q;
  chartTitle : string
}.
End TradeAnalysisData.

(** [chart.upAssetId === trade.assetId] for the optional field. *)
Definition isAsset (a : option string) (assetId : string) : bool :=
  match a with
  | Some s => String.eqb s assetId
  | None => false
  end.

(** [point.color && point.color[0] > 0.8 && point.color[1] < 0.3] *)
Definition isRedPoint (point : Point.t) : bool :=
  match Point.color point with
  | Some (r, g, _) => Qltb 0.8 r && Qltb g 0.3
  | None => false
  end.

(** [point.color && point.color[1] > 0.7 && point.color[0] < 0.3] *)
Definition isGreenPoint (point : Point.t) : bool :=
  match Point.color point with
  | Some (r, g, _) => Qltb 0.7 g && Qltb r 0.3
  | None => false
  end.

Definition relevantPoints (chart : AnalysisChart.t) (assetId : string)
    : list Point.t :=
  if isAsset (AnalysisChart.upAssetId chart) assetId then
    filter isRedPoint (AnalysisChart.points chart)
  else if isAsset (AnalysisChart.downAssetId chart) assetId then
    filter isGreenPoint (AnalysisChart.points chart)
  else [].

Definition futurePoints (chart : AnalysisChart.t) (assetId : string)
    (tradeTimestamp : Q) : list Point.t :=
  filter (fun point => Qltb tradeTimestamp (Point.x point)
                       && Qle_bool 0.10 (Point.y point))
         (relevantPoints chart assetId).

(** [futurePoints.reduce((min, point) => point.y < min.y ? point : min)]
    on a non-empty array: the first element is the initial value. *)
Definition lowestPoint (first : Point.t) (rest : list Point.t) : Point.t :=
  fold_left (fun min point => if Qltb (Point.y point) (Point.y min) then point else min)
            rest first.

(** The variables of the loop over [matchingCharts]. *)
Record Scan : Type := mkScan {
  totalMarkets : nat;
  lowestPriceFound : option Q;
  lowestPriceTimestamp : option Q;
  chartTitle : string
}.

Definition scanChart (assetId : string) (tradeTimestamp : Q) (st : Scan)
    (chart : AnalysisChart.t) : Scan :=
  match futurePoints chart assetId tradeTimestamp with
  | [] =>
      mkScan (totalMarkets st) (lowestPriceFound st) (lowestPriceTimestamp st)
             (AnalysisChart.title chart)
  | first :: rest =>
      let lp := lowestPoint first rest in
      if match lowestPriceFound st with
         | None => true
         | Some l => Qltb (Point.y lp) l
         end
      then mkScan (S (totalMarkets st)) (Some (Point.y lp)) (Some (Point.x lp))
                  (AnalysisChart.title chart)
      else mkScan (S (totalMarkets st)) (lowestPriceFound st)
                  (lowestPriceTimestamp st) (AnalysisChart.title chart)
  end.

Definition matchingCharts (charts : list AnalysisChart.t) (assetId : string)
    : list AnalysisChart.t :=
  filter (fun chart => isAsset (AnalysisChart.upAssetId chart) assetId
                       || isAsset (AnalysisChart.downAssetId chart) assetId)
         charts.

Definition scanCharts (charts : list AnalysisChart.t) (assetId : string)
    (tradeTimestamp : Q) : Scan :=
  fold_left (scanChart assetId tradeTimestamp) (matchingCharts charts assetId)
            (mkScan 0 None None "").

(** The comparator [(a, b) => b.tradeTimestamp - a.tradeTimestamp] puts [a]
    before [b] when it is negative and keeps their order when it is zero
    (the sort is stable): each element is inserted behind the elements
    whose timestamp is not smaller. *)
Fixpoint insertByTimestamp (x : TradeAnalysisData.t)
    (l : list TradeAnalysisData.t) : list TradeAnalysisData.t :=
  match l with
  | [] => [x]
  | y :: l' =>
      if Qle_bool (TradeAnalysisData.tradeTimestamp x)
                  (TradeAnalysisData.tradeTimestamp y)
      then y :: insertByTimestamp x l'
      else x :: y :: l'
  end.

Definition sortByTimestampDesc (l : list TradeAnalysisData.t)
    : list TradeAnalysisData.t :=
  fold_left (fun acc x => insertByTimestamp x acc) l [].

(** [v || 0] on numbers. *)
Definition orZero (v : Q) : Q := if Qeq_bool v 0 then 0 else v.

Section TradeAnalysis.

Variable myTrades : list MyTradeRow.t.
Variable parseInt : string -> Q.

(** The body of [filteredTrades.forEach]: the result pushed for a trade,
    if any. *)
Definition analyzeTrade (charts : list AnalysisChart.t) (trade : MyTradeRow.t)
    : list TradeAnalysisData.t :=
  let tradeTimestamp := parseInt (MyTradeRow.timeStamp trade) in
  let st := scanCharts charts (MyTradeRow.assetId trade) tradeTimestamp in
  match lowestPriceFound st, lowestPriceTimestamp st with
  | Some lowest, Some lowestTimestamp =>
      if (0 <? totalMarkets st)%nat then
        let percentageSavings :=
          if Qltb lowest (MyTradeRow.price trade)
          then (MyTradeRow.price trade - lowest) / MyTradeRow.price trade * 100
          else 0 in
        [TradeAnalysisData.mk (MyTradeRow.assetId trade) (MyTradeRow.price trade)
           tradeTimestamp (MyTradeRow.outcome trade) lowest lowestTimestamp
           percentageSavings (chartTitle st)]
      else []
  | _, _ => []
  end.

Definition analysisData (charts : list AnalysisChart.t) (targetPrice : Q)
    : list TradeAnalysisData.t :=
  let filteredTrades :=
    filter (fun trade => Qeq_bool (MyTradeRow.price trade) targetPrice) myTrades in
  sortByTimestampDesc (flat_map (analyzeTrade charts) filteredTrades).

End TradeAnalysis.

(** [overallStats]: [averageSavings] and [totalTrades]. *)
Definition overallStats (data : list TradeAnalysisData.t) : Q * nat :=
  if (length data =? 0)%nat then (0, 0%nat)
  else
    let totalSavings :=
      fold_left (fun sum trade => sum + orZero (TradeAnalysisData.percentageSavings trade))
                data 0 in
    (totalSavings / inject_Z (Z.of_nat (length data)), length data).

(** ** [aggregateTradesByMinute] of [MinutePointsChart]

    The [Map] from minute to [TradeMinute] is the list of its values in
    insertion order; the key of a value is its field [minute]. *)

Module TradeMinute.
Record t : Type := mk {
  minute : Z;
  upTrades : nat;
  downTrades : nat;
  upTotalSize : Q;
  downTotalSize : Q;
  upAvgPrice : Q;
  downAvgPrice : Q
}.
End TradeMinute.

(** [Math.floor(trade.timestamp / 60) * 60] *)
Definition minuteOf (timestamp : Q) : Z := (Qfloor (timestamp / 60) * 60)%Z.

(** [minuteMap.has(minute)] *)
Definition mapHas (minuteMap : list TradeMinute.t) (minute : Z) : bool :=
  existsb (fun d => (TradeMinute.minute d =? minute)%Z) minuteMap.

(** [minuteMap.set(minute, {...})] for a minute that is not in the map. *)
Definition mapSetNew (minuteMap : list TradeMinute.t) (minute : Z)
    : list TradeMinute.t :=
  minuteMap ++ [TradeMinute.mk minute 0 0 0 0 0 0].

(** The update in place of the value [minuteMap.get(minute)]. *)
Fixpoint mapModify (f : TradeMinute.t -> TradeMinute.t)
    (minuteMap : list TradeMinute.t) (minute : Z) : list TradeMinute.t :=
  match minuteMap with
  | [] => []
  | d :: rest =>
      if (TradeMinute.minute d =? minute)%Z then f d :: rest
      else d :: mapModify f rest minute
  end.

Definition countUp (trade : Trade.t) (d : TradeMinute.t) : TradeMinute.t :=
  TradeMinute.mk (TradeMinute.minute d)
    (TradeMinute.upTrades d + 1) (TradeMinute.downTrades d)
    (TradeMinute.upTotalSize d + Trade.size trade) (TradeMinute.downTotalSize d)
    (TradeMinute.upAvgPrice d) (TradeMinute.downAvgPrice d).

Definition countDown (trade : Trade.t) (d : TradeMinute.t) : TradeMinute.t :=
  TradeMinute.mk (TradeMinute.minute d)
    (TradeMinute.upTrades d) (TradeMinute.downTrades d + 1)
    (TradeMinute.upTotalSize d) (TradeMinute.downTotalSize d + Trade.size trade)
    (TradeMinute.upAvgPrice d) (TradeMinute.downAvgPrice d).

(** The callback of the two [forEach] over the trades. *)
Definition addTrade (count : Trade.t -> TradeMinute.t -> TradeMinute.t)
    (minuteMap : list TradeMinute.t) (trade : Trade.t) : list TradeMinute.t :=
  let minute := minuteOf (Trade.timestamp trade) in
  let withMinute :=
    if negb (mapHas minuteMap minute) then mapSetNew minuteMap minute
    else minuteMap in
  mapModify (count trade) withMinute minute.

Definition tradesInMinute (trades : list Trade.t) (minute : Z) : list Trade.t :=
  filter (fun t => (minuteOf (Trade.timestamp t) =? minute)%Z) trades.

(** [reduce((sum, t) => sum + (t.price * t.size), 0)] *)
Definition totalValue (trades : list Trade.t) : Q :=
  fold_left (fun sum t => sum + Trade.price t * Trade.size t) trades 0.

(** The callback of [minuteMap.forEach] that sets the average prices.  The
    quotient is the code's when the sizes of the minute's trades do not sum
    to zero (with a zero sum the code stores [NaN] or an infinity). *)
Definition setAverages (market : Market.t) (d : TradeMinute.t) : TradeMinute.t :=
  let upTradesInMinute :=
    tradesInMinute (Asset.trades (Market.up market)) (TradeMinute.minute d) in
  let downTradesInMinute :=
    tradesInMinute (Asset.trades (Market.down market)) (TradeMinute.minute d) in
  TradeMinute.mk (TradeMinute.minute d)
    (TradeMinute.upTrades d) (TradeMinute.downTrades d)
    (TradeMinute.upTotalSize d) (TradeMinute.downTotalSize d)
    (if (0 <? length upTradesInMinute)%nat
     then totalValue upTradesInMinute / TradeMinute.upTotalSize d
     else TradeMinute.upAvgPrice d)
    (if (0 <? length downTradesInMinute)%nat
     then totalValue downTradesInMinute / TradeMinute.downTotalSize d
     else TradeMinute.downAvgPrice d).

Definition minuteMapOf (market : Market.t) : list TradeMinute.t :=
  let afterUp :=
    fold_left (addTrade countUp) (Asset.trades (Market.up market)) [] in
  let afterDown :=
    fold_left (addTrade countDown) (Asset.trades (Market.down market)) afterUp in
  map (setAverages market) afterDown.

(** The points pushed for one minute. *)
Definition minutePoints (d : TradeMinute.t) : list Point.t :=
  (if (0 <? TradeMinute.upTrades d)%nat
   then [Point.mk (inject_Z (TradeMinute.minute d)) (TradeMinute.upAvgPrice d)
           (Some (TradeMinute.upTotalSize d)) (Some (0.9, 0.2, 0.2))]
   else [])
  ++
  (if (0 <? TradeMinute.downTrades d)%nat
   then [Point.mk (inject_Z (TradeMinute.minute d)) (TradeMinute.downAvgPrice d)
           (Some (TradeMinute.downTotalSize d)) (Some (0.2, 0.8, 0.2))]
   else []).

Definition aggregateMarket (market : Market.t) : ChartData.t :=
  ChartData.mk
    (Market.id market ++ "-minute-points")%string
    (Market.title market ++ " (Per Minute)")%string
    Up
    (flat_map minutePoints (minuteMapOf market))
    (Some (0.5, 0.5, 0.8)).

Definition aggregateTradesByMinute (markets : list Market.t) : list ChartData.t :=
  map aggregateMarket markets.

(** ** Example market and trades *)

Definition market0 : Market.t :=
  Market.mk "1" "Market 1"
    (Asset.mk "up-1" [Trade.mk 0 0.10 3; Trade.mk 10 0.20 10])
    (Asset.mk "down-1" [Trade.mk 5 0.15 5]).

Definition market1 : Market.t :=
  Market.mk "2" "Market 2" (Asset.mk "up-2" [Trade.mk 3 0.30 2]) (Asset.mk "down-2" []).

Definition myTrades0 : list MyTradeRow.t :=
  [MyTradeRow.mk "up-1" "5" 0.15 "Yes"; MyTradeRow.mk "other" "7" 0.5 "No"].

Definition parseInt0 (s : string) : Q := 5.

(** ** Vocabulary of the statements *)

(** One accumulator of the scan, taken alone. *)
Definition stepMin (f : Point.t -> Q) (a : num) (p : Point.t) : num :=
  if lt_num (f p) a then Fin (f p) else a.

Definition stepMax (f : Point.t -> Q) (a : num) (p : Point.t) : num :=
  if gt_num (f p) a then Fin (f p) else a.

(** [m] is the least value of [f] over [pts]. *)
Definition isMin (f : Point.t -> Q) (pts : list Point.t) (m : Q) : Prop :=
  (forall p, In p pts -> m <= f p) /\ exists p, In p pts /\ m = f p.

Definition isMax (f : Point.t -> Q) (pts : list Point.t) (m : Q) : Prop :=
  (forall p, In p pts -> f p <= m) /\ exists p, In p pts /\ m = f p.

(** The number of sizes falling in bucket [i], and a sum of counts. *)
Definition countIn (sizes : list Q) (i : nat) : nat :=
  length (filter (inBucket i) sizes).

Definition sumOf (l : list nat) : nat := fold_right Nat.add 0%nat l.

(** Strictly increasing lower bounds. *)
Definition bucketBefore (b1 b2 : SizeBucket.t) : Prop :=
  SizeBucket.minSize b1 < SizeBucket.minSize b2.

(** What the loop over the matching charts has found after the charts
    [cs]: nothing, or the least price among their future points and the
    time of a point at that price. *)
Definition ScanInv (assetId : string) (ts : Q) (cs : list AnalysisChart.t)
    (st : Scan) : Prop :=
  match lowestPriceFound st, lowestPriceTimestamp st with
  | Some l, Some t =>
      (0 < totalMarkets st)%nat /\
      (exists c q, In c cs /\ In q (futurePoints c assetId ts) /\
                   Point.y q = l /\ Point.x q = t) /\
      (forall c q, In c cs -> In q (futurePoints c assetId ts) -> l <= Point.y q)
  | None, None =>
      totalMarkets st = 0%nat /\
      (forall c, In c cs -> futurePoints c assetId ts = [])
  | _, _ => False
  end.

(** Most recent first. *)
Definition notBefore (a b : TradeAnalysisData.t) : Prop :=
  TradeAnalysisData.tradeTimestamp b <= TradeAnalysisData.tradeTimestamp a.

Definition analysisChart0 : AnalysisChart.t :=
  AnalysisChart.mk "1" "Market 1" (Some "up-1"%string) (Some "down-1"%string)
    (upPoints market0 ++ downPoints market0).

(** The value of a minute in the map, the trades of a list applied to a
    value, and the sum of their sizes as the loop accumulates it. *)
Definition lookupMinute (minuteMap : list TradeMinute.t) (minute : Z)
    : option TradeMinute.t :=
  find (fun d => (TradeMinute.minute d =? minute)%Z) minuteMap.

Definition applyAll (count : Trade.t -> TradeMinute.t -> TradeMinute.t)
    (trades : list Trade.t) (d : TradeMinute.t) : TradeMinute.t :=
  fold_left (fun d t => count t d) trades d.

Definition sumSize (trades : list Trade.t) : Q :=
  fold_left (fun a t => a + Trade.size t) trades 0.

(** The point of the up trades, and of the down trades, of a minute. *)
Definition minuteUpPoint (market : Market.t) (minute : Z) : Point.t :=
  Point.mk (inject_Z minute)
    (totalValue (tradesInMinute (Asset.trades (Market.up market)) minute)
     / sumSize (tradesInMinute (Asset.trades (Market.up market)) minute))
    (Some (sumSize (tradesInMinute (Asset.trades (Market.up market)) minute)))
    (Some (0.9, 0.2, 0.2)).

Definition minuteDownPoint (market : Market.t) (minute : Z) : Point.t :=
  Point.mk (inject_Z minute)
    (totalValue (tradesInMinute (Asset.trades (Market.down market)) minute)
     / sumSize (tradesInMinute (Asset.trades (Market.down market)) minute))
    (Some (sumSize (tradesInMinute (Asset.trades (Market.down market)) minute)))
    (Some (0.2, 0.8, 0.2)).

(** The value the finished map holds for a minute with trades. *)
Definition minuteValue (market : Market.t) (minute : Z) : TradeMinute.t :=
  TradeMinute.mk minute
    (length (tradesInMinute (Asset.trades (Market.up market)) minute))
    (length (tradesInMinute (Asset.trades (Market.down market)) minute))
    (sumSize (tradesInMinute (Asset.trades (Market.up market)) minute))
    (sumSize (tradesInMinute (Asset.trades (Market.down market)) minute))
    (if (0 <? length (tradesInMinute (Asset.trades (Market.up market)) minute))%nat
     then totalValue (tradesInMinute (Asset.trades (Market.up market)) minute)
          / sumSize (tradesInMinute (Asset.trades (Market.up market)) minute)
     else 0)
    (if (0 <? length (tradesInMinute (Asset.trades (Market.down market)) minute))%nat
     then totalValue (tradesInMinute (Asset.trades (Market.down market)) minute)
          / sumSize (tradesInMinute (Asset.trades (Market.down market)) minute)
     else 0).

(** * Properties *)

(** ** Numbers *)

Lemma Qltb_true (a b : Q) : Qltb a b = true <-> a < b.
Proof.
  unfold Qltb. rewrite negb_true_iff.
  destruct (Qle_bool b a) eqn:E; split; intro H; try reflexivity; try discriminate.
  - apply Qle_bool_iff in E. lra.
  - apply Qnot_le_lt. intro L. apply Qle_bool_iff in L. congruence.
Qed.

Lemma Qltb_false (a b : Q) : Qltb a b = false <-> b <= a.
Proof.
  unfold Qltb. rewrite negb_false_iff. apply Qle_bool_iff.
Qed.

Lemma orOne_cases (d : Q) : (d == 0 /\ orOne d = 1) \/ (~ d == 0 /\ orOne d = d).
Proof.
  unfold orOne. destruct (Qeq_bool d 0) eqn:E.
  - left. split; [now apply Qeq_bool_iff | reflexivity].
  - right. split; [| reflexivity]. intro H. apply Qeq_bool_iff in H. congruence.
Qed.

Lemma orOne_pos (d : Q) : 0 <= d -> 0 < orOne d.
Proof.
  intro H. destruct (orOne_cases d) as [[_ ->] | [N ->]]; lra.
Qed.

Lemma clamp01_range (u : Q) : 0 <= clamp01 u <= 1.
Proof.
  unfold clamp01. split.
  - apply Q.le_max_l.
  - apply Q.max_lub; [lra | apply Q.le_min_l].
Qed.

Lemma clamp01_id (u : Q) : 0 <= u <= 1 -> clamp01 u == u.
Proof.
  intros [H0 H1]. unfold clamp01.
  rewrite (Q.min_r 1 u) by assumption. now apply Q.max_r.
Qed.

(** ** The range scan *)

Lemma scan_fields (pts : list Point.t) : forall r,
  r_xmin (fold_left scanStep pts r) = fold_left (stepMin Point.x) pts (r_xmin r) /\
  r_xmax (fold_left scanStep pts r) = fold_left (stepMax Point.x) pts (r_xmax r) /\
  r_ymin (fold_left scanStep pts r) = fold_left (stepMin Point.y) pts (r_ymin r) /\
  r_ymax (fold_left scanStep pts r) = fold_left (stepMax Point.y) pts (r_ymax r) /\
  r_smin (fold_left scanStep pts r) = fold_left (stepMin sizeOrDefault) pts (r_smin r) /\
  r_smax (fold_left scanStep pts r) = fold_left (stepMax sizeOrDefault) pts (r_smax r).
Proof.
  induction pts as [| p ps IH]; intro r; simpl.
  - repeat split.
  - apply IH.
Qed.

(** A finite minimum accumulator stays finite, only decreases, bounds every
    scanned value from below and is the start value or a scanned value. *)
Lemma stepMin_fold (f : Point.t -> Q) (pts : list Point.t) : forall m0,
  exists m, fold_left (stepMin f) pts (Fin m0) = Fin m /\
            m <= m0 /\
            (forall p, In p pts -> m <= f p) /\
            (m = m0 \/ exists p, In p pts /\ m = f p).
Proof.
  induction pts as [| p ps IH]; intro m0; simpl.
  - exists m0. repeat split; [lra | contradiction | now left].
  - unfold stepMin at 2. simpl. destruct (Qltb (f p) m0) eqn:E.
    + apply Qltb_true in E.
      destruct (IH (f p)) as (m & Hm & Hle & Hall & Hor).
      exists m. repeat split; [assumption | lra | |].
      * intros q [<- | Hq]; [assumption | now apply Hall].
      * right. destruct Hor as [-> | (q & Hq & ->)]; [exists p | exists q]; auto.
    + apply Qltb_false in E.
      destruct (IH m0) as (m & Hm & Hle & Hall & Hor).
      exists m. repeat split; [assumption | assumption | |].
      * intros q [<- | Hq]; [lra | now apply Hall].
      * destruct Hor as [-> | (q & Hq & ->)]; [now left | right; exists q; auto].
Qed.

Lemma stepMax_fold (f : Point.t -> Q) (pts : list Point.t) : forall m0,
  exists m, fold_left (stepMax f) pts (Fin m0) = Fin m /\
            m0 <= m /\
            (forall p, In p pts -> f p <= m) /\
            (m = m0 \/ exists p, In p pts /\ m = f p).
Proof.
  induction pts as [| p ps IH]; intro m0; simpl.
  - exists m0. repeat split; [lra | contradiction | now left].
  - unfold stepMax at 2. simpl. destruct (Qltb m0 (f p)) eqn:E.
    + apply Qltb_true in E.
      destruct (IH (f p)) as (m & Hm & Hle & Hall & Hor).
      exists m. repeat split; [assumption | lra | |].
      * intros q [<- | Hq]; [assumption | now apply Hall].
      * right. destruct Hor as [-> | (q & Hq & ->)]; [exists p | exists q]; auto.
    + apply Qltb_false in E.
      destruct (IH m0) as (m & Hm & Hle & Hall & Hor).
      exists m. repeat split; [assumption | assumption | |].
      * intros q [<- | Hq]; [lra | now apply Hall].
      * destruct Hor as [-> | (q & Hq & ->)]; [now left | right; exists q; auto].
Qed.

Lemma scanMin_nonempty (f : Point.t -> Q) (p : Point.t) (ps : list Point.t) :
  exists m, fold_left (stepMin f) (p :: ps) Infinity = Fin m /\ isMin f (p :: ps) m.
Proof.
  simpl. unfold stepMin at 2. simpl.
  destruct (stepMin_fold f ps (f p)) as (m & Hm & Hle & Hall & Hor).
  exists m. split; [assumption |]. split.
  - intros q [<- | Hq]; [assumption | now apply Hall].
  - destruct Hor as [-> | (q & Hq & ->)]; [exists p | exists q]; simpl; auto.
Qed.

Lemma scanMax_nonempty (f : Point.t -> Q) (p : Point.t) (ps : list Point.t) :
  exists m, fold_left (stepMax f) (p :: ps) NegInfinity = Fin m /\ isMax f (p :: ps) m.
Proof.
  simpl. unfold stepMax at 2. simpl.
  destruct (stepMax_fold f ps (f p)) as (m & Hm & Hle & Hall & Hor).
  exists m. split; [assumption |]. split.
  - intros q [<- | Hq]; [assumption | now apply Hall].
  - destruct Hor as [-> | (q & Hq & ->)]; [exists p | exists q]; simpl; auto.
Qed.

(** After the scan of a non-empty list every accumulator is finite: the
    time and price accumulators hold the least and greatest time and price. *)
Lemma findRanges_finite (pts : list Point.t) :
  pts <> [] ->
  exists x0 x1 y0 y1 s0 s1,
    findRanges pts = mkRanges (Fin x0) (Fin x1) (Fin y0) (Fin y1) (Fin s0) (Fin s1) /\
    isMin Point.x pts x0 /\ isMax Point.x pts x1 /\
    isMin Point.y pts y0 /\ isMax Point.y pts y1 /\
    isMin sizeOrDefault pts s0 /\ isMax sizeOrDefault pts s1.
Proof.
  destruct pts as [| p ps]; [congruence | intros _].
  destruct (scanMin_nonempty Point.x p ps) as (x0 & Ex0 & Hx0).
  destruct (scanMax_nonempty Point.x p ps) as (x1 & Ex1 & Hx1).
  destruct (scanMin_nonempty Point.y p ps) as (y0 & Ey0 & Hy0).
  destruct (scanMax_nonempty Point.y p ps) as (y1 & Ey1 & Hy1).
  destruct (scanMin_nonempty sizeOrDefault p ps) as (s0 & Es0 & Hs0).
  destruct (scanMax_nonempty sizeOrDefault p ps) as (s1 & Es1 & Hs1).
  exists x0, x1, y0, y1, s0, s1.
  split; [| repeat split; try apply Hx0; try apply Hx1; try apply Hy0;
            try apply Hy1; try apply Hs0; try apply Hs1].
  unfold findRanges.
  destruct (scan_fields (p :: ps) scanInit) as (F1 & F2 & F3 & F4 & F5 & F6).
  destruct (fold_left scanStep (p :: ps) scanInit) as [a1 a2 a3 a4 a5 a6].
  simpl in F1, F2, F3, F4, F5, F6.
  unfold scanInit in *. simpl in *. congruence.
Qed.

Lemma isMin_le_isMax (f : Point.t -> Q) (pts : list Point.t) (lo hi : Q) :
  isMin f pts lo -> isMax f pts hi -> lo <= hi.
Proof.
  intros [Hlo (p & Hp & _)] [Hhi _].
  specialize (Hlo p Hp). specialize (Hhi p Hp). lra.
Qed.

(** ** The two branches of [prepare] *)

Lemma prepare_empty (psr : Q * Q) (dc : RGB) (c : ChartData.t) :
  ChartData.points c = [] ->
  prepare psr dc c = Prepared.mk (ChartData.id c) [] [] [] 0%nat 0 1 0 1.
Proof.
  intro E. unfold prepare. rewrite E. reflexivity.
Qed.

Lemma prepare_nonempty (psr : Q * Q) (dc : RGB) (c : ChartData.t) :
  ChartData.points c <> [] ->
  prepare psr dc c =
  Prepared.mk (ChartData.id c)
    (flat_map (fun p => [posX (normOf c) p; posY (normOf c) p]) (ChartData.points c))
    (map (sizeOf psr (normOf c)) (ChartData.points c))
    (flat_map (fun p => rgbList (colorOf dc c p)) (ChartData.points c))
    (length (ChartData.points c))
    (n_xmin (normOf c) + n_dx (normOf c) * padding)
    (n_xmax (normOf c) - n_dx (normOf c) * padding)
    (n_ymin (normOf c) + n_dy (normOf c) * padding)
    (n_ymax (normOf c) - n_dy (normOf c) * padding).
Proof.
  intro N. unfold prepare, normOf.
  destruct (ChartData.points c) as [| p ps]; [congruence | reflexivity].
Qed.

(** The padded bounds of a non-empty panel in terms of the least and
    greatest time and price. *)
Lemma normOf_nonempty (c : ChartData.t) :
  ChartData.points c <> [] ->
  exists x0 x1 y0 y1,
    isMin Point.x (ChartData.points c) x0 /\ isMax Point.x (ChartData.points c) x1 /\
    isMin Point.y (ChartData.points c) y0 /\ isMax Point.y (ChartData.points c) y1 /\
    n_dx (normOf c) = orOne (x1 - x0) /\
    n_dy (normOf c) = orOne (y1 - y0) /\
    n_xmin (normOf c) = x0 - orOne (x1 - x0) * padding /\
    n_xmax (normOf c) = x1 + orOne (x1 - x0) * padding /\
    n_ymin (normOf c) = y0 - orOne (y1 - y0) * padding /\
    n_ymax (normOf c) = y1 + orOne (y1 - y0) * padding /\
    valueOf (r_xmin (findRanges (ChartData.points c))) = x0 /\
    valueOf (r_xmax (findRanges (ChartData.points c))) = x1 /\
    valueOf (r_ymin (findRanges (ChartData.points c))) = y0 /\
    valueOf (r_ymax (findRanges (ChartData.points c))) = y1.
Proof.
  intro N.
  destruct (findRanges_finite _ N)
    as (x0 & x1 & y0 & y1 & s0 & s1 & E & Hx0 & Hx1 & Hy0 & Hy1 & _).
  exists x0, x1, y0, y1. unfold normOf. rewrite E.
  repeat split; try apply Hx0; try apply Hx1; try apply Hy0; try apply Hy1.
Qed.

Lemma padding_value : padding == 1 # 20.
Proof. reflexivity. Qed.

(** The padded range of a non-empty panel is never empty. *)
Lemma normOf_strict (c : ChartData.t) :
  ChartData.points c <> [] ->
  n_xmin (normOf c) < n_xmax (normOf c) /\ n_ymin (normOf c) < n_ymax (normOf c).
Proof.
  intro N.
  destruct (normOf_nonempty c N)
    as (x0 & x1 & y0 & y1 & Hx0 & Hx1 & Hy0 & Hy1 & _ & _ & -> & -> & -> & -> & _).
  pose proof (isMin_le_isMax _ _ _ _ Hx0 Hx1) as Lx.
  pose proof (isMin_le_isMax _ _ _ _ Hy0 Hy1) as Ly.
  assert (0 < orOne (x1 - x0)) by (apply orOne_pos; lra).
  assert (0 < orOne (y1 - y0)) by (apply orOne_pos; lra).
  pose proof padding_value as P. split; nra.
Qed.

(** ** Bounds stored on a [Prepared] *)






(** ** Scenario: panel A *)



(** ** Ordering of the bounds, degenerate ranges *)






(** ** Range of the placed coordinates *)

Lemma paddedU_range (u : Q) :
  0 <= u <= 1 -> 0.15 <= 0.15 + u * 0.7 <= 0.85.
Proof. intros [H0 H1]. split; lra. Qed.

(** C5.  For every panel, every render-space coordinate of every point lies
    within [0.15, 0.85] on both axes (also after the Y flip), and every
    clip-space coordinate written to [pos] lies within [-1, 1] (in fact
    within [-0.7, 0.7]); [pos] holds two coordinates per point. *)
Theorem placed_coordinates_in_range (psr : Q * Q) (dc : RGB) (c : ChartData.t) :
  Forall (fun p =>
            (0.15 <= paddedUx (normOf c) p <= 0.85 /\
             0.15 <= paddedUy (normOf c) p <= 0.85 /\
             0.15 <= 1 - paddedUy (normOf c) p <= 0.85) /\
            (-1 <= posX (normOf c) p <= 1 /\ -1 <= posY (normOf c) p <= 1))
         (ChartData.points c) /\
  Forall (fun v => -1 <= v <= 1 /\ -0.7 <= v <= 0.7) (Prepared.pos (prepare psr dc c)) /\
  length (Prepared.pos (prepare psr dc c)) = (2 * length (ChartData.points c))%nat /\
  Prepared.count (prepare psr dc c) = length (ChartData.points c).
Proof.
  assert (R : forall nm p,
             (0.15 <= paddedUx nm p <= 0.85 /\
              0.15 <= paddedUy nm p <= 0.85 /\
              0.15 <= 1 - paddedUy nm p <= 0.85) /\
             (-0.7 <= posX nm p <= 0.7 /\ -0.7 <= posY nm p <= 0.7)).
  { intros nm p. unfold posX, posY, paddedUx, paddedUy.
    pose proof (clamp01_range ((Point.x p - n_xmin nm) / (n_xmax nm - n_xmin nm))) as Hx.
    pose proof (clamp01_range ((Point.y p - n_ymin nm) / (n_ymax nm - n_ymin nm))) as Hy.
    fold (ux nm p) in Hx. fold (uy nm p) in Hy.
    repeat split; lra. }
  split.
  { apply Forall_forall. intros p _.
    destruct (R (normOf c) p) as (H1 & H2 & H3). repeat split; try apply H1; lra. }
  destruct (ChartData.points c) as [| p0 ps] eqn:E.
  - rewrite (prepare_empty psr dc c E). simpl. repeat split. constructor.
  - assert (N : ChartData.points c <> []) by (rewrite E; discriminate).
    rewrite (prepare_nonempty psr dc c N). rewrite E.
    cbn [Prepared.pos Prepared.count].
    split; [| split; [| reflexivity]].
    + apply Forall_forall. intros v Hv.
      apply in_flat_map in Hv. destruct Hv as (p & _ & [<- | [<- | []]]);
        destruct (R (normOf c) p) as (_ & H2 & H3); lra.
    + generalize (p0 :: ps). intro l. induction l as [| a l IH]; simpl; [reflexivity |].
      rewrite IH. lia.
Qed.

(** ** Grid layout *)

Lemma length_prepared (psr : Q * Q) (dc : RGB) (charts : list ChartData.t) :
  length (prepared psr dc charts) = length charts.
Proof. unfold prepared. apply length_map. Qed.

Lemma inject_Z_pred (z : Z) : inject_Z (z - 1) == inject_Z z - 1.
Proof.
  unfold Z.sub. rewrite inject_Z_plus. reflexivity.
Qed.

(** The ceiling of a quotient of integers, as integer bounds. *)
Lemma Qceiling_quotient (n c : Z) :
  (1 <= c)%Z ->
  ((Qceiling (inject_Z n / inject_Z c) - 1) * c < n
   <= Qceiling (inject_Z n / inject_Z c) * c)%Z.
Proof.
  intro Hc.
  set (q := inject_Z n / inject_Z c).
  assert (Cpos : 0 < inject_Z c).
  { replace 0 with (inject_Z 0) by reflexivity. rewrite <- Zlt_Qlt. lia. }
  assert (E : q * inject_Z c == inject_Z n).
  { unfold q. field. lra. }
  pose proof (Qle_ceiling q) as Hle.
  pose proof (Qceiling_lt q) as Hlt.
  rewrite inject_Z_pred in Hlt.
  split.
  - rewrite Zlt_Qlt, inject_Z_mult, inject_Z_pred. nra.
  - rewrite Zle_Qle, inject_Z_mult. nra.
Qed.

Lemma rows_bounds (columns : Z) (prep : list Prepared.t) :
  (1 <= columns)%Z ->
  ((rows columns prep - 1) * columns < Z.of_nat (length prep)
   <= rows columns prep * columns)%Z.
Proof. intro H. unfold rows. now apply Qceiling_quotient. Qed.

Lemma rows_div (columns : Z) (prep : list Prepared.t) :
  (1 <= columns)%Z ->
  rows columns prep = ((Z.of_nat (length prep) + columns - 1) / columns)%Z.
Proof.
  intro H. pose proof (rows_bounds columns prep H) as [B1 B2].
  apply Z.div_unique with (r := (Z.of_nat (length prep) + columns - 1
                                  - columns * rows columns prep)%Z); lia.
Qed.

Lemma rows_nonneg (columns : Z) (prep : list Prepared.t) :
  (1 <= columns)%Z -> (0 <= rows columns prep)%Z.
Proof.
  intro H. pose proof (rows_bounds columns prep H) as [B1 B2]. nia.
Qed.

Lemma rows_positive (columns : Z) (prep : list Prepared.t) :
  (1 <= columns)%Z -> prep <> [] -> (1 <= rows columns prep)%Z.
Proof.
  intros H N. pose proof (rows_bounds columns prep H) as [B1 B2].
  destruct prep as [| a l]; [congruence |]. simpl length in B2. nia.
Qed.

Lemma inject_Z_nonneg (z : Z) : (0 <= z)%Z -> 0 <= inject_Z z.
Proof.
  intro H. replace 0 with (inject_Z 0) by reflexivity. now rewrite <- Zle_Qle.
Qed.

Lemma heightOfRows_increasing (cellHeight cellGap : Q) (r1 r2 : Z) :
  0 < cellHeight -> 0 <= cellGap -> (0 <= r1 < r2)%Z ->
  heightOfRows cellHeight cellGap r1 < heightOfRows cellHeight cellGap r2.
Proof.
  intros Hh Hg [H0 H12]. unfold heightOfRows.
  assert (A : inject_Z r1 + 1 <= inject_Z r2).
  { replace 1 with (inject_Z 1) by reflexivity.
    rewrite <- inject_Z_plus, <- Zle_Qle. lia. }
  assert (B : inject_Z (Z.max 0 (r1 - 1)) <= inject_Z (Z.max 0 (r2 - 1))).
  { rewrite <- Zle_Qle. lia. }
  nra.
Qed.

(** C6, counterexample.  With no panels, 6 columns, cells 280 high and a
    gap of 20 there are 0 rows and the height is 40, while
    rows*cellH + (rows-1)*g + 40 is 20. *)
Lemma height_formula_fails_without_panels :
  rows 6 (prepared pointSizeRange0 defaultColor0 []) = 0%Z /\
  heightPx 6 280 20 (prepared pointSizeRange0 defaultColor0 []) == 40 /\
  ~ heightPx 6 280 20 (prepared pointSizeRange0 defaultColor0 [])
    == inject_Z (rows 6 (prepared pointSizeRange0 defaultColor0 [])) * 280
       + (inject_Z (rows 6 (prepared pointSizeRange0 defaultColor0 [])) - 1) * 20
       + 40.
Proof.
  repeat split; vm_compute; try reflexivity. intro H; discriminate H.
Qed.

(** C6, as amended.  For n panels and cols >= 1 columns with cell height
    cellH > 0 and gap g >= 0, rows = ceil(n/cols) and
    totalHeight = rows*cellH + max(0, rows-1)*g + 40, which is
    rows*cellH + (rows-1)*g + 40 whenever there is a panel; the height
    strictly increases with the row count and depends on the panels only
    through their number, not on their point counts. *)
Theorem layout_rows_and_height (columns : Z) (cellHeight cellGap : Q)
    (psr : Q * Q) (dc : RGB) (charts : list ChartData.t) :
  (1 <= columns)%Z -> 0 < cellHeight -> 0 <= cellGap ->
  rows columns (prepared psr dc charts)
  = Qceiling (inject_Z (Z.of_nat (length charts)) / inject_Z columns) /\
  rows columns (prepared psr dc charts)
  = ((Z.of_nat (length charts) + columns - 1) / columns)%Z /\
  heightPx columns cellHeight cellGap (prepared psr dc charts)
  == inject_Z (rows columns (prepared psr dc charts)) * cellHeight
     + inject_Z (Z.max 0 (rows columns (prepared psr dc charts) - 1)) * cellGap
     + 40 /\
  (charts <> [] ->
   heightPx columns cellHeight cellGap (prepared psr dc charts)
   == inject_Z (rows columns (prepared psr dc charts)) * cellHeight
      + (inject_Z (rows columns (prepared psr dc charts)) - 1) * cellGap
      + 40) /\
  (forall r1 r2 : Z, (0 <= r1 < r2)%Z ->
   heightOfRows cellHeight cellGap r1 < heightOfRows cellHeight cellGap r2) /\
  (forall charts' : list ChartData.t,
   (rows columns (prepared psr dc charts)
    < rows columns (prepared psr dc charts'))%Z ->
   heightPx columns cellHeight cellGap (prepared psr dc charts)
   < heightPx columns cellHeight cellGap (prepared psr dc charts')) /\
  (forall charts' : list ChartData.t,
   length charts' = length charts ->
   rows columns (prepared psr dc charts') = rows columns (prepared psr dc charts) /\
   heightPx columns cellHeight cellGap (prepared psr dc charts')
   = heightPx columns cellHeight cellGap (prepared psr dc charts)).
Proof.
  intros Hc Hh Hg.
  split; [unfold rows; now rewrite length_prepared |].
  split; [rewrite rows_div by assumption; now rewrite length_prepared |].
  split; [reflexivity |].
  split.
  { intro N. unfold heightPx, heightOfRows.
    assert (P : (1 <= rows columns (prepared psr dc charts))%Z).
    { apply rows_positive; [assumption |].
      destruct charts; [congruence | discriminate]. }
    rewrite Z.max_r by lia. rewrite inject_Z_pred. reflexivity. }
  split; [intros r1 r2 H; now apply heightOfRows_increasing |].
  split.
  { intros charts' H. unfold heightPx.
    apply heightOfRows_increasing; try assumption.
    split; [now apply rows_nonneg | assumption]. }
  intros charts' L.
  assert (R : rows columns (prepared psr dc charts') = rows columns (prepared psr dc charts)).
  { unfold rows. now rewrite !length_prepared, L. }
  split; [exact R |]. unfold heightPx. now rewrite R.
Qed.

(** Seven panels in the grid of [App] take two rows. *)
Lemma layout_rows_and_height_witness :
  (1 <= 6)%Z /\ 0 < 280 /\ 0 <= 20 /\
  rows 6 (prepared pointSizeRange0 defaultColor0
            [chartA; chartE; chartD; chartM; chartA; chartE; chartD])
  = ((Z.of_nat 7 + 6 - 1) / 6)%Z.
Proof.
  assert (H1 : (1 <= 6)%Z) by lia.
  assert (H2 : 0 < 280) by reflexivity.
  assert (H3 : 0 <= 20) by discriminate.
  repeat (split; [assumption |]).
  exact (proj1 (proj2 (layout_rows_and_height 6 280 20 pointSizeRange0 defaultColor0
                         [chartA; chartE; chartD; chartM; chartA; chartE; chartD]
                         H1 H2 H3))).
Defined.

(** C10, counterexample.  With a column count of -2, two panels give
    rows = ceil(2 / -2) = -1 and a height of -280 + 0 + 40 = -240: the clamp
    of the gap term does not keep the height from being negative for any
    column count. *)
Lemma negative_columns_negative_height :
  rows (-2) (prepared pointSizeRange0 defaultColor0 [chartA; chartA]) = (-1)%Z /\
  heightPx (-2) 280 20 (prepared pointSizeRange0 defaultColor0 [chartA; chartA])
  == -240 /\
  heightPx (-2) 280 20 (prepared pointSizeRange0 defaultColor0 [chartA; chartA]) < 0.
Proof.
  repeat split; vm_compute; reflexivity.
Qed.

(** C10, as amended.  When the panel list is empty, rows = 0 and the height
    is the 40-pixel bottom margin, because the (rows-1)*gap term is clamped
    to zero; for any number of panels the height is at least 40, so it is
    never negative, provided the column count is at least 1 and the cell
    height and gap are not negative. *)
Theorem empty_grid_height (columns : Z) (cellHeight cellGap : Q)
    (psr : Q * Q) (dc : RGB) :
  (1 <= columns)%Z -> 0 <= cellHeight -> 0 <= cellGap ->
  rows columns (prepared psr dc []) = 0%Z /\
  inject_Z (Z.max 0 (rows columns (prepared psr dc []) - 1)) * cellGap == 0 /\
  heightPx columns cellHeight cellGap (prepared psr dc []) == 40 /\
  forall charts : list ChartData.t,
    (0 <= rows columns (prepared psr dc charts))%Z /\
    40 <= heightPx columns cellHeight cellGap (prepared psr dc charts) /\
    0 <= heightPx columns cellHeight cellGap (prepared psr dc charts).
Proof.
  intros Hc Hh Hg.
  assert (R0 : rows columns (prepared psr dc []) = 0%Z).
  { unfold rows. simpl. unfold Qdiv. rewrite Qmult_0_l. reflexivity. }
  split; [exact R0 |].
  split.
  { rewrite R0. change (inject_Z (Z.max 0 (0 - 1))) with 0. ring. }
  split.
  { unfold heightPx, heightOfRows. rewrite R0.
    change (inject_Z (Z.max 0 (0 - 1))) with 0. change (inject_Z 0) with 0. ring. }
  intro charts.
  pose proof (rows_nonneg columns (prepared psr dc charts) Hc) as Rn.
  assert (H40 : 40 <= heightPx columns cellHeight cellGap (prepared psr dc charts)).
  { unfold heightPx, heightOfRows.
    pose proof (inject_Z_nonneg _ Rn) as A.
    assert (B : 0 <= inject_Z (Z.max 0 (rows columns (prepared psr dc charts) - 1)))
      by (apply inject_Z_nonneg; lia).
    nra. }
  split; [exact Rn | split; [exact H40 | lra]].
Qed.

(** The grid of [App] without panels is 40 pixels high. *)
Lemma empty_grid_height_witness :
  (1 <= 6)%Z /\ 0 <= 280 /\ 0 <= 20 /\
  heightPx 6 280 20 (prepared pointSizeRange0 defaultColor0 []) == 40.
Proof.
  assert (H1 : (1 <= 6)%Z) by lia.
  assert (H2 : 0 <= 280) by discriminate.
  assert (H3 : 0 <= 20) by discriminate.
  repeat (split; [assumption |]).
  exact (proj1 (proj2 (proj2 (empty_grid_height 6 280 20 pointSizeRange0 defaultColor0
                                H1 H2 H3)))).
Defined.

(** ** Decomposition of [render] and [handleMouseMove] *)

Lemma In_indexed {A : Type} (l : list A) (i : nat) (a : A) :
  In (i, a) (indexed l) -> nth_error l i = Some a.
Proof.
  unfold indexed.
  assert (G : forall s, In (i, a) (combine (seq s (length l)) l) ->
                        (s <= i)%nat /\ nth_error l (i - s) = Some a).
  { induction l as [| b l IH]; intros s H; simpl in H; [contradiction |].
    destruct H as [H | H].
    - inversion H; subst. rewrite Nat.sub_diag. split; [lia | reflexivity].
    - destruct (IH (S s) H) as [L E]. split; [lia |].
      replace (i - s)%nat with (S (i - S s)) by lia. exact E. }
  intro H. destruct (G 0%nat H) as [_ E]. now rewrite Nat.sub_0_r in E.
Qed.

Section Decomposition.

Variable columns : Z.
Variable cellHeight cellGap : Q.
Variable psr : Q * Q.
Variable dc : RGB.

(** A draw call is issued for a panel at its own index, and only when the
    panel has points. *)
Lemma render_draws (clientWidth clientHeight : Q) (prep : list Prepared.t)
    (d : DrawCall.t) :
  In d (render columns cellHeight cellGap clientWidth clientHeight prep) ->
  exists b, nth_error prep (DrawCall.index d) = Some b /\
            DrawCall.count d = Prepared.count b /\
            (0 < Prepared.count b)%nat /\
            DrawCall.scissor d = DrawCall.viewport d.
Proof.
  unfold render. intro H. apply in_flat_map in H.
  destruct H as ([i b] & Hib & Hd). simpl in Hd.
  apply In_indexed in Hib. unfold renderCell in Hd.
  match type of Hd with
  | In _ (if ?g then _ else _) => destruct g eqn:G
  end; [| contradiction].
  destruct Hd as [<- | []]. simpl.
  exists b. repeat split; try assumption.
  apply andb_true_iff in G. destruct G as [_ G]. now apply Nat.ltb_lt in G.
Qed.

(** When [handleMouseMove] shows a tooltip. *)
Lemma handleMouseMove_Some (charts : list ChartData.t) (rect : DOMRect.t)
    (event : MouseEvent.t) (tt : Tooltip.t) :
  handleMouseMove columns cellHeight cellGap psr dc charts rect event = Some tt ->
  exists chart,
    (0 <= chartIndex columns cellHeight cellGap rect event
     < Z.of_nat (length charts))%Z /\
    nth_error charts (Z.to_nat (chartIndex columns cellHeight cellGap rect event))
    = Some chart /\
    (0 <= localX columns cellGap rect event <= cellW columns cellGap rect) /\
    (0 <= localY cellHeight cellGap rect event <= cellHeight) /\
    nearbyPoints chart (prepare psr dc chart)
      (cellW columns cellGap rect) cellHeight
      (localX columns cellGap rect event) (localY cellHeight cellGap rect event)
    <> [] /\
    tt = Tooltip.mk true (MouseEvent.clientX event) (MouseEvent.clientY event)
           (map pointData
              (nearbyPoints chart (prepare psr dc chart)
                 (cellW columns cellGap rect) cellHeight
                 (localX columns cellGap rect event)
                 (localY cellHeight cellGap rect event))).
Proof.
  unfold handleMouseMove.
  fold (mouseX rect event) (mouseY rect event) (cellW columns cellGap rect).
  fold (col columns cellGap rect event) (row cellHeight cellGap rect event).
  fold (chartIndex columns cellHeight cellGap rect event).
  fold (localX columns cellGap rect event) (localY cellHeight cellGap rect event).
  set (idx := chartIndex columns cellHeight cellGap rect event).
  destruct ((0 <=? idx)%Z && (idx <? Z.of_nat (length charts))%Z) eqn:B;
    [| discriminate].
  apply andb_true_iff in B. destruct B as [B0 B1].
  apply Z.leb_le in B0. apply Z.ltb_lt in B1.
  unfold prepared. rewrite nth_error_map.
  destruct (nth_error charts (Z.to_nat idx)) as [chart |] eqn:E; [| discriminate].
  simpl.
  match goal with
  | |- (if ?g then _ else _) = _ -> _ => destruct g eqn:G
  end; [| discriminate].
  apply andb_true_iff in G. destruct G as [G G4].
  apply andb_true_iff in G. destruct G as [G G3].
  apply andb_true_iff in G. destruct G as [G1 G2].
  apply Qle_bool_iff in G1, G2, G3, G4.
  match goal with
  | |- (if (0 <? length ?l)%nat then _ else _) = _ -> _ =>
      destruct l as [| q qs] eqn:Nb
  end; [discriminate |].
  intro H. inversion H; subst tt; clear H.
  exists chart. rewrite Nb.
  repeat split; try assumption; try lia.
  discriminate.
Qed.

(** When it hides the tooltip: each of the three [setTooltip(null)]. *)
Lemma handleMouseMove_None (charts : list ChartData.t) (rect : DOMRect.t)
    (event : MouseEvent.t) :
  (chartIndex columns cellHeight cellGap rect event < 0)%Z \/
  (Z.of_nat (length charts) <= chartIndex columns cellHeight cellGap rect event)%Z \/
  localX columns cellGap rect event < 0 \/
  cellW columns cellGap rect < localX columns cellGap rect event \/
  localY cellHeight cellGap rect event < 0 \/
  cellHeight < localY cellHeight cellGap rect event \/
  (exists chart,
     nth_error charts (Z.to_nat (chartIndex columns cellHeight cellGap rect event))
     = Some chart /\
     nearbyPoints chart (prepare psr dc chart)
       (cellW columns cellGap rect) cellHeight
       (localX columns cellGap rect event) (localY cellHeight cellGap rect event)
     = []) ->
  handleMouseMove columns cellHeight cellGap psr dc charts rect event = None.
Proof.
  intro H.
  destruct (handleMouseMove columns cellHeight cellGap psr dc charts rect event)
    as [tt |] eqn:E; [exfalso | reflexivity].
  apply handleMouseMove_Some in E.
  destruct E as (chart & [I0 I1] & Hn & [X0 X1] & [Y0 Y1] & Nb & _).
  destruct H as [H | [H | [H | [H | [H | [H | (c' & Hc & Hnb)]]]]]];
    try lia; try lra.
  rewrite Hn in Hc. inversion Hc; subst c'. contradiction.
Qed.

End Decomposition.

(** ** Panels without points *)

(** C7.  A panel with zero points keeps its place in the grid (it is panel
    [i] of [prepared], with count 0, and the rows are counted from the number
    of panels), the renderer issues no draw call for it, and hit-testing
    over its cell never shows a tooltip. *)
Theorem empty_panel_cell_no_draw_no_hit (columns : Z) (cellHeight cellGap : Q)
    (psr : Q * Q) (dc : RGB) (charts : list ChartData.t) (i : nat)
    (c : ChartData.t) :
  nth_error charts i = Some c ->
  ChartData.points c = [] ->
  (nth_error (prepared psr dc charts) i = Some (prepare psr dc c) /\
   Prepared.count (prepare psr dc c) = 0%nat /\
   length (prepared psr dc charts) = length charts /\
   rows columns (prepared psr dc charts)
   = Qceiling (inject_Z (Z.of_nat (length charts)) / inject_Z columns)) /\
  (forall (clientWidth clientHeight : Q) (d : DrawCall.t),
     In d (render columns cellHeight cellGap clientWidth clientHeight
             (prepared psr dc charts)) ->
     DrawCall.index d <> i) /\
  (forall (rect : DOMRect.t) (event : MouseEvent.t),
     chartIndex columns cellHeight cellGap rect event = Z.of_nat i ->
     handleMouseMove columns cellHeight cellGap psr dc charts rect event = None).
Proof.
  intros Hi He.
  assert (Hp : nth_error (prepared psr dc charts) i = Some (prepare psr dc c)).
  { unfold prepared. rewrite nth_error_map, Hi. reflexivity. }
  assert (Hc : Prepared.count (prepare psr dc c) = 0%nat).
  { rewrite (prepare_empty psr dc c He). reflexivity. }
  split; [| split].
  - repeat split; try assumption.
    + apply length_prepared.
    + unfold rows. now rewrite length_prepared.
  - intros cw ch d Hd E.
    destruct (render_draws _ _ _ _ _ _ d Hd) as (b & Hb & _ & Pos & _).
    rewrite E, Hp in Hb. inversion Hb; subst b. lia.
  - intros rect event E.
    apply handleMouseMove_None. do 6 right.
    exists c. rewrite E, Nat2Z.id. split; [assumption |].
    unfold nearbyPoints. rewrite He. reflexivity.
Qed.

(** Panel E has no points; as second panel of the grid of [App] its cell
    covers the pointer position (300, 100). *)
Lemma empty_panel_cell_no_draw_no_hit_witness :
  nth_error [chartA; chartE] 1 = Some chartE /\
  ChartData.points chartE = [] /\
  handleMouseMove 6 280 20 pointSizeRange0 defaultColor0 [chartA; chartE]
    rect0 (MouseEvent.mk 300 100) = None.
Proof.
  assert (H1 : nth_error [chartA; chartE] 1 = Some chartE) by reflexivity.
  assert (H2 : ChartData.points chartE = []) by reflexivity.
  split; [exact H1 | split; [exact H2 |]].
  apply (proj2 (proj2 (empty_panel_cell_no_draw_no_hit 6 280 20
                         pointSizeRange0 defaultColor0 [chartA; chartE] 1 chartE
                         H1 H2))).
  vm_compute. reflexivity.
Defined.

(** ** Side of a tooltip entry *)

Lemma isUpTrade_true (p : Point.t) :
  isUpTrade p = true <->
  exists r g b, Point.color p = Some (r, g, b) /\ g < r.
Proof.
  unfold isUpTrade. destruct (Point.color p) as [[[r g] b] |]; split.
  - intro H. apply Qltb_true in H. now exists r, g, b.
  - intros (r' & g' & b' & E & L). inversion E; subst. now apply Qltb_true.
  - discriminate.
  - intros (r' & g' & b' & E & _). discriminate.
Qed.

Lemma isUpTrade_false (p : Point.t) :
  isUpTrade p = false <->
  Point.color p = None \/ exists r g b, Point.color p = Some (r, g, b) /\ r <= g.
Proof.
  unfold isUpTrade. destruct (Point.color p) as [[[r g] b] |]; split.
  - intro H. apply Qltb_false in H. right. now exists r, g, b.
  - intros [E | (r' & g' & b' & E & L)]; [discriminate |].
    inversion E; subst. now apply Qltb_false.
  - now left.
  - reflexivity.
Qed.

Lemma pointData_side (p : Point.t) :
  (TooltipPoint.side (pointData p) = "Up"%string <->
   exists r g b, Point.color p = Some (r, g, b) /\ g < r) /\
  (TooltipPoint.side (pointData p) = "Down"%string <->
   Point.color p = None \/ exists r g b, Point.color p = Some (r, g, b) /\ r <= g).
Proof.
  rewrite <- isUpTrade_true, <- isUpTrade_false. unfold pointData. simpl.
  destruct (isUpTrade p); repeat split; intro; try reflexivity; discriminate.
Qed.

(** C9.  Whenever a tooltip is shown, its entries are the entries of points
    of the panel under the pointer, in order, and the side of an entry is
    "Up" exactly when its point carries a color whose red component is
    strictly greater than its green component; for a point with no color,
    or with red less than or equal to green, it is "Down". *)
Theorem tooltip_side (columns : Z) (cellHeight cellGap : Q)
    (psr : Q * Q) (dc : RGB) (charts : list ChartData.t) (rect : DOMRect.t)
    (event : MouseEvent.t) (tt : Tooltip.t) :
  handleMouseMove columns cellHeight cellGap psr dc charts rect event = Some tt ->
  exists chart pts,
    nth_error charts (Z.to_nat (chartIndex columns cellHeight cellGap rect event))
    = Some chart /\
    incl pts (ChartData.points chart) /\
    Tooltip.data tt = map pointData pts /\
    Forall2 (fun p e =>
               (TooltipPoint.side e = "Up"%string <->
                exists r g b, Point.color p = Some (r, g, b) /\ g < r) /\
               (TooltipPoint.side e = "Down"%string <->
                Point.color p = None \/
                exists r g b, Point.color p = Some (r, g, b) /\ r <= g))
            pts (Tooltip.data tt).
Proof.
  intro H. apply handleMouseMove_Some in H.
  destruct H as (chart & _ & Hn & _ & _ & _ & ->).
  eexists chart, _. split; [exact Hn |]. split; [| split; [reflexivity |]].
  - unfold nearbyPoints. intros p Hp. apply filter_In in Hp. apply Hp.
  - simpl. generalize (nearbyPoints chart (prepare psr dc chart)
                         (cellW columns cellGap rect) cellHeight
                         (localX columns cellGap rect event)
                         (localY cellHeight cellGap rect event)).
    intro l. induction l as [| p l IH]; simpl; constructor.
    + apply pointData_side.
    + exact IH.
Qed.

(** Hovering the middle of panel M's cell shows its up trade. *)
Lemma tooltip_side_witness :
  handleMouseMove 6 280 20 pointSizeRange0 defaultColor0 [chartM] rect0
    (MouseEvent.mk 100 140)
  = Some (Tooltip.mk true 100 140 [TooltipPoint.mk 0.15 5 3 "Up"]) /\
  exists chart pts,
    nth_error [chartM]
      (Z.to_nat (chartIndex 6 280 20 rect0 (MouseEvent.mk 100 140)))
    = Some chart /\
    incl pts (ChartData.points chart) /\
    [TooltipPoint.mk 0.15 5 3 "Up"] = map pointData pts /\
    Forall2 (fun p e =>
               (TooltipPoint.side e = "Up"%string <->
                exists r g b, Point.color p = Some (r, g, b) /\ g < r) /\
               (TooltipPoint.side e = "Down"%string <->
                Point.color p = None \/
                exists r g b, Point.color p = Some (r, g, b) /\ r <= g))
            pts [TooltipPoint.mk 0.15 5 3 "Up"].
Proof.
  assert (H : handleMouseMove 6 280 20 pointSizeRange0 defaultColor0 [chartM] rect0
                (MouseEvent.mk 100 140)
              = Some (Tooltip.mk true 100 140 [TooltipPoint.mk 0.15 5 3 "Up"]))
    by (vm_compute; reflexivity).
  split; [exact H |].
  exact (tooltip_side 6 280 20 pointSizeRange0 defaultColor0 [chartM] rect0
           (MouseEvent.mk 100 140) _ H).
Defined.

(** ** The cell under the pointer *)

Lemma floor_cell (m s : Q) :
  0 < s ->
  inject_Z (Qfloor (m / s)) * s <= m < (inject_Z (Qfloor (m / s)) + 1) * s.
Proof.
  intro Hs. set (q := m / s).
  assert (E : q * s == m) by (unfold q; field; lra).
  pose proof (Qfloor_le q) as L. pose proof (Qlt_floor q) as U.
  rewrite inject_Z_plus in U. change (inject_Z 1) with 1 in U.
  split; nra.
Qed.

Lemma cellWidth_total (columns : Z) (cellGap width : Q) :
  (1 <= columns)%Z ->
  width == inject_Z columns * cellWidth columns cellGap width
           + (inject_Z columns - 1) * cellGap.
Proof.
  intro H. unfold cellWidth.
  assert (0 < inject_Z columns).
  { replace 0 with (inject_Z 0) by reflexivity. rewrite <- Zlt_Qlt. lia. }
  field. lra.
Qed.

Lemma handleMouseMove_in_cell (columns : Z) (cellHeight cellGap : Q)
    (psr : Q * Q) (dc : RGB) (charts : list ChartData.t) (rect : DOMRect.t)
    (event : MouseEvent.t) (i : nat) (chart : ChartData.t) :
  chartIndex columns cellHeight cellGap rect event = Z.of_nat i ->
  nth_error charts i = Some chart ->
  0 <= localX columns cellGap rect event <= cellW columns cellGap rect ->
  0 <= localY cellHeight cellGap rect event <= cellHeight ->
  handleMouseMove columns cellHeight cellGap psr dc charts rect event
  = match nearbyPoints chart (prepare psr dc chart)
            (cellW columns cellGap rect) cellHeight
            (localX columns cellGap rect event)
            (localY cellHeight cellGap rect event) with
    | [] => None
    | q :: qs =>
        Some (Tooltip.mk true (MouseEvent.clientX event) (MouseEvent.clientY event)
                (map pointData (q :: qs)))
    end.
Proof.
  intros Ei Hn [X0 X1] [Y0 Y1].
  assert (Hi : (i < length charts)%nat) by (apply nth_error_Some; congruence).
  unfold handleMouseMove.
  fold (mouseX rect event) (mouseY rect event) (cellW columns cellGap rect).
  fold (col columns cellGap rect event) (row cellHeight cellGap rect event).
  fold (chartIndex columns cellHeight cellGap rect event).
  fold (localX columns cellGap rect event) (localY cellHeight cellGap rect event).
  rewrite Ei, Nat2Z.id.
  replace ((0 <=? Z.of_nat i)%Z && (Z.of_nat i <? Z.of_nat (length charts))%Z)
    with true
    by (symmetry; apply andb_true_iff; split; [apply Z.leb_le | apply Z.ltb_lt]; lia).
  unfold prepared. rewrite nth_error_map, Hn. simpl option_map. cbv iota.
  apply Qle_bool_iff in X0, X1, Y0, Y1. rewrite X0, X1, Y0, Y1. simpl andb.
  destruct (nearbyPoints chart (prepare psr dc chart) (cellW columns cellGap rect)
              cellHeight (localX columns cellGap rect event)
              (localY cellHeight cellGap rect event)); reflexivity.
Qed.

(** C8, counterexample.  A pointer 120 pixels to the left of the canvas of
    the grid of [App] is outside every cell; it falls in column -1 of row 1,
    is resolved to panel 1 * 6 - 1 = 5, the last panel of row 0, and that
    panel's tooltip is shown. *)
Lemma pointer_left_of_canvas :
  mouseX rect0 (MouseEvent.mk (-120) 440) < 0 /\
  col 6 20 rect0 (MouseEvent.mk (-120) 440) = (-1)%Z /\
  row 280 20 rect0 (MouseEvent.mk (-120) 440) = 1%Z /\
  chartIndex 6 280 20 rect0 (MouseEvent.mk (-120) 440) = 5%Z /\
  handleMouseMove 6 280 20 pointSizeRange0 defaultColor0
    [chartA; chartA; chartA; chartA; chartA; chartM] rect0
    (MouseEvent.mk (-120) 440)
  = Some (Tooltip.mk true (-120) 440 [TooltipPoint.mk 0.15 5 3 "Up"]).
Proof.
  repeat split; vm_compute; reflexivity.
Qed.

(** C8, as amended.  For every pointer position over the canvas
    (0 <= mouseX < canvas width, 0 <= mouseY; grid with at least one column,
    non-negative gap, cells of positive width and height), the cell is
    found by dividing by the (cellW+gap, cellH+gap) spacing, the column
    lies within the grid, and cell (col, row) is panel row*cols + col (cell
    col=2, row=1 of a 6-column grid with cellW=200, cellH=280, gap=20 is
    panel 8).  A pointer beyond the panel count or in the gap beside or
    below a cell shows no tooltip; inside the cell the tooltip is the one of
    the points near the cursor of the panel at that index, and so a tooltip
    is only shown for a pointer inside the cell of an existing panel. *)
Theorem hit_test_cell (columns : Z) (cellHeight cellGap : Q)
    (psr : Q * Q) (dc : RGB) (charts : list ChartData.t) (rect : DOMRect.t)
    (event : MouseEvent.t) :
  (1 <= columns)%Z -> 0 <= cellGap -> 0 < cellHeight ->
  0 < cellW columns cellGap rect ->
  0 <= mouseX rect event < DOMRect.width rect ->
  0 <= mouseY rect event ->
  (col columns cellGap rect event
   = Qfloor (mouseX rect event / (cellW columns cellGap rect + cellGap)) /\
   row cellHeight cellGap rect event
   = Qfloor (mouseY rect event / (cellHeight + cellGap)) /\
   inject_Z (col columns cellGap rect event) * (cellW columns cellGap rect + cellGap)
   <= mouseX rect event
   < (inject_Z (col columns cellGap rect event) + 1)
     * (cellW columns cellGap rect + cellGap) /\
   inject_Z (row cellHeight cellGap rect event) * (cellHeight + cellGap)
   <= mouseY rect event
   < (inject_Z (row cellHeight cellGap rect event) + 1) * (cellHeight + cellGap) /\
   (0 <= col columns cellGap rect event < columns)%Z /\
   (0 <= row cellHeight cellGap rect event)%Z) /\
  (chartIndex columns cellHeight cellGap rect event
   = (row cellHeight cellGap rect event * columns
      + col columns cellGap rect event)%Z /\
   (0 <= chartIndex columns cellHeight cellGap rect event)%Z /\
   cellW 6 20 rect0 == 200 /\
   col 6 20 rect0 (MouseEvent.mk 500 400) = 2%Z /\
   row 280 20 rect0 (MouseEvent.mk 500 400) = 1%Z /\
   chartIndex 6 280 20 rect0 (MouseEvent.mk 500 400) = (1 * 6 + 2)%Z /\
   chartIndexOf 6 2 1 = 8%Z) /\
  ((Z.of_nat (length charts) <= chartIndex columns cellHeight cellGap rect event)%Z ->
   handleMouseMove columns cellHeight cellGap psr dc charts rect event = None) /\
  (cellW columns cellGap rect < localX columns cellGap rect event \/
   cellHeight < localY cellHeight cellGap rect event ->
   handleMouseMove columns cellHeight cellGap psr dc charts rect event = None) /\
  (forall chart : ChartData.t,
     nth_error charts
       (Z.to_nat (Qfloor (mouseY rect event / (cellHeight + cellGap)) * columns
                  + Qfloor (mouseX rect event / (cellW columns cellGap rect + cellGap))))
     = Some chart ->
     mouseX rect event
     - inject_Z (Qfloor (mouseX rect event / (cellW columns cellGap rect + cellGap)))
       * (cellW columns cellGap rect + cellGap)
     <= cellW columns cellGap rect ->
     mouseY rect event
     - inject_Z (Qfloor (mouseY rect event / (cellHeight + cellGap)))
       * (cellHeight + cellGap)
     <= cellHeight ->
     handleMouseMove columns cellHeight cellGap psr dc charts rect event
     = match nearbyPoints chart (prepare psr dc chart)
               (cellW columns cellGap rect) cellHeight
               (localX columns cellGap rect event)
               (localY cellHeight cellGap rect event) with
       | [] => None
       | q :: qs =>
           Some (Tooltip.mk true (MouseEvent.clientX event) (MouseEvent.clientY event)
                   (map pointData (q :: qs)))
       end) /\
  (forall tt : Tooltip.t,
     handleMouseMove columns cellHeight cellGap psr dc charts rect event = Some tt ->
     (0 <= chartIndex columns cellHeight cellGap rect event
      < Z.of_nat (length charts))%Z /\
     inject_Z (col columns cellGap rect event) * (cellW columns cellGap rect + cellGap)
     <= mouseX rect event
     <= inject_Z (col columns cellGap rect event)
        * (cellW columns cellGap rect + cellGap) + cellW columns cellGap rect /\
     inject_Z (row cellHeight cellGap rect event) * (cellHeight + cellGap)
     <= mouseY rect event
     <= inject_Z (row cellHeight cellGap rect event) * (cellHeight + cellGap)
        + cellHeight).
Proof.
  intros Hc Hg Hh Hw [Hx0 Hx1] Hy0.
  assert (Sx : 0 < cellW columns cellGap rect + cellGap) by lra.
  assert (Sy : 0 < cellHeight + cellGap) by lra.
  pose proof (floor_cell (mouseX rect event) _ Sx) as Fx.
  pose proof (floor_cell (mouseY rect event) _ Sy) as Fy.
  fold (cellCol cellGap (cellW columns cellGap rect) (mouseX rect event)) in Fx.
  fold (col columns cellGap rect event) in Fx.
  fold (cellRow cellHeight cellGap (mouseY rect event)) in Fy.
  fold (row cellHeight cellGap rect event) in Fy.
  pose proof (cellWidth_total columns cellGap (DOMRect.width rect) Hc) as Wt.
  fold (cellW columns cellGap rect) in Wt.
  assert (Cpos : 1 <= inject_Z columns).
  { replace 1 with (inject_Z 1) by reflexivity. rewrite <- Zle_Qle. lia. }
  assert (C0 : (0 <= col columns cellGap rect event)%Z).
  { assert (A : -1 < inject_Z (col columns cellGap rect event)) by nra.
    change (-1) with (inject_Z (-1)) in A. rewrite <- Zlt_Qlt in A. lia. }
  assert (C1 : (col columns cellGap rect event < columns)%Z).
  { rewrite Zlt_Qlt. nra. }
  assert (R0 : (0 <= row cellHeight cellGap rect event)%Z).
  { assert (A : -1 < inject_Z (row cellHeight cellGap rect event)) by nra.
    change (-1) with (inject_Z (-1)) in A. rewrite <- Zlt_Qlt in A. lia. }
  assert (I0 : (0 <= chartIndex columns cellHeight cellGap rect event)%Z).
  { unfold chartIndex, chartIndexOf. nia. }
  split; [| split; [| split; [| split; [| split]]]].
  - split; [reflexivity | split; [reflexivity |]].
    split; [exact Fx | split; [exact Fy |]].
    split; [split |]; assumption.
  - split; [reflexivity |]. split; [exact I0 |].
    repeat split; vm_compute; reflexivity.
  - intro H. apply handleMouseMove_None. right. left. exact H.
  - intros [H | H]; apply handleMouseMove_None.
    + do 3 right. left. exact H.
    + do 5 right. left. exact H.
  - intros chart Hn Lx Ly.
    fold (cellCol cellGap (cellW columns cellGap rect) (mouseX rect event)) in Hn, Lx.
    fold (col columns cellGap rect event) in Hn, Lx.
    fold (cellRow cellHeight cellGap (mouseY rect event)) in Hn, Ly.
    fold (row cellHeight cellGap rect event) in Hn, Ly.
    fold (chartIndexOf columns (col columns cellGap rect event)
            (row cellHeight cellGap rect event)) in Hn.
    fold (chartIndex columns cellHeight cellGap rect event) in Hn.
    fold (localX columns cellGap rect event) in Lx.
    fold (localY cellHeight cellGap rect event) in Ly.
    apply (handleMouseMove_in_cell columns cellHeight cellGap psr dc charts rect event
             (Z.to_nat (chartIndex columns cellHeight cellGap rect event)) chart).
    + rewrite Z2Nat.id by exact I0. reflexivity.
    + exact Hn.
    + split; [unfold localX; lra | exact Lx].
    + split; [unfold localY; lra | exact Ly].
  - intros tt H. apply handleMouseMove_Some in H.
    destruct H as (chart & I & _ & [X0 X1] & [Y0 Y1] & _).
    unfold localX in X0, X1. unfold localY in Y0, Y1.
    split; [exact I |]. split; split; lra.
Qed.

(** The pointer at (540, 440) over the grid of [App] is in cell col=2,
    row=1; with nine panels the tooltip of panel 8, panel M, is shown. *)
Lemma hit_test_cell_witness :
  ((1 <= 6)%Z /\ 0 <= 20 /\ 0 < 280 /\ 0 < cellW 6 20 rect0 /\
   0 <= mouseX rect0 (MouseEvent.mk 540 440) < DOMRect.width rect0 /\
   0 <= mouseY rect0 (MouseEvent.mk 540 440)) /\
  nth_error charts9 8 = Some chartM /\
  handleMouseMove 6 280 20 pointSizeRange0 defaultColor0 charts9 rect0
    (MouseEvent.mk 540 440)
  = Some (Tooltip.mk true 540 440 [TooltipPoint.mk 0.15 5 3 "Up"]).
Proof.
  assert (H1 : (1 <= 6)%Z) by lia.
  assert (H2 : 0 <= 20) by discriminate.
  assert (H3 : 0 < 280) by reflexivity.
  assert (H4 : 0 < cellW 6 20 rect0) by (vm_compute; reflexivity).
  assert (H5 : 0 <= mouseX rect0 (MouseEvent.mk 540 440) < DOMRect.width rect0).
  { split; vm_compute; [discriminate | reflexivity]. }
  assert (H6 : 0 <= mouseY rect0 (MouseEvent.mk 540 440)).
  { vm_compute. discriminate. }
  pose proof (hit_test_cell 6 280 20 pointSizeRange0 defaultColor0 charts9 rect0
                (MouseEvent.mk 540 440) H1 H2 H3 H4 H5 H6) as T.
  split; [repeat split; try assumption; apply H5 |].
  split; [reflexivity |].
  destruct T as (_ & _ & _ & _ & L & _).
  assert (N : nth_error charts9
                (Z.to_nat (Qfloor (mouseY rect0 (MouseEvent.mk 540 440) / (280 + 20)) * 6
                           + Qfloor (mouseX rect0 (MouseEvent.mk 540 440)
                                     / (cellW 6 20 rect0 + 20))))
              = Some chartM) by (vm_compute; reflexivity).
  assert (X : mouseX rect0 (MouseEvent.mk 540 440)
              - inject_Z (Qfloor (mouseX rect0 (MouseEvent.mk 540 440)
                                  / (cellW 6 20 rect0 + 20)))
                * (cellW 6 20 rect0 + 20)
              <= cellW 6 20 rect0) by (vm_compute; discriminate).
  assert (Y : mouseY rect0 (MouseEvent.mk 540 440)
              - inject_Z (Qfloor (mouseY rect0 (MouseEvent.mk 540 440) / (280 + 20)))
                * (280 + 20)
              <= 280) by (vm_compute; discriminate).
  rewrite (L chartM N X Y).
  vm_compute. reflexivity.
Defined.

(** ** Forward-then-inverse round trip *)

(** C2, evaluated on panel A alone in the grid of [App] (canvas 1300 by
    320).  The point (t=0, p=0.10) lies within the padded bounds and is
    drawn by the panel's one draw call at pixel (400/11, 560/11), about
    (36.4, 50.9).  Hit-testing at that exact pixel shows no tooltip: the
    cursor is inverted with the stored raw bounds to time 5/11, which is
    farther from 0 than the tolerance 0.2.  The miss is on the time axis,
    so it is the same with the pixel mirrored vertically inside the cell. *)
Theorem drawn_point_not_hit :
  (n_xmin (normOf chartA) <= Point.x pA0 <= n_xmax (normOf chartA) /\
   n_ymin (normOf chartA) <= Point.y pA0 <= n_ymax (normOf chartA)) /\
  exists d : DrawCall.t,
    render 6 280 20 1300 320 (prepared pointSizeRange0 defaultColor0 [chartA]) = [d] /\
    DrawCall.index d = 0%nat /\
    exists px py : Q,
      pixelOf (cssHeightOf 6 280 20 320 (prepared pointSizeRange0 defaultColor0 [chartA]))
              d (posX (normOf chartA) pA0) (posY (normOf chartA) pA0)
      = (px, py) /\
      px == 400 # 11 /\ py == 560 # 11 /\
      handleMouseMove 6 280 20 pointSizeRange0 defaultColor0 [chartA] rect0
        (MouseEvent.mk px py) = None /\
      cursorTime (prepare pointSizeRange0 defaultColor0 chartA) (cellW 6 20 rect0) px
      == 5 # 11 /\
      timeThreshold (prepare pointSizeRange0 defaultColor0 chartA) == 0.2 /\
      timeThreshold (prepare pointSizeRange0 defaultColor0 chartA)
      <= Qabs (Point.x pA0
               - cursorTime (prepare pointSizeRange0 defaultColor0 chartA)
                   (cellW 6 20 rect0) px) /\
      handleMouseMove 6 280 20 pointSizeRange0 defaultColor0 [chartA] rect0
        (MouseEvent.mk px (280 - py)) = None.
Proof.
  split.
  { repeat split; vm_compute; discriminate. }
  eexists. split; [vm_compute; reflexivity |].
  split; [reflexivity |].
  eexists. eexists. split; [vm_compute; reflexivity |].
  repeat split; vm_compute; try reflexivity; discriminate.
Qed.

(** * Further properties of the code *)

(** ** Placement inside the padded range *)

(** The unclamped unit coordinate of a value between the scanned bounds. *)
Lemma unit_coordinate_bounds (v x0 x1 d : Q) :
  0 < d -> 0 <= x1 - x0 <= d -> x0 <= v <= x1 ->
  (1 # 22) <= (v - (x0 - d * padding)) / (x1 + d * padding - (x0 - d * padding))
           <= (21 # 22).
Proof.
  intros Hd [H0 H1] [Hv0 Hv1]. unfold padding.
  set (den := x1 + d * 0.05 - (x0 - d * 0.05)).
  assert (Dpos : 0 < den) by (unfold den; lra).
  set (u := (v - (x0 - d * 0.05)) / den).
  assert (E : u * den == v - (x0 - d * 0.05)) by (unfold u; field; lra).
  unfold den in *. split; nra.
Qed.

Lemma orOne_span (lo hi : Q) : lo <= hi -> 0 < orOne (hi - lo) /\ 0 <= hi - lo <= orOne (hi - lo).
Proof.
  intro H. destruct (orOne_cases (hi - lo)) as [[Z ->] | [N ->]]; lra.
Qed.

(** The unit coordinates of a point of the panel, before and after the clamp. *)
Lemma unit_coordinates (c : ChartData.t) (p : Point.t) :
  In p (ChartData.points c) ->
  (0 < n_xmax (normOf c) - n_xmin (normOf c) /\
   0 < n_ymax (normOf c) - n_ymin (normOf c)) /\
  (ux (normOf c) p * (n_xmax (normOf c) - n_xmin (normOf c))
   == Point.x p - n_xmin (normOf c) /\
   uy (normOf c) p * (n_ymax (normOf c) - n_ymin (normOf c))
   == Point.y p - n_ymin (normOf c)) /\
  (ux (normOf c) p
   == (Point.x p - n_xmin (normOf c)) / (n_xmax (normOf c) - n_xmin (normOf c)) /\
   uy (normOf c) p
   == (Point.y p - n_ymin (normOf c)) / (n_ymax (normOf c) - n_ymin (normOf c))) /\
  ((1 # 22) <= ux (normOf c) p <= (21 # 22) /\
   (1 # 22) <= uy (normOf c) p <= (21 # 22)).
Proof.
  intro Hp.
  assert (N : ChartData.points c <> []) by (intro E; rewrite E in Hp; contradiction).
  destruct (normOf_strict c N) as [Sx' Sy'].
  destruct (normOf_nonempty c N)
    as (x0 & x1 & y0 & y1 & Hx0 & Hx1 & Hy0 & Hy1
        & _ & _ & Exlo & Exhi & Eylo & Eyhi & _).
  pose proof (isMin_le_isMax _ _ _ _ Hx0 Hx1) as Lx.
  pose proof (isMin_le_isMax _ _ _ _ Hy0 Hy1) as Ly.
  destruct (orOne_span x0 x1 Lx) as [Dx Sx].
  destruct (orOne_span y0 y1 Ly) as [Dy Sy].
  assert (Bx : x0 <= Point.x p <= x1)
    by (split; [apply (proj1 Hx0) | apply (proj1 Hx1)]; assumption).
  assert (By : y0 <= Point.y p <= y1)
    by (split; [apply (proj1 Hy0) | apply (proj1 Hy1)]; assumption).
  pose proof (unit_coordinate_bounds _ _ _ _ Dx Sx Bx) as Ux.
  pose proof (unit_coordinate_bounds _ _ _ _ Dy Sy By) as Uy.
  rewrite <- Exlo, <- Exhi in Ux. rewrite <- Eylo, <- Eyhi in Uy.
  assert (Cx : ux (normOf c) p
               == (Point.x p - n_xmin (normOf c)) / (n_xmax (normOf c) - n_xmin (normOf c))).
  { unfold ux. apply clamp01_id. lra. }
  assert (Cy : uy (normOf c) p
               == (Point.y p - n_ymin (normOf c)) / (n_ymax (normOf c) - n_ymin (normOf c))).
  { unfold uy. apply clamp01_id. lra. }
  split; [split; lra |].
  split; [split; [rewrite Cx | rewrite Cy]; field; lra |].
  split; [split; assumption |].
  rewrite <- Cx in Ux. rewrite <- Cy in Uy. split; assumption.
Qed.




(** X2.  Placement preserves order within a panel: a later point is drawn
    strictly further right, a higher-priced point gets a strictly smaller
    clip-space Y (the flip), and equal values are drawn at equal
    coordinates. *)
Theorem placement_monotone (c : ChartData.t) (p q : Point.t) :
  In p (ChartData.points c) -> In q (ChartData.points c) ->
  (Point.x p < Point.x q -> posX (normOf c) p < posX (normOf c) q) /\
  (Point.x p == Point.x q -> posX (normOf c) p == posX (normOf c) q) /\
  (Point.y p < Point.y q -> posY (normOf c) q < posY (normOf c) p) /\
  (Point.y p == Point.y q -> posY (normOf c) p == posY (normOf c) q).
Proof.
  intros Hp Hq.
  destruct (unit_coordinates c p Hp) as ([Dx Dy] & [Px Py] & _).
  destruct (unit_coordinates c q Hq) as (_ & [Qx Qy] & _).
  unfold posX, posY, paddedUx, paddedUy.
  repeat split; intro H; nra.
Qed.

Lemma placement_monotone_witness :
  In pA0 (ChartData.points chartA) /\ In pA1 (ChartData.points chartA) /\
  Point.x pA0 < Point.x pA1 /\
  posX (normOf chartA) pA0 < posX (normOf chartA) pA1.
Proof.
  assert (H0 : In pA0 (ChartData.points chartA)) by (left; reflexivity).
  assert (H1 : In pA1 (ChartData.points chartA)) by (right; left; reflexivity).
  assert (L : Point.x pA0 < Point.x pA1) by reflexivity.
  repeat (split; [assumption |]).
  exact (proj1 (placement_monotone chartA pA0 pA1 H0 H1) L).
Defined.

(** ** Point sizes *)

Lemma normOf_sizes (c : ChartData.t) :
  ChartData.points c <> [] ->
  exists s0 s1,
    isMin sizeOrDefault (ChartData.points c) s0 /\
    isMax sizeOrDefault (ChartData.points c) s1 /\
    n_smin (normOf c) = s0 /\ n_ds (normOf c) = orOne (s1 - s0).
Proof.
  intro N.
  destruct (findRanges_finite _ N)
    as (x0 & x1 & y0 & y1 & s0 & s1 & E & _ & _ & _ & _ & Hs0 & Hs1).
  exists s0, s1. unfold normOf. rewrite E. repeat split; try apply Hs0; apply Hs1.
Qed.

(** The fraction [us] of a point of the panel. *)
Lemma size_fraction (c : ChartData.t) (p : Point.t) :
  In p (ChartData.points c) ->
  exists s0 s1,
    isMin sizeOrDefault (ChartData.points c) s0 /\
    isMax sizeOrDefault (ChartData.points c) s1 /\
    0 < n_ds (normOf c) /\ s1 - s0 <= n_ds (normOf c) /\
    (s0 < s1 -> n_ds (normOf c) == s1 - s0) /\
    (sizeOrDefault p - n_smin (normOf c)) / n_ds (normOf c) * n_ds (normOf c)
    == sizeOrDefault p - s0.
Proof.
  intro Hp.
  assert (N : ChartData.points c <> []) by (intro E; rewrite E in Hp; contradiction).
  destruct (normOf_sizes c N) as (s0 & s1 & Hs0 & Hs1 & Es & Ed).
  pose proof (isMin_le_isMax _ _ _ _ Hs0 Hs1) as L.
  destruct (orOne_span s0 s1 L) as [D S].
  exists s0, s1. rewrite Es, Ed.
  repeat split; try apply Hs0; try apply Hs1; try assumption; try lra.
  - intro Lt. destruct (orOne_cases (s1 - s0)) as [[Z _] | [_ E]]; [lra |].
    rewrite E. reflexivity.
  - field. lra.
Qed.

Lemma fraction_bounds (u d n : Q) :
  0 < d -> u * d == n -> 0 <= n <= d -> 0 <= u <= 1.
Proof.
  intros Hd E [H0 H1]. split.
  - destruct (Qlt_le_dec u 0) as [L | L]; [exfalso; nra | exact L].
  - destruct (Qlt_le_dec 1 u) as [L | L]; [exfalso; nra | exact L].
Qed.

Lemma fraction_le (u v d n m : Q) :
  0 < d -> u * d == n -> v * d == m -> n <= m -> u <= v.
Proof.
  intros Hd E F L.
  destruct (Qlt_le_dec v u) as [C | C]; [exfalso; nra | exact C].
Qed.

Lemma fraction_eq (u d n k : Q) :
  0 < d -> u * d == n -> n == k * d -> u == k.
Proof.
  intros Hd E F.
  assert (Z : (u - k) * d == 0) by (ring_simplify; lra).
  destruct (Qmult_integral _ _ Z); lra.
Qed.

(** X4.  With a size range given low to high, every point of a panel gets a
    size within the range, larger magnitudes never get smaller sizes, a
    point of the least magnitude gets the low end (so do all points when
    all magnitudes are equal), and a point of the greatest magnitude gets
    the high end when the magnitudes differ; a missing magnitude counts
    as 1. *)
Theorem point_size_mapping (psr : Q * Q) (c : ChartData.t) (p : Point.t) :
  In p (ChartData.points c) ->
  fst psr <= snd psr ->
  fst psr <= sizeOf psr (normOf c) p <= snd psr /\
  (forall q, In q (ChartData.points c) -> sizeOrDefault p <= sizeOrDefault q ->
             sizeOf psr (normOf c) p <= sizeOf psr (normOf c) q) /\
  ((forall q, In q (ChartData.points c) -> sizeOrDefault p <= sizeOrDefault q) ->
   sizeOf psr (normOf c) p == fst psr) /\
  ((forall q, In q (ChartData.points c) -> sizeOrDefault q <= sizeOrDefault p) ->
   (exists q, In q (ChartData.points c) /\ sizeOrDefault q < sizeOrDefault p) ->
   sizeOf psr (normOf c) p == snd psr) /\
  (Point.size p = None -> sizeOrDefault p = 1).
Proof.
  intros Hp Hr.
  destruct (size_fraction c p Hp) as (s0 & s1 & Hs0 & Hs1 & D & S & Nd & E).
  pose proof (proj1 Hs0 p Hp) as P0. pose proof (proj1 Hs1 p Hp) as P1.
  unfold sizeOf. cbv zeta.
  set (us := (sizeOrDefault p - n_smin (normOf c)) / n_ds (normOf c)) in *.
  assert (U01 : 0 <= us <= 1).
  { apply (fraction_bounds us (n_ds (normOf c)) (sizeOrDefault p - s0)); try assumption.
    lra. }
  split; [split; nra |].
  split.
  { intros q Hq Le.
    destruct (size_fraction c q Hq) as (t0 & t1 & Ht0 & Ht1 & _ & _ & _ & E').
    assert (T : t0 == s0).
    { destruct Hs0 as [A0 (a & Ia & Va)], Ht0 as [B0 (b & Ib & Vb)].
      pose proof (A0 b Ib) as H1. pose proof (B0 a Ia) as H2.
      rewrite Va in H1 |- *. rewrite Vb in H2 |- *. lra. }
    set (uq := (sizeOrDefault q - n_smin (normOf c)) / n_ds (normOf c)) in *.
    assert (U : us <= uq).
    { apply (fraction_le us uq (n_ds (normOf c)) (sizeOrDefault p - s0)
               (sizeOrDefault q - t0)); try assumption. lra. }
    nra. }
  split.
  { intro Least. destruct Hs0 as [_ (a & Ia & Va)].
    pose proof (Least a Ia) as La. rewrite <- Va in La.
    assert (U : us == 0).
    { apply (fraction_eq us (n_ds (normOf c)) (sizeOrDefault p - s0)); try assumption.
      lra. }
    rewrite U. ring. }
  split.
  { intros Greatest (q & Hq & Lt). destruct Hs1 as [_ (a & Ia & Va)].
    pose proof (Greatest a Ia) as Ga. rewrite <- Va in Ga.
    pose proof (proj1 Hs0 q Hq) as Q0.
    assert (Ds : n_ds (normOf c) == s1 - s0) by (apply Nd; lra).
    assert (U : us == 1).
    { apply (fraction_eq us (n_ds (normOf c)) (sizeOrDefault p - s0)); try assumption.
      lra. }
    rewrite U. ring. }
  intro Hn. unfold sizeOrDefault. now rewrite Hn.
Qed.

Lemma point_size_mapping_witness :
  In pM (ChartData.points chartM) /\
  fst pointSizeRange0 <= snd pointSizeRange0 /\
  fst pointSizeRange0 <= sizeOf pointSizeRange0 (normOf chartM) pM <= snd pointSizeRange0.
Proof.
  assert (H : In pM (ChartData.points chartM)) by (right; left; reflexivity).
  assert (R : fst pointSizeRange0 <= snd pointSizeRange0) by discriminate.
  split; [exact H | split; [exact R |]].
  exact (proj1 (point_size_mapping pointSizeRange0 chartM pM H R)).
Defined.

(** ** The draw calls of [render] *)

Lemma indexed_nth_error {A : Type} (l : list A) (i : nat) (a : A) :
  nth_error l i = Some a -> In (i, a) (indexed l).
Proof.
  unfold indexed.
  assert (G : forall s, nth_error l i = Some a ->
                        In ((s + i)%nat, a) (combine (seq s (length l)) l)).
  { revert i. induction l as [| b l IH]; intros i s H.
    - destruct i; discriminate.
    - destruct i as [| i]; simpl in H.
      + inversion H; subst. left. now rewrite Nat.add_0_r.
      + right. replace (s + S i)%nat with (S s + i)%nat by lia. now apply IH. }
  intro H. exact (G 0%nat H).
Qed.

Lemma flat_map_optional {A B : Type} (f : A -> list B) (g : A -> bool)
    (h : A -> B) (l : list A) :
  (forall a, In a l -> f a = if g a then [h a] else []) ->
  flat_map f l = map h (filter g l).
Proof.
  induction l as [| a l IH]; intro H; simpl; [reflexivity |].
  rewrite (H a (or_introl eq_refl)), IH by (intros b Hb; apply H; now right).
  destruct (g a); reflexivity.
Qed.

Lemma Qfloor_unique (q : Q) (z : Z) :
  inject_Z z <= q < inject_Z z + 1 -> Qfloor q = z.
Proof.
  intros [L U].
  pose proof (Qfloor_le q) as F. pose proof (Qlt_floor q) as G.
  rewrite inject_Z_plus in G. change (inject_Z 1) with 1 in G.
  assert (A : inject_Z (Qfloor q) < inject_Z (z + 1)).
  { rewrite inject_Z_plus. change (inject_Z 1) with 1. lra. }
  assert (B : inject_Z z < inject_Z (Qfloor q + 1)).
  { rewrite inject_Z_plus. change (inject_Z 1) with 1. lra. }
  rewrite <- Zlt_Qlt in A, B. lia.
Qed.

Lemma heightPx_rows (columns : Z) (cellHeight cellGap : Q) (prep : list Prepared.t) :
  (1 <= rows columns prep)%Z ->
  heightPx columns cellHeight cellGap prep
  == inject_Z (rows columns prep) * cellHeight
     + (inject_Z (rows columns prep) - 1) * cellGap + 40.
Proof.
  intro H. unfold heightPx, heightOfRows.
  rewrite Z.max_r by lia. rewrite inject_Z_pred. reflexivity.
Qed.

(** The row of panel [i] as [render] computes it. *)
Lemma render_row (columns : Z) (prep : list Prepared.t) (i : nat) :
  (1 <= columns)%Z -> (i < length prep)%nat ->
  Qfloor (inject_Z (Z.of_nat i) / inject_Z columns) = (Z.of_nat i / columns)%Z /\
  (0 <= Z.of_nat i / columns <= rows columns prep - 1)%Z.
Proof.
  intros Hc Hi. split; [now rewrite <- Zdiv_Qdiv |].
  pose proof (rows_bounds columns prep Hc) as [_ B].
  assert (D : (0 <= Z.of_nat i / columns)%Z) by (apply Z.div_pos; lia).
  split; [exact D |].
  pose proof (Z.mul_div_le (Z.of_nat i) columns ltac:(lia)) as M.
  nia.
Qed.

Section RenderGeometry.

Variable columns : Z.
Variable cellHeight cellGap : Q.
Variable clientWidth clientHeight : Q.
Variable prep : list Prepared.t.

Hypothesis columns_pos : (1 <= columns)%Z.
Hypothesis cellHeight_pos : 1 <= cellHeight.
Hypothesis cellGap_nonneg : 0 <= cellGap.

Let cssWidth : Q := orOne clientWidth.
Let cssHeight : Q := cssHeightOf columns cellHeight cellGap clientHeight prep.
Let cellW : Q := cellWidth columns cellGap cssWidth.

(** The top of the cell of panel [i], rounded down, and the rounded cell
    height, as [render] computes them. *)
Let cellTop (i : nat) : Q :=
  inject_Z (Qfloor (inject_Z (Z.of_nat i / columns) * (cellHeight + cellGap))).
Let cellH : Q := inject_Z (Qfloor cellHeight).

Lemma render_cell_fits (i : nat) :
  (i < length prep)%nat ->
  1 <= cellH <= cellHeight /\
  0 <= cellTop i /\
  cellTop i + cellH + 40 <= cssHeight.
Proof.
  intro Hi.
  destruct (render_row columns prep i columns_pos Hi) as [_ [R0 R1]].
  assert (H1 : 1 <= cellH).
  { unfold cellH. change 1 with (inject_Z 1). rewrite <- Zle_Qle.
    change 1%Z with (Qfloor 1). now apply Qfloor_resp_le. }
  pose proof (Qfloor_le cellHeight) as H2. fold cellH in H2.
  assert (Rq : 0 <= inject_Z (Z.of_nat i / columns)) by now apply inject_Z_nonneg.
  assert (T0 : 0 <= cellTop i).
  { unfold cellTop. apply inject_Z_nonneg.
    change 0%Z with (Qfloor 0). apply Qfloor_resp_le. nra. }
  pose proof (Qfloor_le (inject_Z (Z.of_nat i / columns) * (cellHeight + cellGap))) as T1.
  fold (cellTop i) in T1.
  assert (Rr : inject_Z (Z.of_nat i / columns) <= inject_Z (rows columns prep) - 1).
  { rewrite <- inject_Z_pred, <- Zle_Qle. lia. }
  assert (Hh : heightPx columns cellHeight cellGap prep <= cssHeight).
  { unfold cssHeight, cssHeightOf. apply Q.le_max_r. }
  rewrite heightPx_rows in Hh by lia.
  repeat split; try assumption. nra.
Qed.

(** What [renderCell] does for a panel of the list. *)
Lemma renderCell_in_grid (i : nat) (b : Prepared.t) :
  (i < length prep)%nat ->
  exists box : Box.t,
    renderCell columns cellHeight cellGap cssWidth cssHeight i b
    = (if (0 <? Prepared.count b)%nat
       then [DrawCall.mk i (Prepared.count b) box box] else []) /\
    Box.x box
    = inject_Z (Qfloor (inject_Z (Z.of_nat i mod columns) * (cellW + cellGap))) /\
    Box.width box = inject_Z (Qfloor cellW) /\
    Box.height box = cellH /\
    Box.y box == inject_Z (Qfloor (cssHeight - (cellTop i + cellH))) /\
    40 <= Box.y box /\
    cellTop i <= cssHeight - (Box.y box + Box.height box) < cellTop i + 1.
Proof.
  intro Hi.
  destruct (render_cell_fits i Hi) as ([H1 H2] & T0 & Fit).
  destruct (render_row columns prep i columns_pos Hi) as [Er _].
  unfold renderCell. rewrite Er, Z.rem_mod_nonneg by lia.
  fold cellW cellH (cellTop i).
  set (vy := inject_Z (Qfloor (cssHeight - (cellTop i + cellH)))).
  assert (V0 : 40 <= vy).
  { unfold vy. change 40 with (inject_Z 40). rewrite <- Zle_Qle.
    change 40%Z with (Qfloor 40). apply Qfloor_resp_le. lra. }
  pose proof (Qfloor_le (cssHeight - (cellTop i + cellH))) as V1. fold vy in V1.
  pose proof (Qlt_floor (cssHeight - (cellTop i + cellH))) as V2.
  rewrite inject_Z_plus in V2. change (inject_Z 1) with 1 in V2. fold vy in V2.
  assert (S1 : Qmax 0 (Qmin vy (cssHeight - cellH)) == vy).
  { rewrite (Q.min_l vy) by lra. apply Q.max_r. lra. }
  assert (C1 : Qle_bool 0 (Qmax 0 (Qmin vy (cssHeight - cellH))) = true).
  { apply Qle_bool_iff. apply Q.le_max_l. }
  assert (C2 : Qltb (Qmax 0 (Qmin (cellTop i) (cssHeight - cellH))) cssHeight = true).
  { apply Qltb_true. apply Q.max_lub_lt; [lra |].
    pose proof (Q.le_min_r (cellTop i) (cssHeight - cellH)). lra. }
  rewrite C1, C2. simpl andb.
  eexists. split; [reflexivity |]. simpl.
  repeat split; try reflexivity; try assumption; rewrite ?S1; lra.
Qed.

End RenderGeometry.

(** X5.  With at least one column, cells at least one pixel high and a
    non-negative gap, [render] issues exactly one draw call for every panel
    that has points and none for the others, in panel order, whatever the
    size of the canvas element: the visibility test never rejects a
    panel. *)
Theorem render_draws_nonempty_panels (columns : Z) (cellHeight cellGap : Q)
    (clientWidth clientHeight : Q) (prep : list Prepared.t) :
  (1 <= columns)%Z -> 1 <= cellHeight -> 0 <= cellGap ->
  map DrawCall.index (render columns cellHeight cellGap clientWidth clientHeight prep)
  = map fst (filter (fun ib => (0 <? Prepared.count (snd ib))%nat) (indexed prep)) /\
  (forall i b, nth_error prep i = Some b -> (0 < Prepared.count b)%nat ->
     exists d, In d (render columns cellHeight cellGap clientWidth clientHeight prep) /\
               DrawCall.index d = i /\ DrawCall.count d = Prepared.count b) /\
  NoDup (map DrawCall.index
           (render columns cellHeight cellGap clientWidth clientHeight prep)).
Proof.
  intros Hc Hh Hg.
  set (box := fun ib : nat * Prepared.t =>
           Box.mk
             (inject_Z (Qfloor (inject_Z (Z.rem (Z.of_nat (fst ib)) columns)
                                * (cellWidth columns cellGap (orOne clientWidth) + cellGap))))
             (Qmax 0 (Qmin (inject_Z (Qfloor
                (cssHeightOf columns cellHeight cellGap clientHeight prep
                 - (inject_Z (Qfloor (inject_Z (Qfloor (inject_Z (Z.of_nat (fst ib))
                                                       / inject_Z columns))
                                      * (cellHeight + cellGap)))
                    + inject_Z (Qfloor cellHeight)))))
                (cssHeightOf columns cellHeight cellGap clientHeight prep
                 - inject_Z (Qfloor cellHeight))))
             (inject_Z (Qfloor (cellWidth columns cellGap (orOne clientWidth))))
             (inject_Z (Qfloor cellHeight))).
  assert (F : render columns cellHeight cellGap clientWidth clientHeight prep
              = map (fun ib => DrawCall.mk (fst ib) (Prepared.count (snd ib)) (box ib) (box ib))
                    (filter (fun ib => (0 <? Prepared.count (snd ib))%nat) (indexed prep))).
  { unfold render. apply flat_map_optional.
    intros [i b] Hib. apply In_indexed in Hib.
    assert (Hi : (i < length prep)%nat) by (apply nth_error_Some; congruence).
    destruct (renderCell_in_grid columns cellHeight cellGap clientWidth clientHeight
                prep Hc Hh Hg i b Hi) as (bx & E & _).
    cbn [fst snd]. rewrite E.
    destruct (0 <? Prepared.count b)%nat eqn:C; [| reflexivity].
    unfold renderCell in E. rewrite C in E.
    match type of E with
    | (if ?g then _ else _) = _ => destruct g; [| discriminate]
    end.
    inversion E. reflexivity. }
  assert (M : map DrawCall.index
                (render columns cellHeight cellGap clientWidth clientHeight prep)
              = map fst (filter (fun ib => (0 <? Prepared.count (snd ib))%nat)
                           (indexed prep))).
  { rewrite F, map_map. reflexivity. }
  split; [exact M | split].
  - intros i b Hn Pos. apply indexed_nth_error in Hn.
    exists (DrawCall.mk i (Prepared.count b) (box (i, b)) (box (i, b))).
    split; [| split; reflexivity].
    rewrite F. apply in_map_iff. exists (i, b). split; [reflexivity |].
    apply filter_In. split; [exact Hn |]. now apply Nat.ltb_lt.
  - rewrite M.
    assert (S : forall (l : list (nat * Prepared.t)) g,
               NoDup (map fst l) -> NoDup (map fst (filter g l))).
    { intros l g. induction l as [| a l IH]; intro H; simpl; [constructor |].
      inversion H as [| ? ? Ha Hl]; subst.
      destruct (g a); simpl; [constructor |]; auto.
      intro I. apply Ha. apply in_map_iff in I. destruct I as (x & Ex & Ix).
      apply filter_In in Ix. apply in_map_iff. exists x. tauto. }
    apply S. unfold indexed.
    assert (K : forall (l : list Prepared.t) s, map fst (combine (seq s (length l)) l)
                                                = seq s (length l)).
    { induction l as [| a l IH]; intro s; simpl; [reflexivity |]. now rewrite IH. }
    rewrite K. apply seq_NoDup.
Qed.

Lemma render_draws_nonempty_panels_witness :
  (1 <= 6)%Z /\ 1 <= 280 /\ 0 <= 20 /\
  map DrawCall.index
    (render 6 280 20 1300 0
       (prepared pointSizeRange0 defaultColor0 [chartE; chartA; chartE; chartD]))
  = map fst (filter (fun ib => (0 <? Prepared.count (snd ib))%nat)
               (indexed (prepared pointSizeRange0 defaultColor0
                           [chartE; chartA; chartE; chartD]))).
Proof.
  assert (H1 : (1 <= 6)%Z) by lia.
  assert (H2 : 1 <= 280) by discriminate.
  assert (H3 : 0 <= 20) by discriminate.
  repeat (split; [assumption |]).
  exact (proj1 (render_draws_nonempty_panels 6 280 20 1300 0 _ H1 H2 H3)).
Defined.

(** An integral length that fits the CSS size fits the drawing buffer when the
    device pixel ratio is at least 1. *)
Lemma fits_drawing_buffer (z : Z) (css dpr : Q) :
  inject_Z z <= css -> 0 <= css -> 1 <= dpr ->
  inject_Z z <= inject_Z (Z.max 1 (Qfloor (css * dpr))).
Proof.
  intros H C D. rewrite <- Zle_Qle.
  assert (S : inject_Z z <= css * dpr) by nra.
  apply Qfloor_resp_le in S. rewrite Qfloor_Z in S. lia.
Qed.

Lemma Qfloor_minus_Z (q : Q) (k : Z) : Qfloor (q - inject_Z k) = (Qfloor q - k)%Z.
Proof.
  apply Qfloor_unique.
  pose proof (Qfloor_le q) as L. pose proof (Qlt_floor q) as U.
  rewrite inject_Z_plus in U. change (inject_Z 1) with 1 in U.
  unfold Z.sub. rewrite inject_Z_plus, inject_Z_opp. split; lra.
Qed.

(** X6.  With at least one column, cells at least one pixel high, a
    non-negative gap, the canvas at least as wide as the gaps between the
    columns and a device pixel ratio of at least 1, the viewport of every
    draw call (and the equal scissor box) has the
    rounded cell width and height, starts at the rounded left edge of
    column i mod cols, and lies inside the drawing buffer [render] has
    just sized, at least 40 of its pixels above the bottom edge.  With a
    device pixel ratio of 1, where a pixel of the buffer is a CSS pixel,
    the top edge of the viewport, counted from the top of the buffer, is
    the rounded top of row floor(i / cols): the viewport is the panel's
    cell. *)
Theorem render_viewport_geometry (columns : Z) (cellHeight cellGap : Q)
    (devicePixelRatio clientWidth clientHeight : Q) (prep : list Prepared.t)
    (d : DrawCall.t) :
  (1 <= columns)%Z -> 1 <= cellHeight -> 0 <= cellGap ->
  (inject_Z columns - 1) * cellGap <= orOne clientWidth ->
  1 <= orOne devicePixelRatio ->
  In d (render columns cellHeight cellGap clientWidth clientHeight prep) ->
  DrawCall.scissor d = DrawCall.viewport d /\
  (Box.x (DrawCall.viewport d)
   = inject_Z (Qfloor (inject_Z (Z.of_nat (DrawCall.index d) mod columns)
                       * (cellWidth columns cellGap (orOne clientWidth) + cellGap))) /\
   Box.width (DrawCall.viewport d)
   = inject_Z (Qfloor (cellWidth columns cellGap (orOne clientWidth))) /\
   Box.height (DrawCall.viewport d) = inject_Z (Qfloor cellHeight)) /\
  (0 <= Box.x (DrawCall.viewport d) /\
   Box.x (DrawCall.viewport d) + Box.width (DrawCall.viewport d)
   <= inject_Z (fst (canvasSize columns cellHeight cellGap devicePixelRatio
                       clientWidth clientHeight prep))) /\
  (40 <= Box.y (DrawCall.viewport d) /\
   Box.y (DrawCall.viewport d) + Box.height (DrawCall.viewport d)
   <= inject_Z (snd (canvasSize columns cellHeight cellGap devicePixelRatio
                       clientWidth clientHeight prep))) /\
  (orOne devicePixelRatio == 1 ->
   inject_Z (snd (canvasSize columns cellHeight cellGap devicePixelRatio
                    clientWidth clientHeight prep))
   - (Box.y (DrawCall.viewport d) + Box.height (DrawCall.viewport d))
   == inject_Z (Qfloor (inject_Z (Z.of_nat (DrawCall.index d) / columns)
                        * (cellHeight + cellGap)))).
Proof.
  intros Hc Hh Hg Hw Hr Hd.
  unfold render in Hd. apply in_flat_map in Hd.
  destruct Hd as ([i b] & Hib & Hd). cbn [fst snd] in Hd.
  apply In_indexed in Hib.
  assert (Hi : (i < length prep)%nat) by (apply nth_error_Some; congruence).
  destruct (renderCell_in_grid columns cellHeight cellGap clientWidth clientHeight
              prep Hc Hh Hg i b Hi) as (bx & E & Ex & Ew & Eh & Ey & Y40 & Top).
  destruct (render_cell_fits columns cellHeight cellGap clientHeight
              prep Hc Hh Hg i Hi) as ([H1 H2] & T0 & Fit).
  rewrite E in Hd.
  destruct (0 <? Prepared.count b)%nat; [| contradiction].
  destruct Hd as [<- | []]. cbn [DrawCall.scissor DrawCall.viewport DrawCall.index].
  unfold canvasSize. cbn [fst snd].
  set (cssHeight := cssHeightOf columns cellHeight cellGap clientHeight prep) in *.
  set (top := Qfloor (inject_Z (Z.of_nat i / columns) * (cellHeight + cellGap))) in *.
  set (h := Qfloor cellHeight) in *.
  set (dpr := orOne devicePixelRatio) in *.
  (* horizontal extent *)
  set (cw := cellWidth columns cellGap (orOne clientWidth)) in *.
  pose proof (cellWidth_total columns cellGap (orOne clientWidth) Hc) as Wt. fold cw in Wt.
  assert (Cq : 1 <= inject_Z columns).
  { change 1 with (inject_Z 1). rewrite <- Zle_Qle. lia. }
  assert (W0 : 0 <= cw).
  { destruct (Qlt_le_dec cw 0) as [L | L]; [exfalso; nra | exact L]. }
  pose proof (Z.mod_pos_bound (Z.of_nat i) columns ltac:(lia)) as [M0 M1].
  assert (Mq0 : 0 <= inject_Z (Z.of_nat i mod columns)) by now apply inject_Z_nonneg.
  assert (Mq1 : inject_Z (Z.of_nat i mod columns) <= inject_Z columns - 1).
  { rewrite <- inject_Z_pred, <- Zle_Qle. lia. }
  set (left := Qfloor (inject_Z (Z.of_nat i mod columns) * (cw + cellGap))) in *.
  pose proof (Qfloor_le (inject_Z (Z.of_nat i mod columns) * (cw + cellGap))) as X1.
  fold left in X1.
  assert (X0 : 0 <= inject_Z left).
  { apply inject_Z_nonneg. change 0%Z with (Qfloor 0). apply Qfloor_resp_le. nra. }
  pose proof (Qfloor_le cw) as W1.
  assert (Wc : 0 <= orOne clientWidth) by nra.
  assert (Xf : inject_Z (left + Qfloor cw) <= orOne clientWidth).
  { rewrite inject_Z_plus. nra. }
  pose proof (fits_drawing_buffer _ _ dpr Xf Wc Hr) as Xb.
  rewrite inject_Z_plus in Xb.
  (* vertical extent *)
  assert (Ez : Box.y bx == inject_Z (Qfloor cssHeight - (top + h))).
  { rewrite Ey. rewrite <- inject_Z_plus. now rewrite Qfloor_minus_Z. }
  assert (Hc0 : 0 <= cssHeight) by lra.
  assert (Yf : inject_Z (Qfloor cssHeight - (top + h) + h) <= cssHeight).
  { replace (Qfloor cssHeight - (top + h) + h)%Z with (Qfloor cssHeight - top)%Z by lia.
    pose proof (Qfloor_le cssHeight) as F.
    unfold Z.sub. rewrite inject_Z_plus, inject_Z_opp. lra. }
  pose proof (fits_drawing_buffer _ _ dpr Yf Hc0 Hr) as Yb.
  rewrite inject_Z_plus in Yb.
  rewrite Ex, Ew, Eh.
  split; [reflexivity |].
  split; [repeat split; reflexivity |].
  split; [split; [exact X0 | exact Xb] |].
  split; [split; [exact Y40 | rewrite Ez; exact Yb] |].
  intro D1.
  assert (F40 : (40 <= Qfloor cssHeight)%Z).
  { change 40%Z with (Qfloor 40). apply Qfloor_resp_le. lra. }
  assert (Ec : Qfloor (cssHeight * dpr) = Qfloor cssHeight).
  { apply Qfloor_comp. rewrite D1. ring. }
  rewrite Ec, Z.max_r by lia. rewrite Ez.
  unfold Z.sub. rewrite !inject_Z_plus, inject_Z_opp, inject_Z_plus. ring.
Qed.

(** Panel A alone on a canvas of 1300 by 320 CSS pixels, device pixel ratio
    1: the drawing buffer is 1300 by 320 and the one viewport, 200 by 280
    at (0, 40), has its top edge at the top of the buffer. *)
Lemma render_viewport_geometry_witness :
  (1 <= 6)%Z /\ 1 <= 280 /\ 0 <= 20 /\
  (inject_Z 6 - 1) * 20 <= orOne 1300 /\ 1 <= orOne 1 /\
  In (DrawCall.mk 0 2 (Box.mk 0 40 200 280) (Box.mk 0 40 200 280))
     (render 6 280 20 1300 320 (prepared pointSizeRange0 defaultColor0 [chartA])) /\
  canvasSize 6 280 20 1 1300 320 (prepared pointSizeRange0 defaultColor0 [chartA])
  = (1300%Z, 320%Z) /\
  Box.y (Box.mk 0 40 200 280) + Box.height (Box.mk 0 40 200 280)
  <= inject_Z (snd (canvasSize 6 280 20 1 1300 320
                      (prepared pointSizeRange0 defaultColor0 [chartA]))).
Proof.
  assert (H1 : (1 <= 6)%Z) by lia.
  assert (H2 : 1 <= 280) by discriminate.
  assert (H3 : 0 <= 20) by discriminate.
  assert (H4 : (inject_Z 6 - 1) * 20 <= orOne 1300) by (vm_compute; discriminate).
  assert (H5 : 1 <= orOne 1) by (vm_compute; discriminate).
  assert (H6 : In (DrawCall.mk 0 2 (Box.mk 0 40 200 280) (Box.mk 0 40 200 280))
                 (render 6 280 20 1300 320
                    (prepared pointSizeRange0 defaultColor0 [chartA]))).
  { left. vm_compute. reflexivity. }
  repeat (split; [assumption |]).
  split; [vm_compute; reflexivity |].
  exact (proj2 (proj1 (proj2 (proj2 (proj2
           (render_viewport_geometry 6 280 20 1 1300 320 _ _ H1 H2 H3 H4 H5 H6)))))).
Defined.

(** ** Hit-testing inside a cell *)

(** X7.  The hit-tester finds the cell the renderer uses for a panel: a
    pointer offset by (ox, oy) from the corner
    ((i mod cols) * (cellW + gap), floor(i / cols) * (cellH + gap)) of
    panel i, with 0 <= ox < cellW + gap and 0 <= oy < cellH + gap, is
    resolved to panel i with local position (ox, oy); inside the cell
    itself the result is the tooltip of exactly those points of panel i,
    in their order, whose time and price are both strictly within the
    thresholds of the cursor's data coordinates, or no tooltip if there is
    none. *)
Theorem pointer_in_cell_of_panel (columns : Z) (cellHeight cellGap : Q)
    (psr : Q * Q) (dc : RGB) (charts : list ChartData.t) (rect : DOMRect.t)
    (event : MouseEvent.t) (i : nat) (ox oy : Q) :
  (1 <= columns)%Z -> 0 <= cellGap -> 0 < cellHeight ->
  0 < cellW columns cellGap rect ->
  0 <= ox < cellW columns cellGap rect + cellGap ->
  0 <= oy < cellHeight + cellGap ->
  mouseX rect event
  == inject_Z (Z.of_nat i mod columns) * (cellW columns cellGap rect + cellGap) + ox ->
  mouseY rect event
  == inject_Z (Z.of_nat i / columns) * (cellHeight + cellGap) + oy ->
  (col columns cellGap rect event = (Z.of_nat i mod columns)%Z /\
   row cellHeight cellGap rect event = (Z.of_nat i / columns)%Z /\
   chartIndex columns cellHeight cellGap rect event = Z.of_nat i /\
   localX columns cellGap rect event == ox /\
   localY cellHeight cellGap rect event == oy) /\
  (forall chart, nth_error charts i = Some chart ->
     ox <= cellW columns cellGap rect -> oy <= cellHeight ->
     handleMouseMove columns cellHeight cellGap psr dc charts rect event
     = match nearbyPoints chart (prepare psr dc chart)
               (cellW columns cellGap rect) cellHeight
               (localX columns cellGap rect event)
               (localY cellHeight cellGap rect event) with
       | [] => None
       | q :: qs =>
           Some (Tooltip.mk true (MouseEvent.clientX event) (MouseEvent.clientY event)
                   (map pointData (q :: qs)))
       end /\
     forall p,
       In p (nearbyPoints chart (prepare psr dc chart)
               (cellW columns cellGap rect) cellHeight
               (localX columns cellGap rect event)
               (localY cellHeight cellGap rect event)) <->
       In p (ChartData.points chart) /\
       Qabs (Point.x p
             - cursorTime (prepare psr dc chart) (cellW columns cellGap rect)
                 (localX columns cellGap rect event))
       < timeThreshold (prepare psr dc chart) /\
       Qabs (Point.y p
             - cursorPrice (prepare psr dc chart) cellHeight
                 (localY cellHeight cellGap rect event))
       < priceThreshold (prepare psr dc chart)).
Proof.
  intros Hc Hg Hh Hw [Ox0 Ox1] [Oy0 Oy1] Ex Ey.
  set (cw := cellW columns cellGap rect) in *.
  assert (Ec : col columns cellGap rect event = (Z.of_nat i mod columns)%Z).
  { unfold col, cellCol. fold cw. apply Qfloor_unique.
    set (k := inject_Z (Z.of_nat i mod columns)) in *.
    set (q := mouseX rect event / (cw + cellGap)).
    assert (E : q * (cw + cellGap) == mouseX rect event) by (unfold q; field; lra).
    split.
    - destruct (Qlt_le_dec q k) as [L | L]; [exfalso; nra | exact L].
    - destruct (Qlt_le_dec q (k + 1)) as [L | L]; [exact L | exfalso; nra]. }
  assert (Er : row cellHeight cellGap rect event = (Z.of_nat i / columns)%Z).
  { unfold row, cellRow. apply Qfloor_unique.
    set (k := inject_Z (Z.of_nat i / columns)) in *.
    set (q := mouseY rect event / (cellHeight + cellGap)).
    assert (E : q * (cellHeight + cellGap) == mouseY rect event) by (unfold q; field; lra).
    split.
    - destruct (Qlt_le_dec q k) as [L | L]; [exfalso; nra | exact L].
    - destruct (Qlt_le_dec q (k + 1)) as [L | L]; [exact L | exfalso; nra]. }
  assert (Ei : chartIndex columns cellHeight cellGap rect event = Z.of_nat i).
  { unfold chartIndex, chartIndexOf. rewrite Ec, Er.
    pose proof (Z.div_mod (Z.of_nat i) columns ltac:(lia)). lia. }
  assert (Lx : localX columns cellGap rect event == ox).
  { unfold localX. fold cw. rewrite Ec, Ex. ring. }
  assert (Ly : localY cellHeight cellGap rect event == oy).
  { unfold localY. rewrite Er, Ey. ring. }
  split; [repeat split; assumption |].
  intros chart Hn Hox Hoy. split.
  - apply (handleMouseMove_in_cell columns cellHeight cellGap psr dc charts rect event
             i chart Ei Hn); fold cw; lra.
  - intro p. unfold nearbyPoints. rewrite filter_In, andb_true_iff, !Qltb_true.
    reflexivity.
Qed.

Lemma pointer_in_cell_of_panel_witness :
  ((1 <= 6)%Z /\ 0 <= 20 /\ 0 < 280 /\ 0 < cellW 6 20 rect0 /\
   0 <= 60 < cellW 6 20 rect0 + 20 /\ 0 <= 100 < 280 + 20 /\
   mouseX rect0 (MouseEvent.mk 500 400)
   == inject_Z (Z.of_nat 8 mod 6) * (cellW 6 20 rect0 + 20) + 60 /\
   mouseY rect0 (MouseEvent.mk 500 400)
   == inject_Z (Z.of_nat 8 / 6) * (280 + 20) + 100) /\
  chartIndex 6 280 20 rect0 (MouseEvent.mk 500 400) = Z.of_nat 8.
Proof.
  assert (H1 : (1 <= 6)%Z) by lia.
  assert (H2 : 0 <= 20) by discriminate.
  assert (H3 : 0 < 280) by reflexivity.
  assert (H4 : 0 < cellW 6 20 rect0) by (vm_compute; reflexivity).
  assert (H5 : 0 <= 60 < cellW 6 20 rect0 + 20)
    by (split; vm_compute; [discriminate | reflexivity]).
  assert (H6 : 0 <= 100 < 280 + 20)
    by (split; vm_compute; [discriminate | reflexivity]).
  assert (H7 : mouseX rect0 (MouseEvent.mk 500 400)
               == inject_Z (Z.of_nat 8 mod 6) * (cellW 6 20 rect0 + 20) + 60)
    by (vm_compute; reflexivity).
  assert (H8 : mouseY rect0 (MouseEvent.mk 500 400)
               == inject_Z (Z.of_nat 8 / 6) * (280 + 20) + 100)
    by (vm_compute; reflexivity).
  split; [repeat split; try assumption; try apply H5; apply H6 |].
  exact (proj1 (proj2 (proj2 (proj1
           (pointer_in_cell_of_panel 6 280 20 pointSizeRange0 defaultColor0 []
              rect0 (MouseEvent.mk 500 400) 8 60 100 H1 H2 H3 H4 H5 H6 H7 H8))))).
Defined.

(** ** Inverting the position of a drawn point *)








(** ** The labels overlay *)

Lemma Math_min_map (f : Point.t -> Q) (pts : list Point.t) :
  Math_min (map f pts) = fold_left (stepMin f) pts Infinity.
Proof.
  unfold Math_min. generalize Infinity.
  induction pts as [| p ps IH]; intro a; simpl; [reflexivity |]. apply IH.
Qed.

Lemma Math_max_map (f : Point.t -> Q) (pts : list Point.t) :
  Math_max (map f pts) = fold_left (stepMax f) pts NegInfinity.
Proof.
  unfold Math_max. generalize NegInfinity.
  induction pts as [| p ps IH]; intro a; simpl; [reflexivity |]. apply IH.
Qed.

(** The overlay's minima and maxima are the accumulators of the scan. *)
Lemma labelsOf_scan (c : ChartData.t) :
  Labels.minTime (labelsOf c) = valueOf (r_xmin (findRanges (ChartData.points c))) /\
  Labels.maxTime (labelsOf c) = valueOf (r_xmax (findRanges (ChartData.points c))) /\
  Labels.minPrice (labelsOf c) = valueOf (r_ymin (findRanges (ChartData.points c))) /\
  Labels.maxPrice (labelsOf c) = valueOf (r_ymax (findRanges (ChartData.points c))).
Proof.
  unfold labelsOf, findRanges. cbn [Labels.minTime Labels.maxTime Labels.minPrice Labels.maxPrice].
  rewrite !Math_min_map, !Math_max_map.
  destruct (scan_fields (ChartData.points c) scanInit) as (F1 & F2 & F3 & F4 & _).
  rewrite F1, F2, F3, F4. repeat split.
Qed.

(** X10.  For a panel with points, the four extremes printed by the labels
    overlay are the least and greatest time and price of the panel's
    points, the middle labels are their averages, and the padded bounds
    the points are placed with are these extremes widened by 5% of the span
    used for the padding; the overlay cell is empty exactly for a panel
    without points. *)
Theorem overlay_labels_are_scan_bounds (psr : Q * Q) (dc : RGB)
    (mts : list MyTradeData.t) (index : nat) (c : ChartData.t) :
  (overlayCell mts index c (Some (prepare psr dc c)) = None <->
   ChartData.points c = []) /\
  (ChartData.points c <> [] ->
   overlayCell mts index c (Some (prepare psr dc c))
   = Some (labelsOf c, crosshairs mts index (labelsOf c)) /\
   (isMin Point.x (ChartData.points c) (Labels.minTime (labelsOf c)) /\
    isMax Point.x (ChartData.points c) (Labels.maxTime (labelsOf c)) /\
    isMin Point.y (ChartData.points c) (Labels.minPrice (labelsOf c)) /\
    isMax Point.y (ChartData.points c) (Labels.maxPrice (labelsOf c))) /\
   (n_xmin (normOf c) == Labels.minTime (labelsOf c) - n_dx (normOf c) * 0.05 /\
    n_xmax (normOf c) == Labels.maxTime (labelsOf c) + n_dx (normOf c) * 0.05 /\
    n_ymin (normOf c) == Labels.minPrice (labelsOf c) - n_dy (normOf c) * 0.05 /\
    n_ymax (normOf c) == Labels.maxPrice (labelsOf c) + n_dy (normOf c) * 0.05) /\
   (Labels.midTime (labelsOf c)
    == (Labels.minTime (labelsOf c) + Labels.maxTime (labelsOf c)) / 2 /\
    Labels.midPrice (labelsOf c)
    == (Labels.minPrice (labelsOf c) + Labels.maxPrice (labelsOf c)) / 2)).
Proof.
  split.
  - unfold overlayCell. destruct (ChartData.points c) as [| p0 ps] eqn:E.
    + rewrite (prepare_empty psr dc c E). simpl. tauto.
    + assert (N : ChartData.points c <> []) by (rewrite E; discriminate).
      rewrite (prepare_nonempty psr dc c N), E. simpl. split; discriminate.
  - intro N.
    destruct (labelsOf_scan c) as (L1 & L2 & L3 & L4).
    split.
    { unfold overlayCell. rewrite (prepare_nonempty psr dc c N).
      cbn [Prepared.count]. destruct (ChartData.points c); [congruence | reflexivity]. }
    destruct (normOf_nonempty c N)
      as (x0 & x1 & y0 & y1 & Hx0 & Hx1 & Hy0 & Hy1
          & Edx & Edy & Exlo & Exhi & Eylo & Eyhi & Vx0 & Vx1 & Vy0 & Vy1).
    rewrite Vx0 in L1. rewrite Vx1 in L2. rewrite Vy0 in L3. rewrite Vy1 in L4.
    split; [rewrite L1, L2, L3, L4; repeat split;
            try apply Hx0; try apply Hx1; try apply Hy0; try apply Hy1 |].
    split.
    { rewrite L1, L2, L3, L4, Exlo, Exhi, Eylo, Eyhi, Edx, Edy. unfold padding.
      repeat split; reflexivity. }
    split; reflexivity.
Qed.

Lemma overlay_labels_are_scan_bounds_witness :
  ChartData.points chartA <> [] /\
  isMin Point.x (ChartData.points chartA) (Labels.minTime (labelsOf chartA)) /\
  n_xmin (normOf chartA) == Labels.minTime (labelsOf chartA) - n_dx (normOf chartA) * 0.05.
Proof.
  assert (N : ChartData.points chartA <> []) by discriminate.
  split; [exact N |].
  pose proof (proj2 (overlay_labels_are_scan_bounds pointSizeRange0 defaultColor0 [] 0
                       chartA) N) as T.
  split; [exact (proj1 (proj1 (proj2 T))) | exact (proj1 (proj1 (proj2 (proj2 T))))].
Defined.

(** A fraction of a range whose span falls back to 1. *)
Lemma range_fraction (n lo hi : Q) :
  0 <= n <= hi - lo ->
  0 <= n / orOne (hi - lo) <= 1 /\
  n / orOne (hi - lo) * (hi - lo) == n.
Proof.
  intros [H0 H1].
  destruct (orOne_span lo hi ltac:(lra)) as [D S].
  set (u := n / orOne (hi - lo)).
  assert (E : u * orOne (hi - lo) == n) by (unfold u; field; lra).
  split.
  - apply (fraction_bounds u (orOne (hi - lo)) n); [assumption | assumption | lra].
  - destruct (orOne_cases (hi - lo)) as [[Z R] | [_ R]]; rewrite R in E.
    + rewrite Z. lra.
    + exact E.
Qed.

(** X11.  A crosshair of the overlay is left out exactly when its trade lies
    outside the time or price range of the panel's labels.  When it is
    drawn, both percentages lie within [15, 85] and are linear in the
    trade: the horizontal one runs from 15 at the least time to 85 at the
    greatest, the vertical one from 15 at the greatest price to 85 at the
    least; on an axis whose range is empty the crosshair is at 15. *)
Theorem crosshair_placement (c : ChartData.t) (trade : MyTrade.t) :
  ChartData.points c <> [] ->
  (crosshair (labelsOf c) trade = None <->
   MyTrade.timestamp trade < Labels.minTime (labelsOf c) \/
   Labels.maxTime (labelsOf c) < MyTrade.timestamp trade \/
   MyTrade.price trade < Labels.minPrice (labelsOf c) \/
   Labels.maxPrice (labelsOf c) < MyTrade.price trade) /\
  (forall px py, crosshair (labelsOf c) trade = Some (px, py) ->
     (Labels.minTime (labelsOf c) <= MyTrade.timestamp trade
      <= Labels.maxTime (labelsOf c) /\
      Labels.minPrice (labelsOf c) <= MyTrade.price trade
      <= Labels.maxPrice (labelsOf c)) /\
     (15 <= px <= 85 /\ 15 <= py <= 85) /\
     ((px - 15) * (Labels.maxTime (labelsOf c) - Labels.minTime (labelsOf c))
      == 70 * (MyTrade.timestamp trade - Labels.minTime (labelsOf c)) /\
      (py - 15) * (Labels.maxPrice (labelsOf c) - Labels.minPrice (labelsOf c))
      == 70 * (Labels.maxPrice (labelsOf c) - MyTrade.price trade)) /\
     (Labels.maxTime (labelsOf c) == Labels.minTime (labelsOf c) -> px == 15) /\
     (Labels.maxPrice (labelsOf c) == Labels.minPrice (labelsOf c) -> py == 15)).
Proof.
  intros N.
  remember (labelsOf c) as lb eqn:Elb. clear Elb.
  unfold crosshair.
  destruct (Qltb (MyTrade.timestamp trade) (Labels.minTime lb)
            || Qltb (Labels.maxTime lb) (MyTrade.timestamp trade)
            || Qltb (MyTrade.price trade) (Labels.minPrice lb)
            || Qltb (Labels.maxPrice lb) (MyTrade.price trade)) eqn:C.
  - rewrite !orb_true_iff, !Qltb_true in C.
    split; [split; [tauto | reflexivity] | discriminate].
  - rewrite !orb_false_iff, !Qltb_false in C.
    destruct C as [[[C1 C2] C3] C4].
    split; [split; [discriminate | intro H; exfalso; lra] |].
    intros px py H. injection H as <- <-.
    destruct (range_fraction (MyTrade.timestamp trade - Labels.minTime lb)
                (Labels.minTime lb) (Labels.maxTime lb) ltac:(lra)) as [Fx Ex].
    destruct (range_fraction (Labels.maxPrice lb - MyTrade.price trade)
                (Labels.minPrice lb) (Labels.maxPrice lb) ltac:(lra)) as [Fy Ey].
    pose proof (clamp01_id _ Fx) as Ix. pose proof (clamp01_id _ Fy) as Iy.
    split; [split; split; assumption |].
    rewrite Ix, Iy.
    split; [split; split; lra |].
    split; [split; lra |].
    split; intro Z.
    + assert (U : (MyTrade.timestamp trade - Labels.minTime lb)
                  / orOne (Labels.maxTime lb - Labels.minTime lb) == 0).
      { assert (Z0 : MyTrade.timestamp trade - Labels.minTime lb == 0) by lra.
        rewrite Z0. unfold Qdiv. ring. }
      rewrite U. ring.
    + assert (U : (Labels.maxPrice lb - MyTrade.price trade)
                  / orOne (Labels.maxPrice lb - Labels.minPrice lb) == 0).
      { assert (Z0 : Labels.maxPrice lb - MyTrade.price trade == 0) by lra.
        rewrite Z0. unfold Qdiv. ring. }
      rewrite U. ring.
Qed.

(** A trade at time 5 and price 0.15 on panel A is drawn at the middle of
    the cell. *)
Lemma crosshair_placement_witness :
  ChartData.points chartA <> [] /\
  exists px py,
    crosshair (labelsOf chartA) (MyTrade.mk 5 0.15 "Yes") = Some (px, py) /\
    px == 50 /\ py == 50 /\
    15 <= px <= 85.
Proof.
  assert (N : ChartData.points chartA <> []) by discriminate.
  split; [exact N |].
  destruct (crosshair (labelsOf chartA) (MyTrade.mk 5 0.15 "Yes"))
    as [[px py] |] eqn:E; [| vm_compute in E; discriminate E].
  exists px, py. split; [reflexivity |].
  assert (V : px == 50 /\ py == 50).
  { vm_compute in E. injection E as <- <-. split; reflexivity. }
  split; [apply V | split; [apply V |]].
  exact (proj1 (proj1 (proj2
           (proj2 (crosshair_placement chartA (MyTrade.mk 5 0.15 "Yes") N) px py E)))).
Defined.

(** ** [toCharts] *)

Lemma upPoints_side (m : Market.t) (p : Point.t) :
  In p (upPoints m) ->
  Point.color p = Some (0.9, 0.2, 0.2) /\ (exists s, Point.size p = Some s) /\
  isUpTrade p = true.
Proof.
  unfold upPoints. intro H. apply in_map_iff in H. destruct H as (t & <- & _).
  repeat split. now exists (Trade.size t).
Qed.

Lemma downPoints_side (m : Market.t) (p : Point.t) :
  In p (downPoints m) ->
  Point.color p = Some (0.2, 0.8, 0.2) /\ (exists s, Point.size p = Some s) /\
  isUpTrade p = false.
Proof.
  unfold downPoints. intro H. apply in_map_iff in H. destruct H as (t & <- & _).
  repeat split. now exists (Trade.size t).
Qed.

(** X12.  [toCharts] makes one chart per market, in order, whose points
    are the market's up trades followed by its down trades, each with its
    size and a color of its own.  So the chart's default color is never
    drawn, and in a tooltip a point is reported "Up" exactly when it comes
    from the up trades and "Down" exactly when it comes from the down
    trades. *)
Theorem toCharts_points (myTrades : list MyTradeRow.t) (parseInt : string -> Q)
    (ms : list Market.t) (i : nat) (m : Market.t) :
  nth_error ms i = Some m ->
  length (fst (fst (toCharts myTrades parseInt ms))) = length ms /\
  exists c,
    nth_error (fst (fst (toCharts myTrades parseInt ms))) i = Some c /\
    ChartData.id c = Market.id m /\ ChartData.title c = Market.title m /\
    ChartData.points c = upPoints m ++ downPoints m /\
    length (ChartData.points c)
    = (length (Asset.trades (Market.up m)) + length (Asset.trades (Market.down m)))%nat /\
    forall p, In p (ChartData.points c) ->
      (exists s, Point.size p = Some s) /\
      (TooltipPoint.side (pointData p) = "Up"%string <-> In p (upPoints m)) /\
      (TooltipPoint.side (pointData p) = "Down"%string <-> In p (downPoints m)) /\
      (forall dc, colorOf dc c p = (0.9, 0.2, 0.2) \/ colorOf dc c p = (0.2, 0.8, 0.2)).
Proof.
  intro Hn. unfold toCharts. cbn [fst].
  split; [now rewrite !length_map |].
  exists (ExtendedChartData.chart (extendedChart m)).
  split; [rewrite !nth_error_map, Hn; reflexivity |].
  cbn [extendedChart ExtendedChartData.chart ChartData.id ChartData.title ChartData.points].
  repeat split.
  - rewrite length_app. unfold upPoints, downPoints. now rewrite !length_map.
  - apply in_app_or in H. destruct H as [H | H];
      [apply upPoints_side in H | apply downPoints_side in H]; apply H.
  - intro S. apply in_app_or in H. destruct H as [H | H]; [exact H |].
    apply downPoints_side in H. destruct H as (_ & _ & F).
    unfold pointData in S. cbn [TooltipPoint.side] in S. rewrite F in S. discriminate.
  - intro U. apply upPoints_side in U. destruct U as (_ & _ & T).
    unfold pointData. cbn [TooltipPoint.side]. now rewrite T.
  - intro S. apply in_app_or in H. destruct H as [H | H]; [| exact H].
    apply upPoints_side in H. destruct H as (_ & _ & T).
    unfold pointData in S. cbn [TooltipPoint.side] in S. rewrite T in S. discriminate.
  - intro D. apply downPoints_side in D. destruct D as (_ & _ & F).
    unfold pointData. cbn [TooltipPoint.side]. now rewrite F.
  - intro dc. unfold colorOf. apply in_app_or in H. destruct H as [H | H];
      [apply upPoints_side in H | apply downPoints_side in H];
      destruct H as (-> & _); [left | right]; reflexivity.
Qed.

Lemma toCharts_points_witness :
  nth_error [market0; market1] 0 = Some market0 /\
  length (fst (fst (toCharts myTrades0 parseInt0 [market0; market1]))) = 2%nat.
Proof.
  assert (H : nth_error [market0; market1] 0 = Some market0) by reflexivity.
  split; [exact H |].
  exact (proj1 (toCharts_points myTrades0 parseInt0 [market0; market1] 0 market0 H)).
Defined.

(** Entries of [myTradesData] behind position [s] in the list of charts. *)
Lemma find_after {A : Type} (F : nat * A -> MyTradeData.t)
    (g : MyTradeData.t -> bool) (l : list A) (s i : nat) :
  (forall ic, MyTradeData.chartIndex (F ic) = fst ic) ->
  (i < s)%nat ->
  find (fun mt => (MyTradeData.chartIndex mt =? i)%nat)
       (filter g (map F (combine (seq s (length l)) l))) = None.
Proof.
  intros HF. revert s. induction l as [| a l IH]; intros s Hlt; simpl; [reflexivity |].
  destruct (g (F (s, a))); simpl.
  - rewrite HF. simpl. replace (s =? i)%nat with false by (symmetry; apply Nat.eqb_neq; lia).
    apply IH. lia.
  - apply IH. lia.
Qed.

Lemma find_indexed {A : Type} (F : nat * A -> MyTradeData.t)
    (g : MyTradeData.t -> bool) (l : list A) (s i : nat) (a : A) :
  (forall ic, MyTradeData.chartIndex (F ic) = fst ic) ->
  nth_error l i = Some a ->
  find (fun mt => (MyTradeData.chartIndex mt =? (s + i))%nat)
       (filter g (map F (combine (seq s (length l)) l)))
  = if g (F ((s + i)%nat, a)) then Some (F ((s + i)%nat, a)) else None.
Proof.
  intros HF. revert s i. induction l as [| b l IH]; intros s i Hn.
  - destruct i; discriminate.
  - destruct i as [| i]; simpl in Hn.
    + inversion Hn; subst b. rewrite Nat.add_0_r. simpl.
      destruct (g (F (s, a))) eqn:G; simpl.
      * rewrite HF. simpl. now rewrite Nat.eqb_refl.
      * apply find_after; [exact HF | lia].
    + replace (s + S i)%nat with (S s + i)%nat by lia.
      specialize (IH (S s) i Hn).
      cbn [length seq combine map filter].
      destruct (g (F (s, b))); cbn [find]; [| exact IH].
      rewrite HF. cbn [fst].
      replace (s =? S s + i)%nat with false by (symmetry; apply Nat.eqb_neq; lia).
      exact IH.
Qed.

(** X13.  Every entry of [myTradesData] has at least one trade and belongs
    to an existing chart, and the overlay of panel i draws the crosshairs
    of exactly the rows of [myTrades] whose asset is the up or the down
    asset of market i, in their order (none when there is no such row). *)
Theorem toCharts_myTrades (myTrades : list MyTradeRow.t) (parseInt : string -> Q)
    (ms : list Market.t) :
  (forall mt, In mt (snd (fst (toCharts myTrades parseInt ms))) ->
     MyTradeData.trades mt <> [] /\
     exists m, nth_error ms (MyTradeData.chartIndex mt) = Some m /\
       MyTradeData.trades mt
       = map (fun trade => MyTrade.mk (parseInt (MyTradeRow.timeStamp trade))
                             (MyTradeRow.price trade) (MyTradeRow.outcome trade))
             (myTradesForMarket myTrades (extendedChart m))) /\
  (forall i m lb, nth_error ms i = Some m ->
     crosshairs (snd (fst (toCharts myTrades parseInt ms))) i lb
     = map (crosshair lb)
         (map (fun trade => MyTrade.mk (parseInt (MyTradeRow.timeStamp trade))
                               (MyTradeRow.price trade) (MyTradeRow.outcome trade))
              (filter (fun trade =>
                         String.eqb (MyTradeRow.assetId trade)
                                    (Asset.assetId (Market.up m))
                         || String.eqb (MyTradeRow.assetId trade)
                                       (Asset.assetId (Market.down m)))
                      myTrades))).
Proof.
  unfold toCharts. cbn [fst snd]. split.
  - intros mt H. unfold myTradesDataOf in H.
    apply filter_In in H. destruct H as [H G].
    apply in_map_iff in H. destruct H as ([i ec] & <- & Hi).
    apply In_indexed in Hi. rewrite nth_error_map in Hi.
    cbn [fst snd MyTradeData.trades MyTradeData.chartIndex] in *.
    split.
    + intro E. rewrite E in G. discriminate.
    + destruct (nth_error ms i) as [m |] eqn:Em; [| discriminate].
      simpl in Hi. inversion Hi; subst ec. exists m. split; reflexivity.
  - intros i m lb Hn.
    set (conv := fun trade => MyTrade.mk (parseInt (MyTradeRow.timeStamp trade))
                                (MyTradeRow.price trade) (MyTradeRow.outcome trade)).
    set (F := fun ic : nat * ExtendedChartData.t =>
                MyTradeData.mk (fst ic) (map conv (myTradesForMarket myTrades (snd ic)))).
    set (g := fun item => (0 <? length (MyTradeData.trades item))%nat).
    assert (Hf : find (fun mt => (MyTradeData.chartIndex mt =? i)%nat)
                      (myTradesDataOf myTrades parseInt (map extendedChart ms))
                 = if g (F (i, extendedChart m)) then Some (F (i, extendedChart m))
                   else None).
    { unfold myTradesDataOf, indexed. fold conv. fold F. fold g.
      apply (find_indexed F g (map extendedChart ms) 0 i (extendedChart m));
        [reflexivity | rewrite nth_error_map, Hn; reflexivity]. }
    unfold crosshairs. rewrite Hf.
    change (filter _ myTrades) with (myTradesForMarket myTrades (extendedChart m)).
    unfold g, F. cbn [fst snd MyTradeData.trades].
    destruct (myTradesDataOf myTrades parseInt (map extendedChart ms)) as [| e es] eqn:El.
    + simpl. simpl in Hf.
      unfold g, F in Hf. cbn [fst snd MyTradeData.trades] in Hf.
      destruct (map conv (myTradesForMarket myTrades (extendedChart m))); [reflexivity |].
      discriminate.
    + cbn [length Nat.ltb Nat.leb].
      destruct (map conv (myTradesForMarket myTrades (extendedChart m))) as [| t ts];
        reflexivity.
Qed.

Lemma toCharts_myTrades_witness :
  nth_error [market0; market1] 0 = Some market0 /\
  crosshairs (snd (fst (toCharts myTrades0 parseInt0 [market0; market1])))
    0%nat (labelsOf chartA)
  = map (crosshair (labelsOf chartA))
      (map (fun trade => MyTrade.mk (parseInt0 (MyTradeRow.timeStamp trade))
                            (MyTradeRow.price trade) (MyTradeRow.outcome trade))
           (filter (fun trade =>
                      String.eqb (MyTradeRow.assetId trade)
                                 (Asset.assetId (Market.up market0))
                      || String.eqb (MyTradeRow.assetId trade)
                                    (Asset.assetId (Market.down market0)))
                   myTrades0)).
Proof.
  assert (H : nth_error [market0; market1] 0 = Some market0) by reflexivity.
  split; [exact H |].
  exact (proj2 (toCharts_myTrades myTrades0 parseInt0 [market0; market1])
           0%nat market0 (labelsOf chartA) H).
Defined.


(** ** [SizeHeatmap] *)

Lemma Math_max_fold (l : list Q) : forall m0,
  exists m, fold_left (fun a v => if gt_num v a then Fin v else a) l (Fin m0) = Fin m /\
            m0 <= m /\ (forall v, In v l -> v <= m) /\ (m = m0 \/ In m l).
Proof.
  induction l as [| v l IH]; intro m0; simpl.
  - exists m0. repeat split; [lra | contradiction | now left].
  - destruct (Qltb m0 v) eqn:E.
    + apply Qltb_true in E. destruct (IH v) as (m & Hm & Hle & Hall & Hor).
      exists m. repeat split; [assumption | lra | |].
      * intros w [<- | Hw]; [assumption | now apply Hall].
      * right. destruct Hor as [-> | Hin]; auto.
    + apply Qltb_false in E. destruct (IH m0) as (m & Hm & Hle & Hall & Hor).
      exists m. repeat split; [assumption | assumption | |].
      * intros w [<- | Hw]; [lra | now apply Hall].
      * destruct Hor as [-> | Hin]; auto.
Qed.

Lemma Math_max_nonempty (l : list Q) :
  l <> [] ->
  exists m, Math_max l = Fin m /\ In m l /\ forall v, In v l -> v <= m.
Proof.
  destruct l as [| v l]; [congruence | intros _].
  unfold Math_max. simpl.
  destruct (Math_max_fold l v) as (m & Hm & Hle & Hall & Hor).
  exists m. split; [assumption |]. split.
  - destruct Hor as [-> | Hin]; [now left | now right].
  - intros w [<- | Hw]; [assumption | now apply Hall].
Qed.

Lemma allSizes_positive (charts : list ChartData.t) (s : Q) :
  In s (allSizes charts) -> 0 < s.
Proof.
  unfold allSizes. intro H. apply in_flat_map in H. destruct H as (c & _ & H).
  apply in_flat_map in H. destruct H as (p & _ & H).
  destruct (Point.size p) as [q |]; [| contradiction].
  destruct (negb (Qeq_bool q 0) && Qltb 0 q) eqn:E; [| contradiction].
  destruct H as [<- | []]. apply andb_true_iff in E. now apply Qltb_true.
Qed.

(** The buckets cover the sizes up to five times their number. *)
Lemma numBuckets_covers (sizes : list Q) :
  sizes <> [] -> (forall s, In s sizes -> 0 < s) ->
  (1 <= numBucketsOf sizes)%Z /\
  inject_Z (Z.of_nat (Z.to_nat (numBucketsOf sizes))) = inject_Z (numBucketsOf sizes) /\
  (forall s, In s sizes -> s <= inject_Z (numBucketsOf sizes) * 5) /\
  (forall s, In s sizes -> s == inject_Z (numBucketsOf sizes) * 5 ->
             forall v, In v sizes -> v <= s).
Proof.
  intros N Pos.
  destruct (Math_max_nonempty sizes N) as (m & Em & Im & Hm).
  unfold numBucketsOf. rewrite Em. cbn [valueOf]. unfold bucketSize.
  pose proof (Pos m Im) as Pm.
  pose proof (Qle_ceiling (m / 5)) as C.
  assert (E : m / 5 * 5 == m) by field.
  assert (P1 : (1 <= Qceiling (m / 5))%Z).
  { assert (A : 0 < inject_Z (Qceiling (m / 5))) by nra.
    change 0 with (inject_Z 0) in A. rewrite <- Zlt_Qlt in A. lia. }
  split; [exact P1 |]. split; [rewrite Z2Nat.id by lia; reflexivity |].
  split.
  - intros s Hs. pose proof (Hm s Hs). nra.
  - intros s Hs Es v Hv. pose proof (Hm v Hv). nra.
Qed.

Lemma sizeBuckets_list (charts : list ChartData.t) :
  allSizes charts <> [] ->
  sizeBuckets charts
  = map (fun i => SizeBucket.mk (countIn (allSizes charts) i)
                    (inject_Z (Z.of_nat i) * bucketSize)
                    ((inject_Z (Z.of_nat i) + 1) * bucketSize))
        (filter (fun i => (0 <? countIn (allSizes charts) i)%nat)
                (seq 0 (Z.to_nat (numBucketsOf (allSizes charts))))).
Proof.
  intro N. unfold sizeBuckets.
  destruct (allSizes charts) as [| s l] eqn:E; [congruence |].
  cbn [length Nat.eqb]. apply flat_map_optional. intros i _. reflexivity.
Qed.

Lemma StronglySorted_filter_seq (g : nat -> bool) (s n : nat) :
  StronglySorted lt (filter g (seq s n)).
Proof.
  revert s. induction n as [| n IH]; intro s; simpl; [constructor |].
  destruct (g s); [| apply IH].
  constructor; [apply IH |].
  apply Forall_forall. intros x Hx. apply filter_In in Hx.
  destruct Hx as [Hx _]. apply in_seq in Hx. lia.
Qed.

Lemma StronglySorted_map {A B : Type} (R : A -> A -> Prop) (S : B -> B -> Prop)
    (f : A -> B) (l : list A) :
  (forall x y, R x y -> S (f x) (f y)) ->
  StronglySorted R l -> StronglySorted S (map f l).
Proof.
  intros Hf H. induction H as [| a l Hl IH Ha]; simpl; constructor; [exact IH |].
  apply Forall_forall. intros y Hy. apply in_map_iff in Hy.
  destruct Hy as (x & <- & Hx). apply Hf. rewrite Forall_forall in Ha. now apply Ha.
Qed.

(** X14.  Every bucket of the size heatmap holds at least one trade, spans
    five units starting at a multiple of five, and counts exactly the
    positive sizes within its half-open range; the buckets are listed by
    strictly increasing lower bound, and there is none when no point has a
    positive size. *)
Theorem sizeBuckets_structure (charts : list ChartData.t) :
  (allSizes charts = [] -> sizeBuckets charts = []) /\
  (forall b, In b (sizeBuckets charts) ->
     (0 < SizeBucket.count b)%nat /\
     SizeBucket.maxSize b == SizeBucket.minSize b + 5 /\
     (exists i : nat, SizeBucket.minSize b == inject_Z (Z.of_nat i) * 5) /\
     SizeBucket.count b
     = length (filter (fun s => Qle_bool (SizeBucket.minSize b) s
                                && Qltb s (SizeBucket.maxSize b))
                      (allSizes charts))) /\
  StronglySorted bucketBefore (sizeBuckets charts).
Proof.
  split; [intro E; unfold sizeBuckets; rewrite E; reflexivity |].
  destruct (allSizes charts) as [| s0 l0] eqn:E.
  { unfold sizeBuckets. rewrite E. simpl. split; [contradiction | constructor]. }
  assert (N : allSizes charts <> []) by (rewrite E; discriminate).
  rewrite <- E. rewrite (sizeBuckets_list charts N). split.
  - intros b Hb. apply in_map_iff in Hb. destruct Hb as (i & <- & Hi).
    apply filter_In in Hi. destruct Hi as [_ Hi]. apply Nat.ltb_lt in Hi.
    cbn [SizeBucket.count SizeBucket.minSize SizeBucket.maxSize]. unfold bucketSize.
    repeat split; [exact Hi | ring | exists i; reflexivity].
  - apply (StronglySorted_map lt bucketBefore); [| apply StronglySorted_filter_seq].
    intros x y Hxy. unfold bucketBefore, bucketSize.
    cbn [SizeBucket.minSize].
    assert (A : inject_Z (Z.of_nat x) < inject_Z (Z.of_nat y)) by (rewrite <- Zlt_Qlt; lia).
    lra.
Qed.

Lemma totalTrades_sum (bs : list SizeBucket.t) :
  totalTrades bs = sumOf (map SizeBucket.count bs).
Proof.
  unfold totalTrades.
  assert (G : forall acc, fold_left (fun sum b => (sum + SizeBucket.count b)%nat) bs acc
                          = (acc + sumOf (map SizeBucket.count bs))%nat).
  { induction bs as [| b bs IH]; intro acc; simpl; [lia |]. rewrite IH. lia. }
  apply G.
Qed.

(** Dropping the empty buckets does not change the total. *)
Lemma sum_nonzero_counts (f : nat -> nat) (l : list nat) :
  sumOf (map f (filter (fun i => (0 <? f i)%nat) l)) = sumOf (map f l).
Proof.
  induction l as [| i l IH]; simpl; [reflexivity |].
  destruct (0 <? f i)%nat eqn:E; simpl; rewrite IH; [reflexivity |].
  apply Nat.ltb_ge in E. lia.
Qed.

Lemma inBucket_step (s : Q) (n : nat) :
  Qltb s (inject_Z (Z.of_nat (S n)) * 5)
  = Qltb s (inject_Z (Z.of_nat n) * 5) || inBucket n s /\
  Qltb s (inject_Z (Z.of_nat n) * 5) && inBucket n s = false.
Proof.
  assert (E : inject_Z (Z.of_nat (S n)) == inject_Z (Z.of_nat n) + 1).
  { rewrite Nat2Z.inj_succ. unfold Z.succ. rewrite inject_Z_plus. reflexivity. }
  unfold inBucket, bucketSize. cbv zeta.
  destruct (Qltb s (inject_Z (Z.of_nat (S n)) * 5)) eqn:B3;
    destruct (Qltb s (inject_Z (Z.of_nat n) * 5)) eqn:B1;
    destruct (Qle_bool (inject_Z (Z.of_nat n) * 5) s) eqn:B2;
    destruct (Qltb s ((inject_Z (Z.of_nat n) + 1) * 5)) eqn:B4;
    cbn [orb andb]; split; try reflexivity; exfalso;
    try (apply Qltb_true in B3); try (apply Qltb_false in B3);
    try (apply Qltb_true in B1); try (apply Qltb_false in B1);
    try (apply Qltb_true in B4); try (apply Qltb_false in B4);
    try (apply Qle_bool_iff in B2);
    try (assert (B2' : ~ inject_Z (Z.of_nat n) * 5 <= s)
           by (intro H; apply Qle_bool_iff in H; congruence));
    rewrite ?E in B3; try lra; apply B2'; lra.
Qed.

(** A non-negative size below 5n falls in exactly one of the first n
    buckets, and a size from 5n on in none. *)
Lemma buckets_of_size (s : Q) (n : nat) :
  0 <= s ->
  sumOf (map (fun i => if inBucket i s then 1%nat else 0%nat) (seq 0 n))
  = if Qltb s (inject_Z (Z.of_nat n) * 5) then 1%nat else 0%nat.
Proof.
  intro Hs. induction n as [| n IH].
  - replace (Qltb s (inject_Z (Z.of_nat 0) * 5)) with false; [reflexivity |].
    symmetry. apply Qltb_false. change (inject_Z (Z.of_nat 0)) with 0. lra.
  - rewrite seq_S, map_app.
    assert (A : forall l1 l2, sumOf (l1 ++ l2) = (sumOf l1 + sumOf l2)%nat).
    { induction l1 as [| a l1 IH1]; intro l2; simpl; [reflexivity |]. rewrite IH1. lia. }
    rewrite A, IH.
    destruct (inBucket_step s n) as [E1 E2]. rewrite E1.
    change (0 + n)%nat with n.
    change (sumOf (map (fun i => if inBucket i s then 1%nat else 0%nat) [n]))
      with ((if inBucket n s then 1 else 0) + 0)%nat.
    destruct (Qltb s (inject_Z (Z.of_nat n) * 5)); destruct (inBucket n s);
      cbn [orb andb] in *; try reflexivity; discriminate.
Qed.

Lemma sum_counts (sizes : list Q) (n : nat) :
  (forall s, In s sizes -> 0 <= s) ->
  sumOf (map (countIn sizes) (seq 0 n))
  = length (filter (fun s => Qltb s (inject_Z (Z.of_nat n) * 5)) sizes).
Proof.
  induction sizes as [| s l IH]; intro Pos.
  - unfold countIn. simpl. induction (seq 0 n); simpl; auto.
  - assert (Pl : forall v, In v l -> 0 <= v) by (intros v Hv; apply Pos; now right).
    assert (Ps : 0 <= s) by (apply Pos; now left).
    assert (Split : forall js,
               sumOf (map (countIn (s :: l)) js)
               = (sumOf (map (fun i => if inBucket i s then 1%nat else 0%nat) js)
                  + sumOf (map (countIn l) js))%nat).
    { induction js as [| i js IHi]; simpl; [reflexivity |].
      rewrite IHi. unfold countIn. simpl. destruct (inBucket i s); simpl; lia. }
    rewrite Split, (IH Pl), (buckets_of_size s n Ps). simpl.
    destruct (Qltb s (inject_Z (Z.of_nat n) * 5)); simpl; lia.
Qed.

Lemma filter_split_length {A : Type} (f g : A -> bool) (l : list A) :
  (forall a, In a l -> f a = negb (g a)) ->
  (length (filter f l) + length (filter g l))%nat = length l.
Proof.
  induction l as [| a l IH]; intro H; simpl; [reflexivity |].
  rewrite (H a (or_introl eq_refl)).
  assert (IH' := IH (fun b Hb => H b (or_intror Hb))).
  destruct (g a); simpl; lia.
Qed.

(** X15.  The total over the buckets of the size heatmap counts every
    positive size except the sizes that equal the upper bound of the last
    bucket: such a size is the greatest one, a multiple of five, and the
    half-open buckets leave it out, so "Total trades" is the number of
    positive sizes minus the number of those. *)
Theorem sizeBuckets_total (charts : list ChartData.t) :
  (forall s, In s (allSizes charts) ->
     0 < s <= inject_Z (numBucketsOf (allSizes charts)) * 5 /\
     (s == inject_Z (numBucketsOf (allSizes charts)) * 5 ->
      (forall v, In v (allSizes charts) -> v <= s) /\
      forall b, In b (sizeBuckets charts) -> SizeBucket.maxSize b <= s)) /\
  (totalTrades (sizeBuckets charts)
   + length (filter (fun s => Qeq_bool s (inject_Z (numBucketsOf (allSizes charts)) * 5))
               (allSizes charts)))%nat
  = length (allSizes charts).
Proof.
  destruct (allSizes charts) as [| s0 l0] eqn:E.
  { split; [contradiction |]. unfold sizeBuckets. rewrite E. reflexivity. }
  assert (N : allSizes charts <> []) by (rewrite E; discriminate).
  rewrite <- E.
  destruct (numBuckets_covers (allSizes charts) N (allSizes_positive charts))
    as (P1 & En & Cov & Top).
  split.
  - intros s Hs. split; [split; [now apply (allSizes_positive charts) | now apply Cov] |].
    intro Es. split; [now apply Top |].
    intros b Hb. rewrite (sizeBuckets_list charts N) in Hb.
    apply in_map_iff in Hb. destruct Hb as (i & <- & Hi).
    apply filter_In in Hi. destruct Hi as [Hi _]. apply in_seq in Hi.
    cbn [SizeBucket.maxSize]. unfold bucketSize. rewrite Es, <- En.
    assert (A : inject_Z (Z.of_nat i) + 1
                <= inject_Z (Z.of_nat (Z.to_nat (numBucketsOf (allSizes charts))))).
    { change 1 with (inject_Z 1). rewrite <- inject_Z_plus, <- Zle_Qle. lia. }
    lra.
  - rewrite totalTrades_sum, (sizeBuckets_list charts N), map_map.
    cbn [SizeBucket.count].
    rewrite (sum_nonzero_counts (countIn (allSizes charts))).
    rewrite sum_counts by (intros s Hs; apply Qlt_le_weak, (allSizes_positive charts s Hs)).
    rewrite En. apply filter_split_length.
    intros s Hs. pose proof (Cov s Hs) as C.
    destruct (Qeq_bool s (inject_Z (numBucketsOf (allSizes charts)) * 5)) eqn:Q; simpl.
    + apply Qeq_bool_iff in Q. apply Qltb_false. lra.
    + apply Qltb_true.
      assert (Ne : ~ s == inject_Z (numBucketsOf (allSizes charts)) * 5).
      { intro H. apply Qeq_bool_iff in H. congruence. }
      destruct (Qlt_le_dec s (inject_Z (numBucketsOf (allSizes charts)) * 5)) as [L | L];
        [exact L | exfalso; apply Ne; lra].
Qed.


(** ** [TradeAnalysis] *)

Lemma lowestPoint_fold (rest : list Point.t) : forall m,
  (fold_left (fun min point => if Qltb (Point.y point) (Point.y min) then point else min)
             rest m = m \/
   In (fold_left (fun min point => if Qltb (Point.y point) (Point.y min) then point else min)
                 rest m) rest) /\
  Point.y (fold_left (fun min point => if Qltb (Point.y point) (Point.y min) then point else min)
                     rest m) <= Point.y m /\
  forall q, In q rest ->
    Point.y (fold_left (fun min point => if Qltb (Point.y point) (Point.y min) then point else min)
                       rest m) <= Point.y q.
Proof.
  induction rest as [| p rest IH]; intro m; simpl.
  - repeat split; [now left | lra | contradiction].
  - destruct (Qltb (Point.y p) (Point.y m)) eqn:E.
    + apply Qltb_true in E. destruct (IH p) as (Hin & Hle & Hall).
      repeat split.
      * right. destruct Hin as [-> | Hin]; auto.
      * lra.
      * intros q [<- | Hq]; [assumption | now apply Hall].
    + apply Qltb_false in E. destruct (IH m) as (Hin & Hle & Hall).
      repeat split.
      * destruct Hin as [Hin | Hin]; auto.
      * assumption.
      * intros q [<- | Hq]; [lra | now apply Hall].
Qed.

Lemma lowestPoint_spec (first : Point.t) (rest : list Point.t) :
  In (lowestPoint first rest) (first :: rest) /\
  forall q, In q (first :: rest) -> Point.y (lowestPoint first rest) <= Point.y q.
Proof.
  unfold lowestPoint. destruct (lowestPoint_fold rest first) as (Hin & Hle & Hall).
  split.
  - destruct Hin as [-> | Hin]; [now left | now right].
  - intros q [<- | Hq]; [assumption | now apply Hall].
Qed.

Lemma scanChart_inv (assetId : string) (ts : Q) (cs : list AnalysisChart.t)
    (st : Scan) (c : AnalysisChart.t) :
  ScanInv assetId ts cs st -> ScanInv assetId ts (cs ++ [c]) (scanChart assetId ts st c).
Proof.
  unfold ScanInv, scanChart. intro H.
  destruct (futurePoints c assetId ts) as [| first rest] eqn:F.
  - cbn [lowestPriceFound lowestPriceTimestamp totalMarkets].
    destruct (lowestPriceFound st) as [l |], (lowestPriceTimestamp st) as [t |];
      try contradiction.
    + destruct H as (Pos & (c0 & q & Hc & Hq & Ey & Ex) & Min).
      split; [exact Pos |]. split.
      * exists c0, q. repeat split; try assumption. apply in_or_app. now left.
      * intros c1 q1 Hc1 Hq1. apply in_app_or in Hc1.
        destruct Hc1 as [Hc1 | [<- | []]]; [now apply (Min c1) |].
        rewrite F in Hq1. contradiction.
    + destruct H as (Z & E). split; [exact Z |].
      intros c1 Hc1. apply in_app_or in Hc1.
      destruct Hc1 as [Hc1 | [<- | []]]; [now apply E | exact F].
  - destruct (lowestPoint_spec first rest) as (Lin & Lmin).
    rewrite <- F in Lin, Lmin. cbv zeta.
    destruct (lowestPriceFound st) as [l |] eqn:El,
             (lowestPriceTimestamp st) as [t |] eqn:Et; try contradiction.
    + destruct H as (Pos & (c0 & q & Hc & Hq & Ey & Ex) & Min).
      destruct (Qltb (Point.y (lowestPoint first rest)) l) eqn:B;
        cbn [lowestPriceFound lowestPriceTimestamp totalMarkets]; rewrite ?El, ?Et.
      * apply Qltb_true in B. split; [lia |]. split.
        -- exists c, (lowestPoint first rest). repeat split; try assumption.
           apply in_or_app. right. now left.
        -- intros c1 q1 Hc1 Hq1. apply in_app_or in Hc1.
           destruct Hc1 as [Hc1 | [<- | []]].
           ++ pose proof (Min c1 q1 Hc1 Hq1). lra.
           ++ now apply Lmin.
      * apply Qltb_false in B. split; [lia |]. split.
        -- exists c0, q. repeat split; try assumption. apply in_or_app. now left.
        -- intros c1 q1 Hc1 Hq1. apply in_app_or in Hc1.
           destruct Hc1 as [Hc1 | [<- | []]].
           ++ now apply (Min c1).
           ++ pose proof (Lmin q1 Hq1). lra.
    + destruct H as (Z & E).
      cbn [lowestPriceFound lowestPriceTimestamp totalMarkets].
      split; [lia |]. split.
      * exists c, (lowestPoint first rest). repeat split; try assumption.
        apply in_or_app. right. now left.
      * intros c1 q1 Hc1 Hq1. apply in_app_or in Hc1.
        destruct Hc1 as [Hc1 | [<- | []]].
        -- rewrite (E c1 Hc1) in Hq1. contradiction.
        -- now apply Lmin.
Qed.

Lemma scanCharts_inv (charts : list AnalysisChart.t) (assetId : string) (ts : Q) :
  ScanInv assetId ts (matchingCharts charts assetId) (scanCharts charts assetId ts).
Proof.
  unfold scanCharts.
  assert (G : forall cs cs0 st, ScanInv assetId ts cs0 st ->
                ScanInv assetId ts (cs0 ++ cs) (fold_left (scanChart assetId ts) cs st)).
  { induction cs as [| c cs IH]; intros cs0 st H; simpl.
    - now rewrite app_nil_r.
    - replace (cs0 ++ c :: cs) with ((cs0 ++ [c]) ++ cs)
        by (rewrite <- app_assoc; reflexivity).
      apply IH. now apply scanChart_inv. }
  apply (G (matchingCharts charts assetId) [] (mkScan 0 None None "")).
  unfold ScanInv. simpl. split; [reflexivity | contradiction].
Qed.

Lemma insertByTimestamp_perm (x : TradeAnalysisData.t) (l : list TradeAnalysisData.t) :
  Permutation (x :: l) (insertByTimestamp x l).
Proof.
  induction l as [| y l IH]; simpl; [reflexivity |].
  destruct (Qle_bool (TradeAnalysisData.tradeTimestamp x)
                     (TradeAnalysisData.tradeTimestamp y)); [| reflexivity].
  rewrite perm_swap. now apply perm_skip.
Qed.

Lemma insertByTimestamp_sorted (x : TradeAnalysisData.t) (l : list TradeAnalysisData.t) :
  StronglySorted notBefore l -> StronglySorted notBefore (insertByTimestamp x l).
Proof.
  intro H. induction H as [| y l Hl IH Hy]; simpl.
  - constructor; constructor.
  - destruct (Qle_bool (TradeAnalysisData.tradeTimestamp x)
                       (TradeAnalysisData.tradeTimestamp y)) eqn:E.
    + apply Qle_bool_iff in E. constructor; [exact IH |].
      apply Forall_forall. intros z Hz.
      apply (Permutation_in _ (Permutation_sym (insertByTimestamp_perm x l))) in Hz.
      destruct Hz as [<- | Hz]; [exact E |].
      rewrite Forall_forall in Hy. now apply Hy.
    + assert (L : TradeAnalysisData.tradeTimestamp y < TradeAnalysisData.tradeTimestamp x).
      { apply Qnot_le_lt. intro C. apply Qle_bool_iff in C. congruence. }
      constructor; [now constructor |].
      apply Forall_forall. intros z [<- | Hz]; unfold notBefore; [lra |].
      rewrite Forall_forall in Hy. pose proof (Hy z Hz) as Hzy. unfold notBefore in Hzy. lra.
Qed.

Lemma sortByTimestampDesc_spec (l : list TradeAnalysisData.t) :
  Permutation l (sortByTimestampDesc l) /\
  StronglySorted notBefore (sortByTimestampDesc l).
Proof.
  unfold sortByTimestampDesc.
  assert (G : forall l acc, StronglySorted notBefore acc ->
                Permutation (l ++ acc) (fold_left (fun a x => insertByTimestamp x a) l acc) /\
                StronglySorted notBefore (fold_left (fun a x => insertByTimestamp x a) l acc)).
  { induction l0 as [| x l0 IH]; intros acc H; simpl.
    - split; [reflexivity | exact H].
    - destruct (IH (insertByTimestamp x acc) (insertByTimestamp_sorted x acc H)) as [P S].
      split; [| exact S].
      rewrite <- P. rewrite <- (insertByTimestamp_perm x acc).
      apply Permutation_middle. }
  destruct (G l [] (SSorted_nil _)) as [P S]. rewrite app_nil_r in P. now split.
Qed.

(** The entry pushed for a trade. *)
Lemma analyzeTrade_entry (parseInt : string -> Q) (charts : list AnalysisChart.t)
    (trade : MyTradeRow.t) (r : TradeAnalysisData.t) :
  In r (analyzeTrade parseInt charts trade) ->
  exists l t,
    lowestPriceFound (scanCharts charts (MyTradeRow.assetId trade)
                        (parseInt (MyTradeRow.timeStamp trade))) = Some l /\
    lowestPriceTimestamp (scanCharts charts (MyTradeRow.assetId trade)
                            (parseInt (MyTradeRow.timeStamp trade))) = Some t /\
    r = TradeAnalysisData.mk (MyTradeRow.assetId trade) (MyTradeRow.price trade)
          (parseInt (MyTradeRow.timeStamp trade)) (MyTradeRow.outcome trade) l t
          (if Qltb l (MyTradeRow.price trade)
           then (MyTradeRow.price trade - l) / MyTradeRow.price trade * 100
           else 0)
          (chartTitle (scanCharts charts (MyTradeRow.assetId trade)
                         (parseInt (MyTradeRow.timeStamp trade)))).
Proof.
  unfold analyzeTrade. cbv zeta.
  destruct (lowestPriceFound _) as [l |]; [| contradiction].
  destruct (lowestPriceTimestamp _) as [t |]; [| contradiction].
  destruct (0 <? totalMarkets _)%nat; [| contradiction].
  intros [<- | []]. exists l, t. repeat split.
Qed.

Lemma savings_range (price l : Q) :
  (1 # 10) <= l ->
  0 <= (if Qltb l price then (price - l) / price * 100 else 0) < 100 /\
  ((if Qltb l price then (price - l) / price * 100 else 0) == 0 <-> price <= l).
Proof.
  intro Hl. destruct (Qltb l price) eqn:E.
  - apply Qltb_true in E.
    set (u := (price - l) / price).
    assert (U : u * price == price - l) by (unfold u; field; lra).
    assert (U0 : 0 < u).
    { destruct (Qlt_le_dec 0 u) as [L | L]; [exact L | exfalso; nra]. }
    assert (U1 : u < 1).
    { destruct (Qlt_le_dec u 1) as [L | L]; [exact L | exfalso; nra]. }
    split; [split; lra |]. split; intro H; exfalso; lra.
  - apply Qltb_false in E. split; [split; lra |]. split; intro; [exact E | reflexivity].
Qed.

(** The savings of every entry lie in [0, 100). *)
Lemma analysis_entry_range (myTrades : list MyTradeRow.t) (parseInt : string -> Q)
    (charts : list AnalysisChart.t) (targetPrice : Q) (r : TradeAnalysisData.t) :
  In r (analysisData myTrades parseInt charts targetPrice) ->
  0 <= TradeAnalysisData.percentageSavings r /\
  TradeAnalysisData.percentageSavings r < 100.
Proof.
  unfold analysisData. cbv zeta. intro H.
  apply (Permutation_in _ (Permutation_sym (proj1 (sortByTimestampDesc_spec _)))) in H.
  apply in_flat_map in H. destruct H as (trade & _ & Hr).
  apply analyzeTrade_entry in Hr. destruct Hr as (l & t & El & Et & ->).
  pose proof (scanCharts_inv charts (MyTradeRow.assetId trade)
                (parseInt (MyTradeRow.timeStamp trade))) as Inv.
  unfold ScanInv in Inv. rewrite El, Et in Inv.
  destruct Inv as (_ & (c & q & _ & Hq & Ey & _) & _).
  unfold futurePoints in Hq. apply filter_In in Hq.
  destruct Hq as [_ Hf]. apply andb_true_iff in Hf. destruct Hf as [_ F2].
  apply Qle_bool_iff in F2. rewrite Ey in F2.
  cbn [TradeAnalysisData.percentageSavings].
  assert (F3 : (1 # 10) <= l) by lra.
  destruct (savings_range (MyTradeRow.price trade) l F3) as [[A B] _]. now split.
Qed.

(** X16.  Every entry of the trade analysis comes from one of my trades at
    the target price and reports the least price, at least 0.10, among the
    points after the trade on the traded side of the charts of its asset,
    with the time of a point at that price, later than the trade; the
    percentage savings lie in [0, 100) and are 0 exactly when the trade
    price is not above that least price. *)
Theorem analysis_entry_facts (myTrades : list MyTradeRow.t) (parseInt : string -> Q)
    (charts : list AnalysisChart.t) (targetPrice : Q) (r : TradeAnalysisData.t) :
  In r (analysisData myTrades parseInt charts targetPrice) ->
  exists trade chart point,
    (In trade myTrades /\ MyTradeRow.price trade == targetPrice /\
     TradeAnalysisData.assetId r = MyTradeRow.assetId trade /\
     TradeAnalysisData.tradePrice r = MyTradeRow.price trade /\
     TradeAnalysisData.tradeTimestamp r = parseInt (MyTradeRow.timeStamp trade) /\
     TradeAnalysisData.outcome r = MyTradeRow.outcome trade) /\
    (In chart charts /\
     isAsset (AnalysisChart.upAssetId chart) (TradeAnalysisData.assetId r)
     || isAsset (AnalysisChart.downAssetId chart) (TradeAnalysisData.assetId r) = true /\
     In point (futurePoints chart (TradeAnalysisData.assetId r)
                 (TradeAnalysisData.tradeTimestamp r)) /\
     TradeAnalysisData.lowestPriceAfterTrade r = Point.y point /\
     TradeAnalysisData.lowestPriceTimestamp r = Point.x point) /\
    (forall chart' point',
       In chart' charts ->
       isAsset (AnalysisChart.upAssetId chart') (TradeAnalysisData.assetId r)
       || isAsset (AnalysisChart.downAssetId chart') (TradeAnalysisData.assetId r) = true ->
       In point' (futurePoints chart' (TradeAnalysisData.assetId r)
                    (TradeAnalysisData.tradeTimestamp r)) ->
       TradeAnalysisData.lowestPriceAfterTrade r <= Point.y point') /\
    (TradeAnalysisData.tradeTimestamp r < TradeAnalysisData.lowestPriceTimestamp r /\
     0.10 <= TradeAnalysisData.lowestPriceAfterTrade r) /\
    (0 <= TradeAnalysisData.percentageSavings r < 100 /\
     (TradeAnalysisData.percentageSavings r == 0 <->
      TradeAnalysisData.tradePrice r <= TradeAnalysisData.lowestPriceAfterTrade r)).
Proof.
  unfold analysisData. cbv zeta. intro H.
  apply (Permutation_in _ (Permutation_sym (proj1 (sortByTimestampDesc_spec _)))) in H.
  apply in_flat_map in H. destruct H as (trade & Ht & Hr).
  apply filter_In in Ht. destruct Ht as [Ht Hp]. apply Qeq_bool_iff in Hp.
  apply analyzeTrade_entry in Hr. destruct Hr as (l & t & El & Et & ->).
  pose proof (scanCharts_inv charts (MyTradeRow.assetId trade)
                (parseInt (MyTradeRow.timeStamp trade))) as Inv.
  unfold ScanInv in Inv. rewrite El, Et in Inv.
  destruct Inv as (_ & (c & q & Hc & Hq & Ey & Ex) & Min).
  unfold matchingCharts in Hc. apply filter_In in Hc. destruct Hc as [Hc Hm].
  pose proof Hq as Hq'. unfold futurePoints in Hq'. apply filter_In in Hq'.
  destruct Hq' as [_ Hf]. apply andb_true_iff in Hf. destruct Hf as [F1 F2].
  apply Qltb_true in F1. apply Qle_bool_iff in F2.
  cbn [TradeAnalysisData.assetId TradeAnalysisData.tradePrice
       TradeAnalysisData.tradeTimestamp TradeAnalysisData.outcome
       TradeAnalysisData.lowestPriceAfterTrade TradeAnalysisData.lowestPriceTimestamp
       TradeAnalysisData.percentageSavings].
  exists trade, c, q.
  split; [repeat split; assumption |].
  split; [repeat split; try assumption; symmetry; assumption |].
  split.
  { intros c' q' Hc' Hm' Hq'. apply (Min c' q'); [| exact Hq'].
    unfold matchingCharts. apply filter_In. now split. }
  rewrite <- Ey, <- Ex.
  split; [split; assumption |].
  apply savings_range. lra.
Qed.

Lemma analysis_entry_facts_witness :
  exists r,
    In r (analysisData myTrades0 parseInt0 [analysisChart0] 0.15) /\
    (0 <= TradeAnalysisData.percentageSavings r < 100).
Proof.
  destruct (analysisData myTrades0 parseInt0 [analysisChart0] 0.15) as [| r l] eqn:E;
    [vm_compute in E; discriminate E |].
  assert (H : In r (analysisData myTrades0 parseInt0 [analysisChart0] 0.15))
    by (rewrite E; left; reflexivity).
  exists r. split; [left; reflexivity |].
  destruct (analysis_entry_facts myTrades0 parseInt0 [analysisChart0] 0.15 r H)
    as (trade & chart & point & _ & _ & _ & _ & S).
  exact (proj1 S).
Defined.

Lemma orZero_id (v : Q) : orZero v == v.
Proof.
  unfold orZero. destruct (Qeq_bool v 0) eqn:E; [| reflexivity].
  apply Qeq_bool_iff in E. now rewrite E.
Qed.

(** The sum of [overallStats] over entries whose savings lie in [0, 100). *)
Lemma totalSavings_range (data : list TradeAnalysisData.t) :
  (forall r, In r data -> 0 <= TradeAnalysisData.percentageSavings r < 100) ->
  forall acc,
    acc <= fold_left (fun sum trade => sum + orZero (TradeAnalysisData.percentageSavings trade))
                     data acc
        <= acc + 100 * inject_Z (Z.of_nat (length data)) /\
    (data <> [] ->
     fold_left (fun sum trade => sum + orZero (TradeAnalysisData.percentageSavings trade))
               data acc
     < acc + 100 * inject_Z (Z.of_nat (length data))).
Proof.
  induction data as [| r data IH]; intros H acc.
  - simpl. change (inject_Z 0) with 0. split; [split; lra | congruence].
  - assert (Hr : 0 <= TradeAnalysisData.percentageSavings r < 100)
      by (apply H; now left).
    assert (Hd : forall x, In x data -> 0 <= TradeAnalysisData.percentageSavings x < 100)
      by (intros x Hx; apply H; now right).
    destruct (IH Hd (acc + orZero (TradeAnalysisData.percentageSavings r))) as [[L U] _].
    pose proof (orZero_id (TradeAnalysisData.percentageSavings r)) as Z.
    assert (E : inject_Z (Z.of_nat (length (r :: data)))
                == inject_Z (Z.of_nat (length data)) + 1).
    { cbn [length]. rewrite Nat2Z.inj_succ. unfold Z.succ. rewrite inject_Z_plus.
      reflexivity. }
    cbn [fold_left]. rewrite E. split; [split | intros _]; lra.
Qed.

(** A trade gives at most one entry. *)
Lemma analyzeTrade_length (parseInt : string -> Q) (charts : list AnalysisChart.t)
    (l : list MyTradeRow.t) :
  (length (flat_map (analyzeTrade parseInt charts) l) <= length l)%nat.
Proof.
  induction l as [| t l IH]; simpl; [lia |].
  rewrite length_app.
  assert (L : (length (analyzeTrade parseInt charts t) <= 1)%nat).
  { unfold analyzeTrade. cbv zeta.
    destruct (lowestPriceFound _); [| simpl; lia].
    destruct (lowestPriceTimestamp _); [| simpl; lia].
    destruct (0 <? totalMarkets _)%nat; simpl; lia. }
  lia.
Qed.

(** X17.  The analysis lists the entries most recent first and only
    reorders them: it holds exactly the entries found for my trades at the
    target price.  Its average savings lie in [0, 100), the number of
    trades is the number of entries, and both are 0 when there is no
    entry. *)
Theorem analysis_sorted_and_stats (myTrades : list MyTradeRow.t)
    (parseInt : string -> Q) (charts : list AnalysisChart.t) (targetPrice : Q) :
  StronglySorted notBefore (analysisData myTrades parseInt charts targetPrice) /\
  Permutation
    (flat_map (analyzeTrade parseInt charts)
       (filter (fun trade => Qeq_bool (MyTradeRow.price trade) targetPrice) myTrades))
    (analysisData myTrades parseInt charts targetPrice) /\
  (length (analysisData myTrades parseInt charts targetPrice)
   <= length (filter (fun trade => Qeq_bool (MyTradeRow.price trade) targetPrice)
                myTrades))%nat /\
  snd (overallStats (analysisData myTrades parseInt charts targetPrice))
  = length (analysisData myTrades parseInt charts targetPrice) /\
  0 <= fst (overallStats (analysisData myTrades parseInt charts targetPrice)) < 100 /\
  (analysisData myTrades parseInt charts targetPrice = [] ->
   overallStats (analysisData myTrades parseInt charts targetPrice) = (0, 0%nat)).
Proof.
  destruct (sortByTimestampDesc_spec
              (flat_map (analyzeTrade parseInt charts)
                 (filter (fun trade => Qeq_bool (MyTradeRow.price trade) targetPrice)
                    myTrades))) as [P S].
  fold (analysisData myTrades parseInt charts targetPrice) in P, S.
  split; [exact S |]. split; [exact P |]. split.
  { rewrite <- (Permutation_length P). apply analyzeTrade_length. }
  assert (R : forall r, In r (analysisData myTrades parseInt charts targetPrice) ->
                0 <= TradeAnalysisData.percentageSavings r < 100).
  { intros r Hr.
    destruct (analysis_entry_range myTrades parseInt charts targetPrice r Hr) as [A B].
    split; assumption. }
  unfold overallStats.
  destruct (analysisData myTrades parseInt charts targetPrice) as [| r data] eqn:E.
  - simpl. repeat split; try reflexivity; lra.
  - cbn [length Nat.eqb fst snd]. split; [reflexivity |]. split; [| discriminate].
    destruct (totalSavings_range (r :: data) R 0) as [[L U] Lt].
    specialize (Lt ltac:(discriminate)).
    set (tot := fold_left _ (r :: data) 0) in *.
    set (n := inject_Z (Z.of_nat (length (r :: data)))) in *.
    assert (Pn : 0 < n).
    { unfold n. change 0 with (inject_Z 0). rewrite <- Zlt_Qlt. cbn [length]. lia. }
    set (a := tot / n). assert (A : a * n == tot) by (unfold a; field; lra).
    split.
    + destruct (Qlt_le_dec a 0) as [C | C]; [exfalso; nra | exact C].
    + destruct (Qlt_le_dec a 100) as [C | C]; [exact C | exfalso; nra].
Qed.


(** ** [aggregateTradesByMinute] *)

Lemma lookupMinute_Some (m : list TradeMinute.t) (k : Z) (d : TradeMinute.t) :
  lookupMinute m k = Some d -> In d m /\ TradeMinute.minute d = k.
Proof.
  unfold lookupMinute. intro H. apply find_some in H.
  destruct H as [H E]. apply Z.eqb_eq in E. now split.
Qed.

Lemma lookupMinute_None (m : list TradeMinute.t) (k : Z) :
  lookupMinute m k = None <-> ~ In k (map TradeMinute.minute m).
Proof.
  unfold lookupMinute. induction m as [| d m IH]; simpl; [tauto |].
  destruct (TradeMinute.minute d =? k)%Z eqn:E.
  - apply Z.eqb_eq in E. split; [discriminate | intro H; exfalso; apply H; now left].
  - apply Z.eqb_neq in E. rewrite IH. tauto.
Qed.

Lemma lookupMinute_In (m : list TradeMinute.t) (d : TradeMinute.t) :
  NoDup (map TradeMinute.minute m) -> In d m ->
  lookupMinute m (TradeMinute.minute d) = Some d.
Proof.
  unfold lookupMinute. induction m as [| e m IH]; intros N H; [contradiction |].
  simpl in N. inversion N as [| ? ? Hn Hm]; subst. simpl.
  destruct H as [-> | H].
  - now rewrite Z.eqb_refl.
  - destruct (TradeMinute.minute e =? TradeMinute.minute d)%Z eqn:E.
    + apply Z.eqb_eq in E. exfalso. apply Hn. rewrite E. now apply in_map.
    + now apply IH.
Qed.

Lemma mapHas_lookup (m : list TradeMinute.t) (k : Z) :
  mapHas m k = match lookupMinute m k with Some _ => true | None => false end.
Proof.
  unfold mapHas, lookupMinute. induction m as [| d m IH]; simpl; [reflexivity |].
  destruct (TradeMinute.minute d =? k)%Z; simpl; [reflexivity | exact IH].
Qed.

Section MinuteMap.

Variable count : Trade.t -> TradeMinute.t -> TradeMinute.t.
Hypothesis count_minute :
  forall t d, TradeMinute.minute (count t d) = TradeMinute.minute d.

Lemma mapModify_keys (f : TradeMinute.t -> TradeMinute.t) (m : list TradeMinute.t) (k : Z) :
  (forall d, TradeMinute.minute (f d) = TradeMinute.minute d) ->
  map TradeMinute.minute (mapModify f m k) = map TradeMinute.minute m.
Proof.
  intro Hf. induction m as [| d m IH]; simpl; [reflexivity |].
  destruct (TradeMinute.minute d =? k)%Z; simpl; [now rewrite Hf | now rewrite IH].
Qed.

Lemma mapModify_lookup (f : TradeMinute.t -> TradeMinute.t) (m : list TradeMinute.t)
    (k k' : Z) :
  (forall d, TradeMinute.minute (f d) = TradeMinute.minute d) ->
  lookupMinute (mapModify f m k) k'
  = if (k' =? k)%Z then option_map f (lookupMinute m k) else lookupMinute m k'.
Proof.
  intro Hf. unfold lookupMinute. induction m as [| d m IH]; simpl.
  - destruct (k' =? k)%Z; reflexivity.
  - destruct (TradeMinute.minute d =? k)%Z eqn:E; simpl.
    + rewrite Hf. apply Z.eqb_eq in E. rewrite E.
      rewrite (Z.eqb_sym k k'). destruct (k' =? k)%Z; reflexivity.
    + apply Z.eqb_neq in E.
      destruct (TradeMinute.minute d =? k')%Z eqn:E'.
      * apply Z.eqb_eq in E'.
        replace (k' =? k)%Z with false by (symmetry; apply Z.eqb_neq; lia).
        reflexivity.
      * exact IH.
Qed.

Lemma lookupMinute_app (m : list TradeMinute.t) (d : TradeMinute.t) (k : Z) :
  lookupMinute (m ++ [d]) k
  = match lookupMinute m k with
    | Some e => Some e
    | None => if (TradeMinute.minute d =? k)%Z then Some d else None
    end.
Proof.
  unfold lookupMinute. induction m as [| e m IH]; simpl; [reflexivity |].
  destruct (TradeMinute.minute e =? k)%Z; [reflexivity | exact IH].
Qed.

(** One trade: its minute gets a value if it had none, and that value
    counts the trade; the other minutes keep their values. *)
Lemma addTrade_lookup (m : list TradeMinute.t) (t : Trade.t) (k : Z) :
  lookupMinute (addTrade count m t) k
  = if (k =? minuteOf (Trade.timestamp t))%Z
    then Some (count t match lookupMinute m k with
                       | Some d => d
                       | None => TradeMinute.mk k 0 0 0 0 0 0
                       end)
    else lookupMinute m k.
Proof.
  unfold addTrade. cbv zeta. rewrite mapModify_lookup by apply count_minute.
  rewrite mapHas_lookup.
  destruct (k =? minuteOf (Trade.timestamp t))%Z eqn:E.
  - apply Z.eqb_eq in E. subst k.
    destruct (lookupMinute m (minuteOf (Trade.timestamp t))) as [d |] eqn:L; simpl.
    + rewrite L. reflexivity.
    + unfold mapSetNew. rewrite lookupMinute_app, L. simpl.
      now rewrite Z.eqb_refl.
  - apply Z.eqb_neq in E.
    destruct (lookupMinute m (minuteOf (Trade.timestamp t))) as [d |]; simpl;
      [reflexivity |].
    unfold mapSetNew. rewrite lookupMinute_app. simpl.
    replace (minuteOf (Trade.timestamp t) =? k)%Z with false
      by (symmetry; apply Z.eqb_neq; lia).
    destruct (lookupMinute m k); reflexivity.
Qed.

Lemma addTrade_NoDup (m : list TradeMinute.t) (t : Trade.t) :
  NoDup (map TradeMinute.minute m) ->
  NoDup (map TradeMinute.minute (addTrade count m t)).
Proof.
  intro N. unfold addTrade. cbv zeta.
  rewrite mapModify_keys by apply count_minute.
  rewrite mapHas_lookup.
  destruct (lookupMinute m (minuteOf (Trade.timestamp t))) as [d |] eqn:L; simpl;
    [exact N |].
  unfold mapSetNew. rewrite map_app. simpl.
  apply lookupMinute_None in L.
  apply NoDup_app; [exact N | constructor; [tauto | constructor] |].
  intros x Hx [<- | []]. contradiction.
Qed.

(** All the trades of a list: each minute's value counts the trades of
    that minute, in their order. *)
Lemma addTrades_lookup (ts : list Trade.t) : forall (m : list TradeMinute.t) (k : Z),
  lookupMinute (fold_left (addTrade count) ts m) k
  = match lookupMinute m k, tradesInMinute ts k with
    | None, [] => None
    | Some d, l => Some (applyAll count l d)
    | None, l => Some (applyAll count l (TradeMinute.mk k 0 0 0 0 0 0))
    end.
Proof.
  induction ts as [| t ts IH]; intros m k; simpl.
  - destruct (lookupMinute m k); reflexivity.
  - rewrite IH, addTrade_lookup. rewrite (Z.eqb_sym (minuteOf (Trade.timestamp t)) k).
    destruct (k =? minuteOf (Trade.timestamp t))%Z.
    + destruct (lookupMinute m k); simpl; reflexivity.
    + destruct (lookupMinute m k); reflexivity.
Qed.

Lemma addTrades_NoDup (ts : list Trade.t) : forall m : list TradeMinute.t,
  NoDup (map TradeMinute.minute m) ->
  NoDup (map TradeMinute.minute (fold_left (addTrade count) ts m)).
Proof.
  induction ts as [| t ts IH]; intros m N; simpl; [exact N |].
  apply IH. now apply addTrade_NoDup.
Qed.

End MinuteMap.

Lemma applyAll_countUp (l : list Trade.t) : forall k u dn us ds ua da,
  applyAll countUp l (TradeMinute.mk k u dn us ds ua da)
  = TradeMinute.mk k (u + length l) dn
      (fold_left (fun a t => a + Trade.size t) l us) ds ua da.
Proof.
  unfold applyAll. induction l as [| t l IH]; intros k u dn us ds ua da; simpl.
  - f_equal. lia.
  - unfold countUp at 2. simpl. rewrite IH. f_equal. lia.
Qed.

Lemma applyAll_countDown (l : list Trade.t) : forall k u dn us ds ua da,
  applyAll countDown l (TradeMinute.mk k u dn us ds ua da)
  = TradeMinute.mk k u (dn + length l) us
      (fold_left (fun a t => a + Trade.size t) l ds) ua da.
Proof.
  unfold applyAll. induction l as [| t l IH]; intros k u dn us ds ua da; simpl.
  - f_equal. lia.
  - unfold countDown at 2. simpl. rewrite IH. f_equal. lia.
Qed.

Lemma lookupMinute_map (g : TradeMinute.t -> TradeMinute.t) (m : list TradeMinute.t)
    (k : Z) :
  (forall d, TradeMinute.minute (g d) = TradeMinute.minute d) ->
  lookupMinute (map g m) k = option_map g (lookupMinute m k).
Proof.
  intro Hg. unfold lookupMinute. induction m as [| d m IH]; simpl; [reflexivity |].
  rewrite Hg. destruct (TradeMinute.minute d =? k)%Z; [reflexivity | exact IH].
Qed.

(** The value of a minute in the finished map: absent when the market has
    no trade in that minute, else the counts, total sizes and average
    prices of its up and of its down trades. *)
Lemma minuteMapOf_lookup (market : Market.t) (k : Z) :
  lookupMinute (minuteMapOf market) k
  = match tradesInMinute (Asset.trades (Market.up market)) k,
          tradesInMinute (Asset.trades (Market.down market)) k with
    | [], [] => None
    | U, D =>
        Some (TradeMinute.mk k (length U) (length D) (sumSize U) (sumSize D)
                (if (0 <? length U)%nat then totalValue U / sumSize U else 0)
                (if (0 <? length D)%nat then totalValue D / sumSize D else 0))
    end.
Proof.
  unfold minuteMapOf. cbv zeta.
  rewrite lookupMinute_map by reflexivity.
  rewrite (addTrades_lookup countDown) by reflexivity.
  rewrite (addTrades_lookup countUp) by reflexivity.
  cbn [lookupMinute find].
  unfold setAverages, sumSize.
  destruct (tradesInMinute (Asset.trades (Market.up market)) k) as [| u U] eqn:EU;
    destruct (tradesInMinute (Asset.trades (Market.down market)) k) as [| d D] eqn:ED.
  - reflexivity.
  - rewrite applyAll_countDown. cbn [option_map TradeMinute.minute TradeMinute.upTrades
      TradeMinute.downTrades TradeMinute.upTotalSize TradeMinute.downTotalSize
      TradeMinute.upAvgPrice TradeMinute.downAvgPrice].
    rewrite EU, ED. reflexivity.
  - rewrite applyAll_countUp. cbn [applyAll fold_left option_map TradeMinute.minute
      TradeMinute.upTrades TradeMinute.downTrades TradeMinute.upTotalSize
      TradeMinute.downTotalSize TradeMinute.upAvgPrice TradeMinute.downAvgPrice].
    rewrite EU, ED. reflexivity.
  - rewrite applyAll_countUp, applyAll_countDown.
    cbn [option_map TradeMinute.minute TradeMinute.upTrades
      TradeMinute.downTrades TradeMinute.upTotalSize TradeMinute.downTotalSize
      TradeMinute.upAvgPrice TradeMinute.downAvgPrice].
    rewrite EU, ED. reflexivity.
Qed.

Lemma minuteMapOf_NoDup (market : Market.t) :
  NoDup (map TradeMinute.minute (minuteMapOf market)).
Proof.
  unfold minuteMapOf. cbv zeta. rewrite map_map.
  change (fun x => TradeMinute.minute (setAverages market x)) with TradeMinute.minute.
  apply addTrades_NoDup; [reflexivity |].
  apply addTrades_NoDup; [reflexivity | constructor].
Qed.

Lemma tradesInMinute_In (trades : list Trade.t) (t : Trade.t) :
  In t trades -> In t (tradesInMinute trades (minuteOf (Trade.timestamp t))).
Proof.
  intro H. unfold tradesInMinute. apply filter_In. split; [exact H | apply Z.eqb_refl].
Qed.

Lemma tradesInMinute_nonempty (trades : list Trade.t) (k : Z) :
  tradesInMinute trades k <> [] ->
  exists t, In t trades /\ minuteOf (Trade.timestamp t) = k.
Proof.
  destruct (tradesInMinute trades k) as [| t l] eqn:E; [congruence | intros _].
  assert (H : In t (tradesInMinute trades k)) by (rewrite E; now left).
  unfold tradesInMinute in H. apply filter_In in H. destruct H as [H K].
  apply Z.eqb_eq in K. now exists t.
Qed.

Lemma minutePoints_x (d : TradeMinute.t) (p : Point.t) :
  In p (minutePoints d) -> Point.x p = inject_Z (TradeMinute.minute d).
Proof.
  unfold minutePoints. intro H. apply in_app_or in H.
  destruct H as [H | H];
    [destruct (0 <? TradeMinute.upTrades d)%nat
    | destruct (0 <? TradeMinute.downTrades d)%nat];
    try contradiction; destruct H as [<- | []]; reflexivity.
Qed.

Lemma minutePoints_NoDup (d : TradeMinute.t) : NoDup (minutePoints d).
Proof.
  unfold minutePoints.
  destruct (0 <? TradeMinute.upTrades d)%nat, (0 <? TradeMinute.downTrades d)%nat;
    simpl; repeat constructor; simpl; try tauto.
  intros [H | []]. discriminate H.
Qed.

Lemma flat_map_minutePoints_NoDup (m : list TradeMinute.t) :
  NoDup (map TradeMinute.minute m) -> NoDup (flat_map minutePoints m).
Proof.
  induction m as [| d m IH]; intro N; simpl; [constructor |].
  simpl in N. inversion N as [| ? ? Hn Hm]; subst.
  apply NoDup_app; [apply minutePoints_NoDup | now apply IH |].
  intros p Hp Hq. apply minutePoints_x in Hp.
  apply in_flat_map in Hq. destruct Hq as (e & He & Hq).
  apply minutePoints_x in Hq. rewrite Hp in Hq.
  assert (E : TradeMinute.minute d = TradeMinute.minute e) by (inversion Hq; reflexivity).
  apply Hn. rewrite E. now apply in_map.
Qed.

Lemma minuteMapOf_value (market : Market.t) (k : Z) :
  lookupMinute (minuteMapOf market) k
  = match tradesInMinute (Asset.trades (Market.up market)) k,
          tradesInMinute (Asset.trades (Market.down market)) k with
    | [], [] => None
    | _, _ => Some (minuteValue market k)
    end.
Proof.
  rewrite minuteMapOf_lookup. unfold minuteValue.
  destruct (tradesInMinute (Asset.trades (Market.up market)) k);
    destruct (tradesInMinute (Asset.trades (Market.down market)) k); reflexivity.
Qed.

Lemma minutePoints_value (market : Market.t) (k : Z) :
  minutePoints (minuteValue market k)
  = match tradesInMinute (Asset.trades (Market.up market)) k with
    | [] => []
    | _ :: _ => [minuteUpPoint market k]
    end
    ++ match tradesInMinute (Asset.trades (Market.down market)) k with
       | [] => []
       | _ :: _ => [minuteDownPoint market k]
       end.
Proof.
  unfold minutePoints, minuteValue, minuteUpPoint, minuteDownPoint.
  cbn [TradeMinute.upTrades TradeMinute.downTrades TradeMinute.minute
       TradeMinute.upTotalSize TradeMinute.downTotalSize TradeMinute.upAvgPrice
       TradeMinute.downAvgPrice].
  destruct (tradesInMinute (Asset.trades (Market.up market)) k);
    destruct (tradesInMinute (Asset.trades (Market.down market)) k); reflexivity.
Qed.

(** X18.  For a market whose trades all have a positive size, the
    aggregated chart has exactly one point for every minute with up trades
    and one for every minute with down trades: at the minute's start, with
    the sum of the sizes of that minute's trades of the side as size, their
    total value divided by that sum as price, and red for up or green for
    down, which the tooltip reports as "Up" and "Down"; no point occurs
    twice. *)
Theorem aggregated_points (market : Market.t) :
  (forall t, In t (Asset.trades (Market.up market))
             \/ In t (Asset.trades (Market.down market)) -> 0 < Trade.size t) ->
  (forall p, In p (ChartData.points (aggregateMarket market)) <->
     (exists t, In t (Asset.trades (Market.up market)) /\
                p = minuteUpPoint market (minuteOf (Trade.timestamp t))) \/
     (exists t, In t (Asset.trades (Market.down market)) /\
                p = minuteDownPoint market (minuteOf (Trade.timestamp t)))) /\
  NoDup (ChartData.points (aggregateMarket market)) /\
  (forall k, TooltipPoint.side (pointData (minuteUpPoint market k)) = "Up"%string /\
             TooltipPoint.side (pointData (minuteDownPoint market k)) = "Down"%string).
Proof.
  intros _.
  split; [| split].
  - intro p. unfold aggregateMarket. cbn [ChartData.points]. split.
    + intro H. apply in_flat_map in H. destruct H as (d & Hd & Hp).
      pose proof (lookupMinute_In _ d (minuteMapOf_NoDup market) Hd) as L.
      rewrite minuteMapOf_value in L.
      assert (Ed : d = minuteValue market (TradeMinute.minute d)).
      { destruct (tradesInMinute (Asset.trades (Market.up market)) (TradeMinute.minute d));
          destruct (tradesInMinute (Asset.trades (Market.down market))
                      (TradeMinute.minute d));
          try discriminate; inversion L; reflexivity. }
      rewrite Ed, minutePoints_value in Hp. clear L.
      set (k := TradeMinute.minute d) in *.
      apply in_app_or in Hp. destruct Hp as [Hp | Hp]; [left | right].
      * destruct (tradesInMinute_nonempty (Asset.trades (Market.up market)) k)
          as (t & Ht & Ek).
        { intro E. rewrite E in Hp. contradiction. }
        exists t. split; [exact Ht |]. rewrite Ek.
        destruct (tradesInMinute (Asset.trades (Market.up market)) k);
          [contradiction | destruct Hp as [<- | []]; reflexivity].
      * destruct (tradesInMinute_nonempty (Asset.trades (Market.down market)) k)
          as (t & Ht & Ek).
        { intro E. rewrite E in Hp. contradiction. }
        exists t. split; [exact Ht |]. rewrite Ek.
        destruct (tradesInMinute (Asset.trades (Market.down market)) k);
          [contradiction | destruct Hp as [<- | []]; reflexivity].
    + intros [(t & Ht & ->) | (t & Ht & ->)];
        apply tradesInMinute_In in Ht;
        set (k := minuteOf (Trade.timestamp t)) in *;
        pose proof (minuteMapOf_value market k) as L;
        apply in_flat_map; exists (minuteValue market k).
      * split.
        -- destruct (tradesInMinute (Asset.trades (Market.up market)) k);
             [contradiction |].
           apply lookupMinute_Some in L. apply L.
        -- rewrite minutePoints_value. apply in_or_app. left.
           destruct (tradesInMinute (Asset.trades (Market.up market)) k);
             [contradiction | now left].
      * split.
        -- destruct (tradesInMinute (Asset.trades (Market.down market)) k);
             [contradiction |].
           destruct (tradesInMinute (Asset.trades (Market.up market)) k);
             apply lookupMinute_Some in L; apply L.
        -- rewrite minutePoints_value. apply in_or_app. right.
           destruct (tradesInMinute (Asset.trades (Market.down market)) k);
             [contradiction | now left].
  - unfold aggregateMarket. cbn [ChartData.points].
    apply flat_map_minutePoints_NoDup, minuteMapOf_NoDup.
  - intro k. split; reflexivity.
Qed.

(** Market 1 has up trades at 0 and 10 and a down trade at 5, all in the
    minute starting at 0: its chart has the up point and the down point of
    that minute. *)
Lemma aggregated_points_witness :
  (forall t, In t (Asset.trades (Market.up market0))
             \/ In t (Asset.trades (Market.down market0)) -> 0 < Trade.size t) /\
  In (minuteUpPoint market0 0) (ChartData.points (aggregateMarket market0)) /\
  In (minuteDownPoint market0 0) (ChartData.points (aggregateMarket market0)) /\
  NoDup (ChartData.points (aggregateMarket market0)).
Proof.
  assert (H : forall t, In t (Asset.trades (Market.up market0))
                        \/ In t (Asset.trades (Market.down market0)) ->
                        0 < Trade.size t).
  { intros t [[<- | [<- | []]] | [<- | []]]; reflexivity. }
  pose proof (aggregated_points market0 H) as (P & D & _).
  split; [exact H |].
  split; [| split; [| exact D]].
  - apply P. left. exists (Trade.mk 0 0.10 3). split; [left; reflexivity | reflexivity].
  - apply P. right. exists (Trade.mk 5 0.15 5). split; [left; reflexivity | reflexivity].
Defined.

Lemma minuteOf_bounds (timestamp : Q) :
  inject_Z (minuteOf timestamp) <= timestamp < inject_Z (minuteOf timestamp) + 60 /\
  (minuteOf timestamp mod 60 = 0)%Z.
Proof.
  unfold minuteOf. rewrite inject_Z_mult. change (inject_Z 60) with 60.
  pose proof (Qfloor_le (timestamp / 60)) as L.
  pose proof (Qlt_floor (timestamp / 60)) as U.
  rewrite inject_Z_plus in U. change (inject_Z 1) with 1 in U.
  assert (E : timestamp / 60 * 60 == timestamp) by field.
  split; [split; lra | apply Z.mod_mul; lia].
Qed.

(** Totals of trades with positive sizes and prices within [lo, hi]. *)
Lemma totals_bounds (lo hi : Q) (l : list Trade.t) : forall v s,
  (forall t, In t l -> 0 < Trade.size t /\ lo <= Trade.price t <= hi) ->
  s <= fold_left (fun a t => a + Trade.size t) l s /\
  (l <> [] -> s < fold_left (fun a t => a + Trade.size t) l s) /\
  lo * (fold_left (fun a t => a + Trade.size t) l s - s)
  <= fold_left (fun sum t => sum + Trade.price t * Trade.size t) l v - v
  <= hi * (fold_left (fun a t => a + Trade.size t) l s - s).
Proof.
  induction l as [| t l IH]; intros v s H; simpl.
  - split; [lra |]. split; [congruence | split; lra].
  - destruct (H t (or_introl eq_refl)) as (Ps & Pl & Ph).
    destruct (IH (v + Trade.price t * Trade.size t) (s + Trade.size t)
                 (fun x Hx => H x (or_intror Hx))) as (A & _ & B & C).
    split; [lra |]. split; [intros _; lra |]. split; nra.
Qed.

(** X19.  A trade is put in the minute that starts at the greatest multiple
    of 60 not after its timestamp.  When the up trades of a minute all
    have positive sizes, the size of the minute's up point is positive and
    its price is their size-weighted average: it times the total size is
    the total value, and it lies between any bounds that hold for their
    prices; likewise for the down trades. *)
Theorem minute_average_price (market : Market.t) (k : Z) (lo hi : Q) :
  (forall timestamp,
     inject_Z (minuteOf timestamp) <= timestamp < inject_Z (minuteOf timestamp) + 60 /\
     (minuteOf timestamp mod 60 = 0)%Z) /\
  (tradesInMinute (Asset.trades (Market.up market)) k <> [] ->
   (forall t, In t (tradesInMinute (Asset.trades (Market.up market)) k) ->
              0 < Trade.size t /\ lo <= Trade.price t <= hi) ->
   (exists size, Point.size (minuteUpPoint market k) = Some size /\ 0 < size /\
                 Point.y (minuteUpPoint market k) * size
                 == totalValue (tradesInMinute (Asset.trades (Market.up market)) k)) /\
   lo <= Point.y (minuteUpPoint market k) <= hi) /\
  (tradesInMinute (Asset.trades (Market.down market)) k <> [] ->
   (forall t, In t (tradesInMinute (Asset.trades (Market.down market)) k) ->
              0 < Trade.size t /\ lo <= Trade.price t <= hi) ->
   (exists size, Point.size (minuteDownPoint market k) = Some size /\ 0 < size /\
                 Point.y (minuteDownPoint market k) * size
                 == totalValue (tradesInMinute (Asset.trades (Market.down market)) k)) /\
   lo <= Point.y (minuteDownPoint market k) <= hi).
Proof.
  assert (G : forall l, l <> [] ->
            (forall t, In t l -> 0 < Trade.size t /\ lo <= Trade.price t <= hi) ->
            0 < sumSize l /\ totalValue l / sumSize l * sumSize l == totalValue l /\
            lo <= totalValue l / sumSize l <= hi).
  { intros l N H. unfold sumSize, totalValue.
    destruct (totals_bounds lo hi l 0 0 H) as (_ & P & B & C).
    specialize (P N).
    set (S := fold_left (fun a t => a + Trade.size t) l 0) in *.
    set (V := fold_left (fun sum t => sum + Trade.price t * Trade.size t) l 0) in *.
    set (y := V / S). assert (E : y * S == V) by (unfold y; field; lra).
    split; [exact P |]. split; [exact E |]. split.
    - destruct (Qlt_le_dec y lo) as [L | L]; [exfalso; nra | exact L].
    - destruct (Qlt_le_dec hi y) as [L | L]; [exfalso; nra | exact L]. }
  split; [apply minuteOf_bounds |]. split; intros N H;
    destruct (G _ N H) as (P & E & B);
    (split; [eexists; split; [reflexivity | split; [exact P | exact E]] | exact B]).
Qed.

Lemma minute_average_price_witness :
  tradesInMinute (Asset.trades (Market.up market0)) 0 <> [] /\
  (forall t, In t (tradesInMinute (Asset.trades (Market.up market0)) 0) ->
             0 < Trade.size t /\ 0.10 <= Trade.price t <= 0.20) /\
  0.10 <= Point.y (minuteUpPoint market0 0) <= 0.20.
Proof.
  assert (N : tradesInMinute (Asset.trades (Market.up market0)) 0 <> [])
    by (vm_compute; discriminate).
  assert (H : forall t, In t (tradesInMinute (Asset.trades (Market.up market0)) 0) ->
                        0 < Trade.size t /\ 0.10 <= Trade.price t <= 0.20).
  { intros t [<- | [<- | []]]; vm_compute; repeat split; discriminate. }
  split; [exact N | split; [exact H |]].
  exact (proj2 (proj1 (proj2 (minute_average_price market0 0 0.10 0.20)) N H)).
Defined.
